(** * Transaction assembly, gas estimation and peg-in claims (api/transact.go)

    A shallow embedding of [api/transact.go] of the bytom wallet service:
    the gas estimator ([EstimateTxGas], [estimateP2WSHGas],
    [estimateSignSize]), the template builder ([actionDecoder],
    [onlyHaveInputActions], [buildSingle]), the peg-in claim
    ([getPeginTxnOutputIndex], [claimPeginTx]) and the endpoints [build],
    [submit] and [estimateTxGas]; and of the two receiver endpoints of
    [api/receivers.go], [createAccountReceiver] and [getPeginAddress].

    Conventions.
    - Go's [int64] (and [int], 64 bits wide) is a [Z] inside
      [-2^63, 2^63); every arithmetic operation of the source is written
      with its two's complement wrap-around ([Int64.add], [Int64.mul] ...).
    - Go's [float64] is a [spec_float] at precision 53 and maximal
      exponent 1024, the binary64 format of the Standard Library.
    - A Go [[]byte] that the code compares with [nil] is an
      [option string]; a Go [string] is a [string].
    - A Go [map[string]interface{}] is a reference: action maps live in a
      heap and a request holds their locations.
    - A run-time panic is the outcome [Panic].
    - Records keep the fields the code reads or writes.  Pointers to
      structures (the transaction of a template, a signing instruction, a
      witness component) are taken non-nil.  A nil slice of structures and an
      empty one are the same list: they agree on [len], [range] and
      indexing, so the substitution of lines 120-123 is the identity here.
    - What the code prints or logs (lines 151, 315, 379, 388) is left out. *)

From Stdlib Require Import ZArith Lia List String Bool.
From Stdlib Require Import Floats.SpecFloat.
From stdpp Require Import gmap strings list pretty.
From coqutil Require Import Z.PushPullMod.

Local Open Scope Z_scope.

(* ===================================================================== *)
(** * 64-bit integers *)
(* ===================================================================== *)

Module Int64.

Definition min_int : Z := - 2 ^ 63.
Definition max_int : Z := 2 ^ 63 - 1.

Definition in_range (z : Z) : Prop := min_int <= z <= max_int.

Definition in_rangeb (z : Z) : bool := (min_int <=? z) && (z <=? max_int).

(** The value an [int64] holds after an operation whose exact result is
    [z]: the representative of [z] modulo [2^64] in [-2^63, 2^63). *)
Definition wrap (z : Z) : Z := (z + 2 ^ 63) mod 2 ^ 64 - 2 ^ 63.

Definition add (a b : Z) : Z := wrap (a + b).
Definition sub (a b : Z) : Z := wrap (a - b).
Definition mul (a b : Z) : Z := wrap (a * b).

End Int64.

(** Modelled from the spec: [checked.MulInt64] (package [math/checked]) lies
    outside [api/transact.go].  The spec asks for overflow-checked 64-bit
    multiplication: the product and [true] when it fits in an [int64],
    [false] otherwise. *)
Definition MulInt64 (a b : Z) : Z * bool :=
  if Int64.in_rangeb (a * b) then (a * b, true) else (0, false).

(* ===================================================================== *)
(** * 64-bit floating point *)
(* ===================================================================== *)

Module Float64.

Definition prec : Z := 53.
Definition emax : Z := 1024.

(** [float64(x)] for an [int64] [x]: rounds to nearest, ties to even. *)
Definition of_int64 (x : Z) : spec_float := binary_normalize prec emax x 0 false.

(** [x / y] on [float64]. *)
Definition div (x y : spec_float) : spec_float := SFdiv prec emax x y.

(** The least integer not below the value of a finite float. *)
Definition ceilZ (s : bool) (m : positive) (e : Z) : Z :=
  let v := cond_Zopp s (Zpos m) in
  if 0 <=? e then v * 2 ^ e else - ((- v) / 2 ^ (- e)).

(** The integer part (towards zero) of the value of a finite float. *)
Definition truncZ (s : bool) (m : positive) (e : Z) : Z :=
  if 0 <=? e then cond_Zopp s (Zpos m * 2 ^ e)
  else cond_Zopp s (Zpos m / 2 ^ (- e)).

(** [math.Ceil]: zeros, infinities and NaN are returned as they are; a
    finite value becomes the least integer not below it, which is always
    representable; a value in (-1, 0) gives the negative zero. *)
Definition Ceil (x : spec_float) : spec_float :=
  match x with
  | S754_finite s m e => binary_normalize prec emax (ceilZ s m e) 0 s
  | _ => x
  end.

(** [int64(x)] for a [float64] [x]: the fraction is discarded.  The
    language leaves the result open when the value does not fit; the
    amd64 conversion instruction then gives [-2^63], as it does for
    infinities and NaN. *)
Definition to_int64 (x : spec_float) : Z :=
  match x with
  | S754_zero _ => 0
  | S754_finite s m e =>
      let z := truncZ s m e in
      if Int64.in_rangeb z then z else Int64.min_int
  | _ => Int64.min_int
  end.

End Float64.

(** [defaultBaseRate = float64(100000)], line 29. *)
Definition defaultBaseRate : spec_float := Float64.of_int64 100000.

(* ===================================================================== *)
(** * Errors and outcomes *)
(* ===================================================================== *)

(** The identity of an error: the sentinels of the packages [api] and
    [txbuilder] that the code names, and the errors made by [errors.New]. *)
Inductive errRoot :=
| ErrBadActionType
| ErrBadAction
| ErrBadActionConstruction
| ErrAction
| ErrNew (msg : string).

(** An error value: its root, the detail attached by [errors.WithDetail],
    and, for a per-action aggregate, the inner errors kept under the data
    key ["actions"] (each one by its root and by the text of its
    [Error()]). *)
Record error := mkError {
  Root : errRoot;
  Detail : string;
  DataActions : option (list (errRoot * string))
}.

(** The root error itself, nothing attached. *)
Definition rootError (r : errRoot) : error :=
  {| Root := r; Detail := ""; DataActions := None |}.

Definition errors_New (msg : string) : error := rootError (ErrNew msg).

Definition errors_WithDetail (e : error) (text : string) : error :=
  {| Root := Root e; Detail := (Detail e ++ text)%string;
     DataActions := DataActions e |}.

Inductive fault := IndexOutOfRange | NilDereference | FailedTypeAssertion.

(** What a call does: returns a value, returns an error, or panics. *)
Inductive res (A : Type) :=
| Ok (a : A)
| Err (e : error)
| Panic (f : fault).
Arguments Ok {A} a.
Arguments Err {A} e.
Arguments Panic {A} f.

(* ===================================================================== *)
(** * Data model *)
(* ===================================================================== *)

Definition Hash := N.

(** [txbuilder]'s witness components.  The two kinds the estimator looks at
    carry a quorum (an [int]) and a list of keys; the type switches of
    lines 229 and 247 have no default case, so any other implementation of
    the interface is passed over: [OtherWitness]. *)
Inductive WitnessComponent :=
| SignatureWitness (Quorum : Z) (Keys : list string)
| RawTxSigWitness (Quorum : Z) (Keys : list string)
| OtherWitness.

Record SigningInstruction := {
  Position : Z;
  WitnessComponents : list WitnessComponent
}.

Record TxOutput := {
  Amount : Z;
  ControlProgram : option string
}.

Record TxInput := {
  Peginwitness : list (option string);
  IsPegin : bool
}.

(** The entries of a [bc.Tx], by identifier. *)
Inductive Entry :=
| SpendEntry (SpentOutputId : Hash)
| OutputEntry (Code : string)
| OtherEntry.

(** [types.Tx]: the transaction data (inputs, outputs), its identifier and
    the entry table with the ordered input identifiers. *)
Record Tx := {
  ID : Hash;
  Inputs : list TxInput;
  Outputs : list TxOutput;
  InputIDs : list Hash;
  Entries : gmap Hash Entry
}.

Record Template := {
  Transaction : Tx;
  SigningInstructions : list SigningInstruction
}.

(** Modelled from the spec: [bc.Tx.Spend] (package [protocol/bc]) lies
    outside [api/transact.go].  An input is resolved through the entry
    table; the lookup fails when the entry is absent or of another kind.
    The spent output identifier of a spend is taken non-nil. *)
Definition Spend (tx : Tx) (id : Hash) : option Hash :=
  match Entries tx !! id with
  | Some (SpendEntry o) => Some o
  | _ => None
  end.

(** Modelled from the spec: [bc.Tx.Output], as [Spend] above; the result is
    the code of the control program of the output. *)
Definition Output (tx : Tx) (id : Hash) : option string :=
  match Entries tx !! id with
  | Some (OutputEntry code) => Some code
  | _ => None
  end.

(* ===================================================================== *)
(** * Gas estimator *)
(* ===================================================================== *)

Record EstimateTxGasResp := {
  TotalNeu : Z;
  StorageNeu : Z;
  VMNeu : Z
}.

(** Lines 228-235: what one witness component adds to the P2WSH gas. *)
Definition witnessP2WSHGas (witness : WitnessComponent) (P2WSHGas : Z) : Z :=
  let baseP2WSHGas := 738 in
  match witness with
  | SignatureWitness Quorum Keys =>
      Int64.add P2WSHGas
        (Int64.add baseP2WSHGas
           (Int64.sub (Int64.sub (Int64.mul 984 (Z.of_nat (length Keys)))
                                 (Int64.mul 72 Quorum)) 63))
  | RawTxSigWitness Quorum Keys =>
      Int64.add P2WSHGas
        (Int64.add baseP2WSHGas
           (Int64.sub (Int64.sub (Int64.mul 984 (Z.of_nat (length Keys)))
                                 (Int64.mul 72 Quorum)) 63))
  | OtherWitness => P2WSHGas
  end.

Definition estimateP2WSHGas (sigInst : SigningInstruction) : Z :=
  fold_left (fun P2WSHGas witness => witnessP2WSHGas witness P2WSHGas)
            (WitnessComponents sigInst) 0.

(** Lines 246-253: what one witness component adds to the sign size. *)
Definition witnessSignSize (witness : WitnessComponent) (signSize : Z) : Z :=
  let baseWitnessSize := 300 in
  match witness with
  | SignatureWitness Quorum _ => Int64.add signSize (Int64.mul Quorum baseWitnessSize)
  | RawTxSigWitness Quorum _ => Int64.add signSize (Int64.mul Quorum baseWitnessSize)
  | OtherWitness => signSize
  end.

Definition estimateSignSize (signingInstructions : list SigningInstruction) : Z :=
  fold_left
    (fun signSize sigInst =>
       fold_left (fun signSize witness => witnessSignSize witness signSize)
                 (WitnessComponents sigInst) signSize)
    signingInstructions 0.

(** The three gas totals of lines 175-202. *)
Record GasTotals := {
  totalTxSizeGas : Z;
  totalP2WPKHGas : Z;
  totalP2WSHGas : Z
}.

Section Estimator.

(** Declared in other packages: the text encoding of the
    transaction data, the two script patterns of package [segwit] and the
    two rates of package [consensus]. *)
Variable MarshalText : Tx -> error + string.
Variable IsP2WPKHScript : string -> bool.
Variable IsP2WSHScript : string -> bool.
Variable StorageGasRate : Z.
Variable VMGasRate : Z.

(** The input [inpID] resolves to the spend of an output whose control
    program is of the P2WSH pattern (and not of the P2WPKH one, which is
    tested first): the branch of line 198. *)
Definition spendsP2WSH (T : Template) (inpID : Hash) : bool :=
  match Spend (Transaction T) inpID with
  | Some o =>
      match Output (Transaction T) o with
      | Some code => negb (IsP2WPKHScript code) && IsP2WSHScript code
      | None => false
      end
  | None => false
  end.

(** The branch of line 196. *)
Definition spendsP2WPKH (T : Template) (inpID : Hash) : bool :=
  match Spend (Transaction T) inpID with
  | Some o =>
      match Output (Transaction T) o with
      | Some code => IsP2WPKHScript code
      | None => false
      end
  | None => false
  end.

(** One turn of the loop of lines 185-202, on the pair of running totals
    [(totalP2WPKHGas, totalP2WSHGas)]. *)
Definition inputGas (template : Template) (pos : nat) (inpID : Hash)
           (acc : Z * Z) : res (Z * Z) :=
  let baseP2WPKHGas := 1419 in
  match Spend (Transaction template) inpID with
  | None => Ok acc
  | Some SpentOutputId =>
      match Output (Transaction template) SpentOutputId with
      | None => Ok acc
      | Some code =>
          if IsP2WPKHScript code then
            Ok (Int64.add (fst acc) baseP2WPKHGas, snd acc)
          else if IsP2WSHScript code then
            match SigningInstructions template !! pos with
            | None => Panic IndexOutOfRange
            | Some sigInst =>
                Ok (fst acc, Int64.add (snd acc) (estimateP2WSHGas sigInst))
            end
          else Ok acc
      end
  end.

Fixpoint vmGasLoop (template : Template) (pos : nat) (ids : list Hash)
         (acc : Z * Z) : res (Z * Z) :=
  match ids with
  | [] => Ok acc
  | inpID :: rest =>
      match inputGas template pos inpID acc with
      | Ok acc' => vmGasLoop template (S pos) rest acc'
      | Err e => Err e
      | Panic f => Panic f
      end
  end.

(** Lines 163-202. *)
Definition estimateGasTotals (template : Template) : res GasTotals :=
  match MarshalText (Transaction template) with
  | inl err => Err err
  | inr data =>
      let baseTxSize := Z.of_nat (String.length data) in
      let signSize := estimateSignSize (SigningInstructions template) in
      match MulInt64 (Int64.add baseTxSize signSize) StorageGasRate with
      | (_, false) => Err (errors_New "calculate txsize gas got a math error")
      | (txSizeGas, true) =>
          match vmGasLoop template 0 (InputIDs (Transaction template)) (0, 0) with
          | Ok (p2wpkh, p2wsh) =>
              Ok {| totalTxSizeGas := txSizeGas;
                    totalP2WPKHGas := p2wpkh;
                    totalP2WSHGas := p2wsh |}
          | Err e => Err e
          | Panic f => Panic f
          end
      end
  end.

(** Line 205. *)
Definition totalGas (g : GasTotals) : Z :=
  Int64.add (Int64.add (totalTxSizeGas g) (totalP2WPKHGas g)) (totalP2WSHGas g).

(** Lines 207-218. *)
Definition feeFigures (g : GasTotals) : EstimateTxGasResp :=
  let totalNeu :=
    Float64.div (Float64.of_int64 (Int64.mul (totalGas g) VMGasRate)) defaultBaseRate in
  let roundingNeu := Float64.Ceil totalNeu in
  let estimateNeu :=
    Int64.mul (Float64.to_int64 roundingNeu) (Float64.to_int64 defaultBaseRate) in
  {| TotalNeu := estimateNeu;
     StorageNeu := Int64.mul (totalTxSizeGas g) VMGasRate;
     VMNeu := Int64.mul (Int64.add (totalP2WPKHGas g) (totalP2WSHGas g)) VMGasRate |}.

Definition EstimateTxGas (template : Template) : res EstimateTxGasResp :=
  match estimateGasTotals template with
  | Ok g => Ok (feeFigures g)
  | Err e => Err e
  | Panic f => Panic f
  end.

End Estimator.

(* ===================================================================== *)
(** * Exact figures, for the statements *)
(* ===================================================================== *)

(** The exact figures of one witness component, in unbounded integers. *)
Definition p2wshGasOf (w : WitnessComponent) : Z :=
  match w with
  | SignatureWitness q keys | RawTxSigWitness q keys =>
      738 + (984 * Z.of_nat (length keys) - 72 * q - 63)
  | OtherWitness => 0
  end.

Definition signSizeOf (w : WitnessComponent) : Z :=
  match w with
  | SignatureWitness q _ | RawTxSigWitness q _ => q * 300
  | OtherWitness => 0
  end.

Definition sumZ (l : list Z) : Z := fold_right Z.add 0 l.

(** The exact sign size of a list of instructions. *)
Definition signSizeTotal (sis : list SigningInstruction) : Z :=
  sumZ ((fun si => sumZ (signSizeOf <$> WitnessComponents si)) <$> sis).

(** A template with every quorum doubled. *)
Definition doubleQuorum (w : WitnessComponent) : WitnessComponent :=
  match w with
  | SignatureWitness q keys => SignatureWitness (2 * q) keys
  | RawTxSigWitness q keys => RawTxSigWitness (2 * q) keys
  | OtherWitness => OtherWitness
  end.

Definition doubleQuorumsOf (si : SigningInstruction) : SigningInstruction :=
  {| Position := Position si;
     WitnessComponents := doubleQuorum <$> WitnessComponents si |}.

Definition doubleQuorums (T : Template) : Template :=
  {| Transaction := Transaction T;
     SigningInstructions := doubleQuorumsOf <$> SigningInstructions T |}.

(** The least integer not below [a / b], for a positive [b]. *)
Definition ceilDiv (a b : Z) : Z := - ((- a) / b).

(** What rounding to nearest, ties to even, makes of a mantissa [q] of 53 or
    54 bits and the location [loc] of the discarded part, in units of the
    last bit of [q]. *)
Definition round_value (q : positive) (loc : location) : Z :=
  if Zpos (digits2_pos q) =? 53 then round_nearest_even (Zpos q) loc
  else
    let mrs := shr_1 (shr_record_of_loc (Zpos q) loc) in
    2 * round_nearest_even (shr_m mrs) (loc_of_shr_record mrs).

(** The quorum of a witness component of either multi-signature kind; any
    other component asks for no signature. *)
Definition quorumOf (w : WitnessComponent) : Z :=
  match w with
  | SignatureWitness q _ | RawTxSigWitness q _ => q
  | OtherWitness => 0
  end.

(** The quorums of a list of instructions, summed up. *)
Definition totalQuorum (sis : list SigningInstruction) : Z :=
  sumZ ((fun si => sumZ (quorumOf <$> WitnessComponents si)) <$> sis).

(** A multi-signature component whose quorum is at least zero and at most
    the number of its keys. *)
Definition quorumWithinKeys (w : WitnessComponent) : Prop :=
  match w with
  | SignatureWitness q keys | RawTxSigWitness q keys => 0 <= q <= Z.of_nat (length keys)
  | OtherWitness => True
  end.

(** What the input [inpID], met at position [pos] of the input list, adds to
    the P2WSH gas when its instruction is there. *)
Definition p2wshGasAt (IsP2WPKHScript IsP2WSHScript : string -> bool) (T : Template)
           (pos : nat) (inpID : Hash) : Z :=
  if spendsP2WSH IsP2WPKHScript IsP2WSHScript T inpID then
    match SigningInstructions T !! pos with
    | Some sigInst => estimateP2WSHGas sigInst
    | None => 0
    end
  else 0.

(** The number of inputs that spend a P2WPKH output. *)
Definition countP2WPKH (IsP2WPKHScript : string -> bool) (T : Template) : Z :=
  Z.of_nat (length (List.filter (spendsP2WPKH IsP2WPKHScript T) (InputIDs (Transaction T)))).

(* ===================================================================== *)
(** * Build requests *)
(* ===================================================================== *)

(** A value held in an action map ([interface{}]): the strings and integers
    the code stores or reads, and any other decoded JSON value by its text. *)
Inductive Value :=
| VString (s : string)
| VInt (n : Z)
| VUint64 (n : Z)
| VJSON (raw : string).

(** Action maps are references: they live in a heap, by location. *)
Definition loc := N.

(** [BuildRequest] is declared in another file of package [api]; the fields are
    the ones [buildSingle] reads. *)
Record BuildRequest := {
  BuildTx : option Tx;
  Actions : list loc;
  TTL : Z;
  TimeRange : Z
}.

Definition emptyBuildRequest : BuildRequest :=
  {| BuildTx := None; Actions := []; TTL := 0; TimeRange := 0 |}.

(** Reading through a location; a location the heap does not hold reads as
    the empty map, as a nil map does. *)
Definition deref (h : gmap loc (gmap string Value)) (l : loc) : gmap string Value :=
  default ∅ (h !! l).

(** [act["type"].(string)] *)
Definition typeTag (act : gmap string Value) : option string :=
  match act !! "type"%string with
  | Some (VString s) => Some s
  | _ => None
  end.

(** Lines 47-56: the loop of [onlyHaveInputActions], from index [i] on. *)
Fixpoint countInputActions (h : gmap loc (gmap string Value)) (i : nat)
         (acts : list loc) (count : Z) : error + Z :=
  match acts with
  | [] => inr count
  | l :: rest =>
      match typeTag (deref h l) with
      | None =>
          inl (errors_WithDetail (rootError ErrBadActionType)
                 ("no action type provided on action " ++ pretty i))
      | Some actionType =>
          if String.prefix "spend" actionType || String.eqb actionType "issue"
          then countInputActions h (S i) rest (count + 1)
          else countInputActions h (S i) rest count
      end
  end.

(** Lines 45-59. *)
Definition onlyHaveInputActions (h : gmap loc (gmap string Value))
           (req : BuildRequest) : error + bool :=
  match countInputActions h 0 (Actions req) 0 with
  | inl e => inl e
  | inr count => inr (count =? Z.of_nat (length (Actions req)))
  end.

(** The test of line 53, by itself. *)
Definition isInputAction (actionType : string) : bool :=
  String.prefix "spend" actionType || String.eqb actionType "issue".

(** A string that the verb [%q] of line 80 puts between double quotes as it
    is: printable ASCII characters, neither the double quote nor the
    backslash. *)
Definition quotedAsIs (s : string) : bool :=
  forallb (fun c =>
             let n := Ascii.nat_of_ascii c in
             (32 <=? n)%nat && (n <? 127)%nat && negb (n =? 34)%nat && negb (n =? 92)%nat)
          (list_ascii_of_string s).

(** [account.CtrlProgram], by the fields the code reads. *)
Record CtrlProgram := {
  AccountID : string;
  Address : string;
  CP_ControlProgram : option string
}.

Record submitTxResp := { TxID : Hash }.

Inductive Response :=
| ErrorResponse (e : error)
| SuccessResponse (r : submitTxResp).

(** [bytes.Equal]: a nil slice equals an empty one. *)
Definition bytes_Equal (a b : option string) : bool :=
  String.eqb (default ""%string a) (default ""%string b).

(** Lines 269-276. *)
Fixpoint outputIndexFrom (index : Z) (outputs : list TxOutput)
         (controlProg : option string) : Z :=
  match outputs with
  | [] => 0
  | output :: rest =>
      if bytes_Equal (ControlProgram output) controlProg then index
      else outputIndexFrom (index + 1) rest controlProg
  end.

Definition getPeginTxnOutputIndex (rawTx : Tx) (controlProg : option string) : Z :=
  outputIndexFrom 0 (Outputs rawTx) controlProg.

(** The request of [claimPeginTx] (lines 278-283). *)
Record ClaimRequest := {
  Password : string;
  RawTx : Tx;
  TxOutProof : string;
  ClaimScript : string
}.

(** [tmpl.Transaction.Inputs[0].Peginwitness = stack] and
    [tmpl.Transaction.Inputs[0].IsPegin = true], lines 373-375. *)
Definition markPegin (tmpl : Template) (stack : list (option string)) : option Template :=
  match Inputs (Transaction tmpl) with
  | [] => None
  | _ :: rest =>
      let tx := Transaction tmpl in
      Some {| Transaction :=
                {| ID := ID tx;
                   Inputs := {| Peginwitness := stack; IsPegin := true |} :: rest;
                   Outputs := Outputs tx;
                   InputIDs := InputIDs tx;
                   Entries := Entries tx |};
              SigningInstructions := SigningInstructions tmpl |}
  end.

(* ===================================================================== *)
(** * The wallet service: state, collaborators, calls *)
(* ===================================================================== *)

(** [defaultTxTTL = 5 * time.Minute], in nanoseconds (line 28). *)
Definition defaultTxTTL : Z := 5 * (60 * 10 ^ 9).

(** A location no map of the heap lives at. *)
Definition freshLoc (h : gmap loc (gmap string Value)) : loc :=
  fold_right N.max 0%N (N.succ <$> (map_to_list h).*1).

Section Api.

(** The state of the wallet, of its store and of the chain, owned by the
    collaborators; the decoded actions; the signing callback. *)
Variable W : Type.
Variable Action : Type.
Variable SignFn : Type.

(** Declared in other packages: [errors], [txbuilder],
    [account], [sha3pool], [consensus], [encoding/json] and [time]. *)
Variable Error_text : error -> string.
Variable DecodeControlAddressAction : string -> error + Action.
Variable DecodeControlProgramAction : string -> error + Action.
Variable DecodeRetireAction : string -> error + Action.
Variable MergeSpendAction : list Action -> list Action.
Variable json_Marshal : gmap string Value -> error + string.
Variable time_Now : W -> Z.
Variable Build :
  option Tx -> list Action -> Z -> Z -> W -> (option Template * option error) * W.
Variable Sign : Template -> string -> SignFn -> W -> option error * W.
Variable FinalizeTx : Tx -> W -> (option error * Tx) * W.
Variable Sum256 : string -> string.
Variable ContractKey : string -> string.
Variable json_Unmarshal_CtrlProgram : string -> error + CtrlProgram.
Variable json_Marshal_Tx : Tx -> option string.
Variable ParentGenesisBlockHash : string.

(** The receiver [a *API], by what the code calls on it.  A collaborator
    that reads the wallet, the store or the chain takes their state [W]; one
    that may change it returns the new state as well.
    [completeMissingIDs] may also rewrite the action maps of the request. *)
Record API := {
  completeMissingIDs :
    BuildRequest -> gmap loc (gmap string Value) -> W ->
    option error * gmap loc (gmap string Value) * W;
  DecodeIssueAction : string -> error + Action;
  DecodeSpendAction : string -> error + Action;
  DecodeSpendUTXOAction : string -> error + Action;
  ListControlProgram : W -> error + list CtrlProgram;
  GetPeginControlPrograms : option string -> string * option string;
  CreateAddress : string -> bool -> W -> (error + CtrlProgram) * W;
  DB_Get : string -> W -> option string;
  PseudohsmSignTemplate : SignFn
}.

(** The calls into the template builder and into the collaborators that
    build, sign and submit, in the order they happen. *)
Inductive event :=
| EvBuildSingle (req : BuildRequest) (acts : list (gmap string Value))
| EvBuild (tx : option Tx) (actions : list Action) (maxTime timeRange : Z)
| EvSign (tmpl : Template) (password : string)
| EvFinalizeTx (tx : Tx).

Record St := {
  heap : gmap loc (gmap string Value);
  world : W;
  trace : list event
}.

Definition M (A : Type) : Type := St -> res A * St.

Definition ret {A} (a : A) : M A := fun s => (Ok a, s).

Definition bind {A B} (c : M A) (k : A -> M B) : M B :=
  fun s =>
    match c s with
    | (Ok a, s') => k a s'
    | (Err e, s') => (Err e, s')
    | (Panic f, s') => (Panic f, s')
    end.

Definition throw {A} (e : error) : M A := fun s => (Err e, s).
Definition panic {A} (f : fault) : M A := fun s => (Panic f, s).

Definition log (ev : event) : M unit :=
  fun s => (Ok tt, {| heap := heap s; world := world s; trace := trace s ++ [ev] |}).

Definition getHeap : M (gmap loc (gmap string Value)) := fun s => (Ok (heap s), s).
Definition getWorld : M W := fun s => (Ok (world s), s).

Definition setHeap (h : gmap loc (gmap string Value)) : M unit :=
  fun s => (Ok tt, {| heap := h; world := world s; trace := trace s |}).
Definition setWorld (w : W) : M unit :=
  fun s => (Ok tt, {| heap := heap s; world := w; trace := trace s |}).

Notation "'let*' x ':=' c 'in' k" := (bind c (fun x => k))
  (at level 10, x name, c at level 100, k at level 200).

(** [make(map[string]interface{})] *)
Definition newMap : M loc :=
  fun s =>
    let l := freshLoc (heap s) in
    (Ok l, {| heap := <[l := ∅]> (heap s); world := world s; trace := trace s |}).

(** [act[k] = v] *)
Definition store (act : loc) (k : string) (v : Value) : M unit :=
  fun s =>
    (Ok tt, {| heap := <[act := <[k := v]> (deref (heap s) act)]> (heap s);
               world := world s; trace := trace s |}).

(** [delete(act, k)] *)
Definition remove (act : loc) (k : string) : M unit :=
  fun s =>
    (Ok tt, {| heap := <[act := delete k (deref (heap s) act)]> (heap s);
               world := world s; trace := trace s |}).

(** [req.Actions = append(req.Actions, act)] *)
Definition appendAction (req : BuildRequest) (act : loc) : BuildRequest :=
  {| BuildTx := BuildTx req; Actions := Actions req ++ [act];
     TTL := TTL req; TimeRange := TimeRange req |}.

(** Lines 32-43. *)
Definition actionDecoder (a : API) (action : string) : option (string -> error + Action) :=
  if String.eqb action "control_address" then Some DecodeControlAddressAction
  else if String.eqb action "control_program" then Some DecodeControlProgramAction
  else if String.eqb action "issue" then Some (DecodeIssueAction a)
  else if String.eqb action "retire" then Some DecodeRetireAction
  else if String.eqb action "spend_account" then Some (DecodeSpendAction a)
  else if String.eqb action "spend_account_unspent_output" then Some (DecodeSpendUTXOAction a)
  else None.

(** The double quote that [%q] puts around a string (its escapes are left
    out). *)
Definition dquote : string := String (Ascii.ascii_of_nat 34) EmptyString.

(** Lines 73-94: the decoding loop of [buildSingle], from index [i] on. *)
Fixpoint decodeActions (a : API) (h : gmap loc (gmap string Value)) (i : nat)
         (acts : list loc) (actions : list Action) : error + list Action :=
  match acts with
  | [] => inr actions
  | l :: rest =>
      let act := deref h l in
      match typeTag act with
      | None =>
          inl (errors_WithDetail (rootError ErrBadActionType)
                 ("no action type provided on action " ++ pretty i))
      | Some typ =>
          match actionDecoder a typ with
          | None =>
              inl (errors_WithDetail (rootError ErrBadActionType)
                     ("unknown action type " ++ dquote ++ typ ++ dquote
                        ++ " on action " ++ pretty i))
          | Some decoder =>
              match json_Marshal act with
              | inl err => inl err
              | inr b =>
                  match decoder b with
                  | inl err =>
                      inl (errors_WithDetail (rootError ErrBadAction)
                             (Error_text err ++ " on action " ++ pretty i))
                  | inr action => decodeActions a h (S i) rest (actions ++ [action])
                  end
              end
          end
      end
  end.

(** Lines 104-115: a per-action aggregate is flattened; the root comes
    from the first inner error, the detail is every inner text in a row.
    With no inner error at all the root is nil and so is the result. *)
Definition flattenBuildError (err : option error) : res (option error) :=
  match err with
  | Some e =>
      match Root e with
      | ErrAction =>
          match DataActions e with
          | None => Panic FailedTypeAssertion
          | Some inner =>
              let Errs := fold_left (fun Errs ie => (Errs ++ snd ie)%string) inner ""%string in
              match inner with
              | [] => Ok None
              | first :: _ => Ok (Some (errors_WithDetail (rootError (fst first)) Errs))
              end
          end
      | _ => Ok err
      end
  | None => Ok None
  end.

(** Lines 61-125.  The call itself is recorded first, with the maps its
    actions point to at that time; the external build is recorded when it is
    invoked. *)
Definition buildSingle (a : API) (req : BuildRequest) : M Template :=
  let* h0 := getHeap in
  let* _ := log (EvBuildSingle req (deref h0 <$> Actions req)) in
  let* w0 := getWorld in
  let '(err, h, w) := completeMissingIDs a req h0 w0 in
  let* _ := setHeap h in
  let* _ := setWorld w in
  match err with
  | Some e => throw e
  | None =>
      match onlyHaveInputActions h req with
      | inl e => throw e
      | inr true =>
          throw (errors_WithDetail (rootError ErrBadActionConstruction)
                   "transaction contains only input actions and no output actions")
      | inr false =>
          match decodeActions a h 0 (Actions req) [] with
          | inl e => throw e
          | inr actions =>
              let actions := MergeSpendAction actions in
              let ttl := if TTL req =? 0 then defaultTxTTL else TTL req in
              let maxTime := time_Now w + ttl in
              let* _ := log (EvBuild (BuildTx req) actions maxTime (TimeRange req)) in
              let '(tpl, err, w') := Build (BuildTx req) actions maxTime (TimeRange req) w in
              let* _ := setWorld w' in
              match flattenBuildError err with
              | Panic f => panic f
              | Err e => throw e
              | Ok (Some e) => throw e
              | Ok None =>
                  match tpl with
                  | None => panic NilDereference
                  | Some tpl => ret tpl
                  end
              end
          end
      end
  end.

(** Lines 289-311: the claim target.  The scan of the local control
    programs keeps the address and the control program of the program
    visited last, and the index resolved for the last one with a peg
    control program. *)
Definition scanStep (a : API) (rawTx : Tx) (acc : string * option string * Z)
           (cp : CtrlProgram) : string * option string * Z :=
  let '(address, controlProg) := GetPeginControlPrograms a (CP_ControlProgram cp) in
  match controlProg with
  | None => (address, controlProg, snd acc)
  | Some _ => (address, controlProg, getPeginTxnOutputIndex rawTx controlProg)
  end.

Definition resolveClaimTarget (a : API) (ins : ClaimRequest)
  : M (string * option string * Z) :=
  let nOut := Z.of_nat (length (Outputs (RawTx ins))) in
  if String.eqb (ClaimScript ins) "" then
    let* w := getWorld in
    match ListControlProgram a w with
    | inl err => throw err
    | inr cps => ret (fold_left (scanStep a (RawTx ins)) cps (""%string, None, nOut))
    end
  else
    let '(address, controlProg) := GetPeginControlPrograms a (Some (ClaimScript ins)) in
    ret (address, controlProg, getPeginTxnOutputIndex (RawTx ins) controlProg).

(** [ins.RawTx.Outputs[nOut].Amount] *)
Definition outputAmount (rawTx : Tx) (nOut : Z) : M Z :=
  if nOut <? 0 then panic IndexOutOfRange
  else match Outputs rawTx !! Z.to_nat nOut with
       | None => panic IndexOutOfRange
       | Some output => ret (Amount output)
       end.

(** Lines 332-352: the build request.  One map is made (line 333), stored
    to, and appended three times: the three entries of [Actions] are the
    same location. *)
Definition synthesizeBuildRequest (a : API) (ins : ClaimRequest) (nOut : Z)
           (cp : CtrlProgram) : M BuildRequest :=
  let buildReqs := emptyBuildRequest in
  let* act := newMap in
  let* _ := store act "type" (VString "spend_account") in
  let* _ := store act "asset_id"
              (VString "ffffffffffffffffffffffffffffffffffffffffffffffffffffffffffffffff") in
  let* _ := store act "amount" (VInt 0) in
  let* _ := store act "account_id" (VString (AccountID cp)) in
  let buildReqs := appendAction buildReqs act in
  let* amount := outputAmount (RawTx ins) nOut in
  let* _ := store act "amount" (VUint64 amount) in
  let buildReqs := appendAction buildReqs act in
  let* _ := store act "type" (VString "control_address") in
  let* amount := outputAmount (RawTx ins) nOut in
  let* _ := store act "amount" (VUint64 amount) in
  let* w := getWorld in
  let '(program, w') := CreateAddress a (AccountID cp) false w in
  let* _ := setWorld w' in
  match program with
  | inl err => throw err
  | inr program =>
      let* _ := store act "address" (VString (Address program)) in
      let* _ := remove act "account_id" in
      let buildReqs := appendAction buildReqs act in
      ret buildReqs
  end.

(** Lines 357-389: the witness stack on the first input of the template,
    the signature, and the submission of [ins.RawTx]. *)
Definition finishClaim (a : API) (ins : ClaimRequest) (nOut : Z)
           (tmpl : Template) : M submitTxResp :=
  let* amount := outputAmount (RawTx ins) nOut in
  let stack :=
    [ Some (pretty (Z.to_N amount));
      Some ParentGenesisBlockHash;
      Some (ClaimScript ins);
      json_Marshal_Tx (RawTx ins);
      Some (TxOutProof ins) ] in
  match markPegin tmpl stack with
  | None => panic IndexOutOfRange
  | Some tmpl =>
      let* _ := log (EvSign tmpl (Password ins)) in
      let* w := getWorld in
      let '(err, w') := Sign tmpl (Password ins) (PseudohsmSignTemplate a) w in
      let* _ := setWorld w' in
      match err with
      | Some e => throw e
      | None =>
          let* _ := log (EvFinalizeTx (RawTx ins)) in
          let* w := getWorld in
          let '(err, rawTx', w') := FinalizeTx (RawTx ins) w in
          let* _ := setWorld w' in
          match err with
          | Some e => throw e
          | None => ret {| TxID := ID rawTx' |}
          end
      end
  end.

(** Lines 284-389, an error standing for [return NewErrorResponse(err)]. *)
Definition claimPeginTxBody (a : API) (ins : ClaimRequest) : M submitTxResp :=
  let* target := resolveClaimTarget a ins in
  let '(address, controlProg, nOut) := target in
  if nOut =? Z.of_nat (length (Outputs (RawTx ins))) then
    throw (errors_New
             "Failed to find output in bytom to the mainchain_address from getpeginaddress")
  else
    let hash := Sum256 (ClaimScript ins) in
    let* w := getWorld in
    match DB_Get a (ContractKey hash) w with
    | None => throw (errors_New "Failed to find control program through claim script")
    | Some data =>
        match json_Unmarshal_CtrlProgram data with
        | inl _ => throw (errors_New "Failed on unmarshal control program")
        | inr cp =>
            let* buildReqs := synthesizeBuildRequest a ins nOut cp in
            let* tmpl := buildSingle a buildReqs in
            finishClaim a ins nOut tmpl
        end
    end.

(** Lines 278-390. *)
Definition claimPeginTx (a : API) (ins : ClaimRequest) : M Response :=
  fun s =>
    match claimPeginTxBody a ins s with
    | (Ok r, s') => (Ok (SuccessResponse r), s')
    | (Err e, s') => (Ok (ErrorResponse e), s')
    | (Panic f, s') => (Panic f, s')
    end.

End Api.

Arguments heap {W Action} s.
Arguments world {W Action} s.
Arguments trace {W Action} s.
Arguments Build_St {W Action} heap world trace.
Arguments EvBuildSingle {Action} req acts.
Arguments EvBuild {Action} tx actions maxTime timeRange.
Arguments EvSign {Action} tmpl password.
Arguments EvFinalizeTx {Action} tx.
Arguments completeMissingIDs {W Action SignFn} a req h w : rename.
Arguments ListControlProgram {W Action SignFn} a w : rename.
Arguments GetPeginControlPrograms {W Action SignFn} a cp : rename.
Arguments CreateAddress {W Action SignFn} a accountID change w : rename.
Arguments DB_Get {W Action SignFn} a key w : rename.
Arguments PseudohsmSignTemplate {W Action SignFn} a : rename.
Arguments scanStep {W Action SignFn} a rawTx acc cp.
Arguments resolveClaimTarget {W Action SignFn} a ins.
Arguments synthesizeBuildRequest {W Action SignFn} a ins nOut cp.

(** ** The calls a run logs *)

(** The call of the external builder. *)
Definition isBuildCall {Action : Type} (ev : event Action) : Prop :=
  match ev with EvBuild _ _ _ _ => True | _ => False end.

(** A signature, or the submission of the transaction [tx]. *)
Definition submitsOnly {Action : Type} (tx : Tx) (ev : event Action) : Prop :=
  match ev with
  | EvSign _ _ => True
  | EvFinalizeTx t => t = tx
  | _ => False
  end.

(** What a run of the claim may log: its one build request, whose three
    actions are one and the same map, tagged [control_address], without
    account and with the amount of an output of the parent transaction; the
    external build; the signature; the submission of the parent
    transaction. *)
Definition claimEvent {Action : Type} (ins : ClaimRequest) (ev : event Action) : Prop :=
  match ev with
  | EvBuildSingle req acts =>
      exists l m output,
        Actions req = [l; l; l] /\ acts = [m; m; m]
        /\ typeTag m = Some "control_address"%string
        /\ m !! "account_id"%string = None
        /\ output ∈ Outputs (RawTx ins)
        /\ m !! "amount"%string = Some (VUint64 (Amount output))
  | EvBuild _ _ _ _ => True
  | EvSign _ _ => True
  | EvFinalizeTx tx => tx = RawTx ins
  end.

(** The four calls of a claim in their order: the template builder, the
    external build, the signature with the password of the request, the
    submission of the parent transaction.  A run stops after any of them. *)
Definition claimPipeline {Action : Type} (ins : ClaimRequest)
           (added : list (event Action)) : Prop :=
  match added with
  | [] => True
  | [EvBuildSingle _ _] => True
  | [EvBuildSingle _ _; EvBuild _ _ _ _] => True
  | [EvBuildSingle _ _; EvBuild _ _ _ _; EvSign _ pw] => pw = Password ins
  | [EvBuildSingle _ _; EvBuild _ _ _ _; EvSign _ pw; EvFinalizeTx tx] =>
      pw = Password ins /\ tx = RawTx ins
  | _ => False
  end.

(** The call of the template builder. *)
Definition isBuildSingleCall {Action : Type} (ev : event Action) : Prop :=
  match ev with EvBuildSingle _ _ => True | _ => False end.

(* ===================================================================== *)
(** * The endpoints (api/transact.go, api/receivers.go) *)
(* ===================================================================== *)

(** [Response], for the payloads other than [submitTxResp]. *)
Inductive Reply (A : Type) :=
| ErrorReply (e : error)
| SuccessReply (data : A).
Arguments ErrorReply {A} e.
Arguments SuccessReply {A} data.

(** [account.Account], by the field the code reads. *)
Record Account := { Acc_ID : string }.

(** The request of [createAccountReceiver] and of [getPeginAddress]
    (receivers.go, lines 9-12 and 39-42). *)
Record AccountRequest := {
  Req_AccountID : string;
  Req_AccountAlias : string
}.

(** [txbuilder.Receiver], by the fields the code fills. *)
Record Receiver := {
  Rcv_ControlProgram : option string;
  Rcv_Address : string
}.

(** receivers.go, lines 34-37. *)
Record fundingResp := {
  MainchainAddress : string;
  FR_ClaimScript : string
}.

Section Endpoints.

Variable W : Type.
Variable Action : Type.
Variable SignFn : Type.
Variable Error_text : error -> string.
Variable DecodeControlAddressAction : string -> error + Action.
Variable DecodeControlProgramAction : string -> error + Action.
Variable DecodeRetireAction : string -> error + Action.
Variable MergeSpendAction : list Action -> list Action.
Variable json_Marshal : gmap string Value -> error + string.
Variable time_Now : W -> Z.
Variable Build :
  option Tx -> list Action -> Z -> Z -> W -> (option Template * option error) * W.
Variable FinalizeTx : Tx -> W -> (option error * Tx) * W.
Variable MarshalText : Tx -> error + string.
Variable IsP2WPKHScript : string -> bool.
Variable IsP2WSHScript : string -> bool.
Variable StorageGasRate : Z.
Variable VMGasRate : Z.

(** Two more calls on the account manager of the wallet: the lookup of an
    account by its alias, which reads the wallet, and the creation of a
    peg-in address, which answers the mainchain address and the claim
    script. *)
Variable FindByAlias : string -> W -> error + Account.
Variable CreatePeginAddress : string -> bool -> W -> (error + string * string) * W.

(** transact.go, lines 127-137.  The sub-context of line 129 carries a fresh
    request identifier and nothing the builder reads. *)
Definition build (a : API W Action SignFn) (buildReqs : BuildRequest)
  : M W Action (Reply Template) :=
  fun s =>
    match buildSingle W Action SignFn Error_text DecodeControlAddressAction
            DecodeControlProgramAction DecodeRetireAction MergeSpendAction json_Marshal
            time_Now Build a buildReqs s with
    | (Ok tmpl, s') => (Ok (SuccessReply tmpl), s')
    | (Err err, s') => (Ok (ErrorReply err), s')
    | (Panic f, s') => (Panic f, s')
    end.

(** transact.go, lines 143-153. *)
Definition submit (tx : Tx) : M W Action Response :=
  fun s =>
    let '(err, tx', w') := FinalizeTx tx (world s) in
    let s' := {| heap := heap s; world := w'; trace := trace s ++ [EvFinalizeTx tx] |} in
    match err with
    | Some e => (Ok (ErrorResponse e), s')
    | None => (Ok (SuccessResponse {| TxID := ID tx' |}), s')
    end.

(** transact.go, lines 258-267. *)
Definition estimateTxGas (TxTemplate : Template) : res (Reply EstimateTxGasResp) :=
  match EstimateTxGas MarshalText IsP2WPKHScript IsP2WSHScript StorageGasRate VMGasRate
          TxTemplate with
  | Ok txGasResp => Ok (SuccessReply txGasResp)
  | Err err => Ok (ErrorReply err)
  | Panic f => Panic f
  end.

(** receivers.go, lines 9-32. *)
Definition createAccountReceiver (a : API W Action SignFn) (ins : AccountRequest)
  : M W Action (Reply Receiver) :=
  fun s =>
    let resolved :=
      if negb (String.eqb (Req_AccountAlias ins) "") then
        match FindByAlias (Req_AccountAlias ins) (world s) with
        | inl err => inl err
        | inr account => inr (Acc_ID account)
        end
      else inr (Req_AccountID ins) in
    match resolved with
    | inl err => (Ok (ErrorReply err), s)
    | inr accountID =>
        let '(program, w') := CreateAddress a accountID false (world s) in
        let s' := {| heap := heap s; world := w'; trace := trace s |} in
        match program with
        | inl err => (Ok (ErrorReply err), s')
        | inr program =>
            (Ok (SuccessReply {| Rcv_ControlProgram := CP_ControlProgram program;
                                 Rcv_Address := Address program |}), s')
        end
    end.

(** receivers.go, lines 39-63. *)
Definition getPeginAddress (a : API W Action SignFn) (ins : AccountRequest)
  : M W Action (Reply fundingResp) :=
  fun s =>
    let resolved :=
      if negb (String.eqb (Req_AccountAlias ins) "") then
        match FindByAlias (Req_AccountAlias ins) (world s) with
        | inl err => inl err
        | inr account => inr (Acc_ID account)
        end
      else inr (Req_AccountID ins) in
    match resolved with
    | inl err => (Ok (ErrorReply err), s)
    | inr accountID =>
        let '(created, w') := CreatePeginAddress accountID false (world s) in
        let s' := {| heap := heap s; world := w'; trace := trace s |} in
        match created with
        | inl err => (Ok (ErrorReply err), s')
        | inr (mainchainAddress, claimScript) =>
            (Ok (SuccessReply {| MainchainAddress := mainchainAddress;
                                 FR_ClaimScript := claimScript |}), s')
        end
    end.

End Endpoints.

(* ===================================================================== *)
(** * Sample collaborators, for concrete runs *)
(* ===================================================================== *)

Module Sample.

(** A stand-in for the text encoding of the transaction data: the decimal
    digits of the identifier. *)
Definition MarshalText (tx : Tx) : error + string := inr (pretty (ID tx)).

(** Stand-ins for the two script patterns: a witness program of 22 bytes
    (version and a 20-byte hash) or of 34 bytes (version and a 32-byte
    hash). *)
Definition IsP2WPKHScript (code : string) : bool := (String.length code =? 22)%nat.
Definition IsP2WSHScript (code : string) : bool := (String.length code =? 34)%nat.

(** Sample values of the two rates. *)
Definition StorageGasRate : Z := 1.
Definition VMGasRate : Z := 200.

Definition EstimateTxGas : Template -> res EstimateTxGasResp :=
  EstimateTxGas MarshalText IsP2WPKHScript IsP2WSHScript StorageGasRate VMGasRate.

Definition estimateGasTotals : Template -> res GasTotals :=
  estimateGasTotals MarshalText IsP2WPKHScript IsP2WSHScript StorageGasRate.

(** A transaction with no input and no output, identifier [id]. *)
Definition emptyTx (id : Hash) : Tx :=
  {| ID := id; Inputs := []; Outputs := []; InputIDs := []; Entries := ∅ |}.

Definition p2wpkhCode : string := "0123456789012345678901".
Definition p2wshCode : string := "0123456789012345678901234567890123".

(** A transaction with one input (identifier 1) spending the output 2,
    which is controlled by [code]. *)
Definition spendingTx (id : Hash) (code : string) : Tx :=
  {| ID := id; Inputs := [{| Peginwitness := []; IsPegin := false |}];
     Outputs := [];
     InputIDs := [1%N];
     Entries := <[1%N := SpendEntry 2%N]> (<[2%N := OutputEntry code]> ∅) |}.

(** One P2WSH input and its instruction: three keys, quorum two. *)
Definition tplP2WSH : Template :=
  {| Transaction := spendingTx 7%N p2wshCode;
     SigningInstructions :=
       [ {| Position := 0;
            WitnessComponents := [SignatureWitness 2 ["k1"; "k2"; "k3"]%string] |} ] |}.

(** The same input, and no instruction at all. *)
Definition tplNoInstructions : Template :=
  {| Transaction := spendingTx 7%N p2wshCode; SigningInstructions := [] |}.

(** No input, one witness component of quorum [q]. *)
Definition tplQuorum (q : Z) : Template :=
  {| Transaction := emptyTx 7%N;
     SigningInstructions :=
       [ {| Position := 0; WitnessComponents := [SignatureWitness q []] |} ] |}.

(** ** A wallet service that never fails

    The decoded action is the tag of its map; the external builder returns
    a template of one input whatever it is given; signing and finalizing
    succeed; the contract store answers every key with the account
    ["acct"]. *)

Definition Error_text (e : error) : string := Detail e.
Definition Decode (b : string) : error + string := inr b.
Definition MergeSpendAction (actions : list string) : list string := actions.
Definition json_Marshal (act : gmap string Value) : error + string :=
  inr (default ""%string (typeTag act)).
Definition time_Now (w : unit) : Z := 0.

Definition builtTemplate : Template :=
  {| Transaction := spendingTx 99%N p2wpkhCode; SigningInstructions := [] |}.

Definition Build (tx : option Tx) (actions : list string) (maxTime timeRange : Z)
           (w : unit) : option Template * option error * unit :=
  (Some builtTemplate, None, w).
Definition Sign (tmpl : Template) (password : string) (f : unit) (w : unit)
  : option error * unit := (None, w).
Definition FinalizeTx (tx : Tx) (w : unit) : option error * Tx * unit := (None, tx, w).
Definition Sum256 (s : string) : string := s.
Definition ContractKey (s : string) : string := s.
Definition json_Unmarshal_CtrlProgram (data : string) : error + CtrlProgram :=
  inr {| AccountID := "acct"; Address := "addr0"; CP_ControlProgram := Some data |}.
Definition json_Marshal_Tx (tx : Tx) : option string := Some (pretty (ID tx)).
Definition ParentGenesisBlockHash : string := "genesis".

(** The peg control program of a control program: the text ["peg:"] in
    front of it; none for the empty program. *)
Definition pegProgram (cp : option string) : string * option string :=
  match cp with
  | Some (String c rest) => ("pegaddr"%string, Some ("peg:" ++ String c rest)%string)
  | _ => (""%string, None)
  end.

(** The receiver: alias resolution answers [aliasError] (nil when [None])
    and the wallet knows the control programs [cps]. *)
Definition api (aliasError : option error) (cps : list CtrlProgram) : API unit string unit :=
  {| completeMissingIDs := fun _ h w => (aliasError, h, w);
     DecodeIssueAction := Decode;
     DecodeSpendAction := Decode;
     DecodeSpendUTXOAction := Decode;
     ListControlProgram := fun _ => inr cps;
     GetPeginControlPrograms := pegProgram;
     CreateAddress := fun accountID _ w =>
       (inr {| AccountID := accountID; Address := "addr1"; CP_ControlProgram := None |}, w);
     DB_Get := fun key _ => Some key;
     PseudohsmSignTemplate := tt |}.

Definition claimPeginTx (a : API unit string unit) (ins : ClaimRequest)
  : M unit string Response :=
  claimPeginTx unit string unit Error_text Decode Decode Decode MergeSpendAction
    json_Marshal time_Now Build Sign FinalizeTx Sum256 ContractKey
    json_Unmarshal_CtrlProgram json_Marshal_Tx ParentGenesisBlockHash a ins.

Definition buildSingle (a : API unit string unit) (req : BuildRequest)
  : M unit string Template :=
  buildSingle unit string unit Error_text Decode Decode Decode MergeSpendAction
    json_Marshal time_Now Build a req.

Definition initial : St unit string := {| heap := ∅; world := tt; trace := [] |}.

(** A parent transaction of three outputs. *)
Definition parentTx : Tx :=
  {| ID := 42%N; Inputs := [];
     Outputs := [ {| Amount := 5; ControlProgram := Some "other"%string |};
                  {| Amount := 7; ControlProgram := Some "peg:A"%string |};
                  {| Amount := 9; ControlProgram := Some "peg:B"%string |} ];
     InputIDs := []; Entries := ∅ |}.

Definition program (code : string) : CtrlProgram :=
  {| AccountID := "acct"; Address := "addr0"; CP_ControlProgram := Some code |}.

Definition claimRequest (script : string) : ClaimRequest :=
  {| Password := "pw"; RawTx := parentTx; TxOutProof := "proof"; ClaimScript := script |}.

(** The one map the claim leaves in the three actions of its request, for
    the claimed amount [v] and the new address ["addr1"]. *)
Definition claimAction (v : Z) : gmap string Value :=
  <["address" := VString "addr1"]>
    (<["amount" := VUint64 v]>
       (<["asset_id" :=
            VString "ffffffffffffffffffffffffffffffffffffffffffffffffffffffffffffffff"]>
          (<["type" := VString "control_address"]> ∅))).

(** ** Collaborators that fail, and the endpoints *)

Definition sampleError : error := errors_New "sample failure".

Definition DecodeFail (b : string) : error + string :=
  inl {| Root := ErrNew "decode"; Detail := "bad payload"; DataActions := None |}.

(** A builder that reports a per-action aggregate of two inner errors. *)
Definition actionErrors : error :=
  {| Root := ErrAction; Detail := "";
     DataActions := Some [ (ErrNew "insufficient funds", "no funds; "%string);
                           (ErrNew "reserved", "utxo reserved"%string) ] |}.

Definition BuildFail (tx : option Tx) (actions : list string) (maxTime timeRange : Z)
           (w : unit) : option Template * option error * unit :=
  (None, Some actionErrors, w).

Definition SignFail (tmpl : Template) (password : string) (f : unit) (w : unit)
  : option error * unit := (Some sampleError, w).

(** The wallet knows one alias, ["alice"], of the account ["acct-alice"]. *)
Definition FindByAlias (alias : string) (w : unit) : error + Account :=
  if String.eqb alias "alice" then inr {| Acc_ID := "acct-alice" |}
  else inl (errors_New "alias not found").

Definition CreatePeginAddress (accountID : string) (change : bool) (w : unit)
  : (error + string * string) * unit :=
  (inr (("main:" ++ accountID)%string, ("script:" ++ accountID)%string), w).

(** A wallet service whose contract store is empty. *)
Definition apiNoContract (cps : list CtrlProgram) : API unit string unit :=
  {| completeMissingIDs := fun _ h w => (None, h, w);
     DecodeIssueAction := Decode;
     DecodeSpendAction := Decode;
     DecodeSpendUTXOAction := Decode;
     ListControlProgram := fun _ => inr cps;
     GetPeginControlPrograms := pegProgram;
     CreateAddress := fun accountID _ w =>
       (inr {| AccountID := accountID; Address := "addr1"; CP_ControlProgram := None |}, w);
     DB_Get := fun _ _ => None;
     PseudohsmSignTemplate := tt |}.

Definition build (a : API unit string unit) (req : BuildRequest)
  : M unit string (Reply Template) :=
  build unit string unit Error_text Decode Decode Decode MergeSpendAction
    json_Marshal time_Now Build a req.

Definition submit (tx : Tx) : M unit string Response :=
  submit unit string FinalizeTx tx.

Definition estimateTxGas : Template -> res (Reply EstimateTxGasResp) :=
  estimateTxGas MarshalText IsP2WPKHScript IsP2WSHScript StorageGasRate VMGasRate.

Definition createAccountReceiver (a : API unit string unit) (ins : AccountRequest)
  : M unit string (Reply Receiver) :=
  createAccountReceiver unit string unit FindByAlias a ins.

Definition getPeginAddress (a : API unit string unit) (ins : AccountRequest)
  : M unit string (Reply fundingResp) :=
  getPeginAddress unit string unit FindByAlias CreatePeginAddress a ins.

(** A heap of four action maps, tagged as said, and requests over it. *)
Definition tagged (tag : string) : gmap string Value := {[ "type"%string := VString tag ]}.

Definition actionHeap : gmap loc (gmap string Value) :=
  {[ 0%N := tagged "spend_account"; 1%N := tagged "control_address";
     2%N := tagged "mint"; 3%N := {[ "amount"%string := VInt 1 ]} ]}.

Definition onHeap : St unit string := {| heap := actionHeap; world := tt; trace := [] |}.

Definition request (acts : list loc) (ttl : Z) : BuildRequest :=
  {| BuildTx := None; Actions := acts; TTL := ttl; TimeRange := 0 |}.

(** Two P2WPKH inputs (1 and 3) and a P2WSH input (5) at position 2, with
    one instruction only at the position of the P2WSH input. *)
Definition mixedTx : Tx :=
  {| ID := 7%N; Inputs := []; Outputs := [];
     InputIDs := [1%N; 3%N; 5%N];
     Entries :=
       <[1%N := SpendEntry 2%N]> (<[2%N := OutputEntry p2wpkhCode]>
       (<[3%N := SpendEntry 4%N]> (<[4%N := OutputEntry p2wpkhCode]>
       (<[5%N := SpendEntry 6%N]> (<[6%N := OutputEntry p2wshCode]> ∅))))) |}.

Definition tplMixed : Template :=
  {| Transaction := mixedTx;
     SigningInstructions :=
       [ {| Position := 0; WitnessComponents := [] |};
         {| Position := 1; WitnessComponents := [] |};
         {| Position := 2;
            WitnessComponents := [SignatureWitness 2 ["k1"; "k2"; "k3"]%string] |} ] |}.

(** One P2WPKH input and no instruction. *)
Definition tplP2WPKH : Template :=
  {| Transaction := spendingTx 7%N p2wpkhCode; SigningInstructions := [] |}.

(** One P2WPKH input, and one instruction with a component of each
    multi-signature kind: quorums 1 and 2. *)
Definition tplPaid : Template :=
  {| Transaction := spendingTx 7%N p2wpkhCode;
     SigningInstructions :=
       [ {| Position := 0;
            WitnessComponents := [ SignatureWitness 1 ["k1"]%string;
                                   RawTxSigWitness 2 ["k1"; "k2"]%string ] |} ] |}.

End Sample.

(* ===================================================================== *)
(** * Facts on 64-bit integers *)
(* ===================================================================== *)

Module Int64Facts.

Import Int64.

Lemma in_rangeb_spec z : in_rangeb z = true <-> in_range z.
Proof. unfold in_rangeb, in_range. rewrite andb_true_iff. lia. Qed.

Lemma wrap_in_range z : in_range (wrap z).
Proof.
  unfold in_range, wrap, min_int, max_int.
  pose proof (Z.mod_pos_bound (z + 2 ^ 63) (2 ^ 64)). lia.
Qed.

Lemma wrap_small z : in_range z -> wrap z = z.
Proof.
  unfold in_range, wrap, min_int, max_int. intros H.
  rewrite Z.mod_small by lia. lia.
Qed.

Lemma wrap_mod z : wrap z mod 2 ^ 64 = z mod 2 ^ 64.
Proof.
  unfold wrap.
  rewrite Zminus_mod, Zmod_mod, <- Zminus_mod.
  f_equal. lia.
Qed.

Lemma wrap_congr a b : a mod 2 ^ 64 = b mod 2 ^ 64 -> wrap a = wrap b.
Proof.
  intros H. unfold wrap.
  rewrite (Zplus_mod a), (Zplus_mod b), H. reflexivity.
Qed.

Lemma wrap_add_l a b : wrap (wrap a + b) = wrap (a + b).
Proof. apply wrap_congr. rewrite Zplus_mod, wrap_mod, <- Zplus_mod. reflexivity. Qed.

Lemma wrap_add_r a b : wrap (a + wrap b) = wrap (a + b).
Proof. rewrite Z.add_comm, wrap_add_l, Z.add_comm. reflexivity. Qed.

Lemma wrap_sub_l a b : wrap (wrap a - b) = wrap (a - b).
Proof. apply wrap_congr. rewrite Zminus_mod, wrap_mod, <- Zminus_mod. reflexivity. Qed.

Lemma wrap_sub_r a b : wrap (a - wrap b) = wrap (a - b).
Proof. apply wrap_congr. rewrite Zminus_mod, wrap_mod, <- Zminus_mod. reflexivity. Qed.

Lemma wrap_mul_l a b : wrap (wrap a * b) = wrap (a * b).
Proof. apply wrap_congr. rewrite Zmult_mod, wrap_mod, <- Zmult_mod. reflexivity. Qed.

Lemma wrap_mul_r a b : wrap (a * wrap b) = wrap (a * b).
Proof. rewrite Z.mul_comm, wrap_mul_l, Z.mul_comm. reflexivity. Qed.

Lemma wrap_wrap a : wrap (wrap a) = wrap a.
Proof. apply wrap_small, wrap_in_range. Qed.

Lemma MulInt64_true a b p :
  MulInt64 a b = (p, true) -> p = a * b /\ in_range (a * b).
Proof.
  unfold MulInt64. destruct (in_rangeb (a * b)) eqn:E; [|discriminate].
  intros [= <-]. split; [reflexivity|]. now apply in_rangeb_spec.
Qed.

End Int64Facts.

(** Proves the equality of two 64-bit expressions that agree as integer
    expressions once the inner wrap-arounds are dropped. *)
Ltac unwrap :=
  unfold Int64.add, Int64.sub, Int64.mul;
  rewrite ?Int64Facts.wrap_wrap;
  apply Int64Facts.wrap_congr;
  repeat (Z.push_mod; rewrite ?Zmod_mod; progress rewrite ?Int64Facts.wrap_mod);
  rewrite ?Zmod_mod; Z.pull_mod;
  solve [repeat (ring || f_equal)].

(* ===================================================================== *)
(** * The witness formulas of the estimator *)
(* ===================================================================== *)

Lemma sumZ_cons x l : sumZ (x :: l) = x + sumZ l.
Proof. reflexivity. Qed.

Lemma sumZ_app l1 l2 : sumZ (l1 ++ l2) = sumZ l1 + sumZ l2.
Proof. induction l1 as [|x l1 IH]; simpl; [reflexivity | rewrite IH; ring]. Qed.

Lemma witnessP2WSHGas_exact w acc :
  witnessP2WSHGas w acc = Int64.wrap (acc + p2wshGasOf w) \/
  (w = OtherWitness /\ witnessP2WSHGas w acc = acc).
Proof.
  destruct w as [q keys|q keys|]; unfold witnessP2WSHGas, p2wshGasOf;
    [left|left|right; split; reflexivity]; unwrap.
Qed.

Lemma fold_witnessP2WSHGas ws : forall acc,
  Int64.wrap (fold_left (fun g w => witnessP2WSHGas w g) ws acc)
  = Int64.wrap (acc + sumZ (p2wshGasOf <$> ws)).
Proof.
  induction ws as [|w ws IH]; intros acc.
  - simpl. apply (f_equal Int64.wrap). ring.
  - change (fold_left (fun g w => witnessP2WSHGas w g) (w :: ws) acc)
      with (fold_left (fun g w => witnessP2WSHGas w g) ws (witnessP2WSHGas w acc)).
    rewrite IH, fmap_cons, sumZ_cons.
    destruct (witnessP2WSHGas_exact w acc) as [-> | [-> ->]].
    + rewrite Int64Facts.wrap_add_l. apply (f_equal Int64.wrap). ring.
    + apply (f_equal Int64.wrap). cbn [p2wshGasOf]. ring.
Qed.

Lemma witnessP2WSHGas_range w acc :
  Int64.in_range acc -> Int64.in_range (witnessP2WSHGas w acc).
Proof.
  destruct w; simpl; intros H; try apply Int64Facts.wrap_in_range; exact H.
Qed.

Lemma fold_witnessP2WSHGas_range ws : forall acc,
  Int64.in_range acc ->
  Int64.in_range (fold_left (fun g w => witnessP2WSHGas w g) ws acc).
Proof.
  induction ws as [|w ws IH]; intros acc H; simpl; [exact H|].
  apply IH, witnessP2WSHGas_range, H.
Qed.

(** [estimateP2WSHGas] is the 64-bit sum of the figures of the components. *)
Lemma estimateP2WSHGas_sum sigInst :
  estimateP2WSHGas sigInst
  = Int64.wrap (sumZ (p2wshGasOf <$> WitnessComponents sigInst)).
Proof.
  unfold estimateP2WSHGas.
  rewrite <- (Int64Facts.wrap_small (fold_left _ _ _)).
  - rewrite fold_witnessP2WSHGas. f_equal.
  - apply fold_witnessP2WSHGas_range. unfold Int64.in_range, Int64.min_int, Int64.max_int. lia.
Qed.

Lemma estimateP2WSHGas_exact sigInst :
  Int64.in_range (sumZ (p2wshGasOf <$> WitnessComponents sigInst)) ->
  estimateP2WSHGas sigInst = sumZ (p2wshGasOf <$> WitnessComponents sigInst).
Proof. intros H. rewrite estimateP2WSHGas_sum. now apply Int64Facts.wrap_small. Qed.

Lemma estimateP2WSHGas_insert pos pre post w :
  estimateP2WSHGas {| Position := pos; WitnessComponents := pre ++ w :: post |}
  = Int64.wrap (estimateP2WSHGas {| Position := pos; WitnessComponents := pre ++ post |}
                + p2wshGasOf w).
Proof.
  rewrite !estimateP2WSHGas_sum. cbn [WitnessComponents].
  rewrite Int64Facts.wrap_add_l, !fmap_app, fmap_cons, !sumZ_app, sumZ_cons.
  apply (f_equal Int64.wrap). ring.
Qed.

(** ** Sign size *)

Lemma witnessSignSize_exact w acc :
  Int64.wrap (witnessSignSize w acc) = Int64.wrap (acc + signSizeOf w).
Proof.
  destruct w as [q keys|q keys|]; unfold witnessSignSize, signSizeOf.
  - unwrap.
  - unwrap.
  - apply (f_equal Int64.wrap). ring.
Qed.

Lemma witnessSignSize_range w acc :
  Int64.in_range acc -> Int64.in_range (witnessSignSize w acc).
Proof.
  destruct w; simpl; intros H; try apply Int64Facts.wrap_in_range; exact H.
Qed.

Lemma fold_witnessSignSize ws : forall acc,
  Int64.wrap (fold_left (fun s w => witnessSignSize w s) ws acc)
  = Int64.wrap (acc + sumZ (signSizeOf <$> ws)).
Proof.
  induction ws as [|w ws IH]; intros acc.
  - simpl. apply (f_equal Int64.wrap). ring.
  - change (fold_left (fun s w => witnessSignSize w s) (w :: ws) acc)
      with (fold_left (fun s w => witnessSignSize w s) ws (witnessSignSize w acc)).
    rewrite IH, fmap_cons, sumZ_cons.
    rewrite <- Int64Facts.wrap_add_l, witnessSignSize_exact, Int64Facts.wrap_add_l.
    apply (f_equal Int64.wrap). ring.
Qed.

Lemma fold_witnessSignSize_range ws : forall acc,
  Int64.in_range acc ->
  Int64.in_range (fold_left (fun s w => witnessSignSize w s) ws acc).
Proof.
  induction ws as [|w ws IH]; intros acc H; simpl; [exact H|].
  apply IH, witnessSignSize_range, H.
Qed.

Lemma fold_instructions sis : forall acc,
  Int64.in_range acc ->
  let r := fold_left
             (fun signSize sigInst =>
                fold_left (fun signSize witness => witnessSignSize witness signSize)
                          (WitnessComponents sigInst) signSize) sis acc in
  Int64.in_range r /\ Int64.wrap r = Int64.wrap (acc + signSizeTotal sis).
Proof.
  induction sis as [|si sis IH]; intros acc H.
  - simpl. split; [exact H|]. apply (f_equal Int64.wrap). unfold signSizeTotal. simpl. ring.
  - cbn [fold_left] in *.
    destruct (IH _ (fold_witnessSignSize_range (WitnessComponents si) acc H)) as [Hr He].
    split; [exact Hr|].
    rewrite He, <- Int64Facts.wrap_add_l, fold_witnessSignSize, Int64Facts.wrap_add_l.
    apply (f_equal Int64.wrap). unfold signSizeTotal. rewrite fmap_cons, sumZ_cons. ring.
Qed.

Lemma zero_in_range : Int64.in_range 0.
Proof. unfold Int64.in_range, Int64.min_int, Int64.max_int. lia. Qed.

(** [estimateSignSize] is the 64-bit sum of quorum x 300 over every
    component of every instruction. *)
Lemma estimateSignSize_sum sis :
  estimateSignSize sis = Int64.wrap (signSizeTotal sis).
Proof.
  unfold estimateSignSize.
  destruct (fold_instructions sis 0 zero_in_range) as [Hr He].
  rewrite <- (Int64Facts.wrap_small _ Hr), He. reflexivity.
Qed.

(** ** Doubling the quorums *)

Lemma signSizeOf_double w : signSizeOf (doubleQuorum w) = 2 * signSizeOf w.
Proof. destruct w; simpl; ring. Qed.

Lemma sumZ_double (l : list WitnessComponent) :
  sumZ (signSizeOf <$> (doubleQuorum <$> l)) = 2 * sumZ (signSizeOf <$> l).
Proof.
  induction l as [|w l IH]; [reflexivity|].
  rewrite !fmap_cons, !sumZ_cons, IH, signSizeOf_double. ring.
Qed.

Lemma signSizeTotal_double sis :
  signSizeTotal (doubleQuorumsOf <$> sis) = 2 * signSizeTotal sis.
Proof.
  unfold signSizeTotal.
  induction sis as [|si sis IH]; [reflexivity|].
  rewrite !fmap_cons, !sumZ_cons, IH. cbn [doubleQuorumsOf WitnessComponents].
  rewrite sumZ_double. ring.
Qed.

Lemma estimateSignSize_double sis :
  estimateSignSize (doubleQuorumsOf <$> sis) = Int64.wrap (2 * estimateSignSize sis).
Proof.
  rewrite !estimateSignSize_sum, signSizeTotal_double, Int64Facts.wrap_mul_r.
  reflexivity.
Qed.

(** The sign size counts 300 for every signature asked for. *)
Lemma signSizeOf_quorum w : signSizeOf w = 300 * quorumOf w.
Proof. destruct w; simpl; ring. Qed.

Lemma sumZ_signSizeOf ws : sumZ (signSizeOf <$> ws) = 300 * sumZ (quorumOf <$> ws).
Proof.
  induction ws as [|w ws IH]; [reflexivity|].
  rewrite !fmap_cons, !sumZ_cons, IH, signSizeOf_quorum. ring.
Qed.

Lemma signSizeTotal_quorum sis : signSizeTotal sis = 300 * totalQuorum sis.
Proof.
  unfold signSizeTotal, totalQuorum.
  induction sis as [|si sis IH]; [reflexivity|].
  rewrite !fmap_cons, !sumZ_cons, IH, sumZ_signSizeOf. ring.
Qed.

(* ===================================================================== *)
(** * The loop over the inputs *)
(* ===================================================================== *)

Section EstimatorFacts.

Variable MarshalText : Tx -> error + string.
Variable IsP2WPKHScript : string -> bool.
Variable IsP2WSHScript : string -> bool.
Variable StorageGasRate : Z.
Variable VMGasRate : Z.

Local Abbreviation spendsP2WSH' := (spendsP2WSH IsP2WPKHScript IsP2WSHScript).
Local Abbreviation spendsP2WPKH' := (spendsP2WPKH IsP2WPKHScript).
Local Abbreviation inputGas' := (inputGas IsP2WPKHScript IsP2WSHScript).
Local Abbreviation vmGasLoop' := (vmGasLoop IsP2WPKHScript IsP2WSHScript).
Local Abbreviation estimateGasTotals' :=
  (estimateGasTotals MarshalText IsP2WPKHScript IsP2WSHScript StorageGasRate).
Local Abbreviation EstimateTxGas' :=
  (EstimateTxGas MarshalText IsP2WPKHScript IsP2WSHScript StorageGasRate VMGasRate).

Lemma inputGas_P2WSH T pos inpID acc :
  spendsP2WSH' T inpID = true ->
  inputGas' T pos inpID acc =
    match SigningInstructions T !! pos with
    | None => Panic IndexOutOfRange
    | Some sigInst => Ok (fst acc, Int64.add (snd acc) (estimateP2WSHGas sigInst))
    end.
Proof.
  unfold spendsP2WSH, inputGas.
  destruct (Spend _ _) as [o|]; [|discriminate].
  destruct (Output _ _) as [code|]; [|discriminate].
  destruct (IsP2WPKHScript code); [discriminate|].
  simpl. intros ->. reflexivity.
Qed.

Lemma inputGas_other T pos inpID acc :
  spendsP2WSH' T inpID = false ->
  inputGas' T pos inpID acc =
    Ok (if spendsP2WPKH' T inpID then Int64.add (fst acc) 1419 else fst acc, snd acc).
Proof.
  unfold spendsP2WSH, spendsP2WPKH, inputGas.
  destruct acc as [x y]; simpl.
  destruct (Spend _ _) as [o|]; [|reflexivity].
  destruct (Output _ _) as [code|]; [|reflexivity].
  destruct (IsP2WPKHScript code); [reflexivity|].
  simpl. intros ->. reflexivity.
Qed.

(** The only way the loop stops early is the index fault. *)
Lemma vmGasLoop_outcome T ids : forall pos acc,
  (exists r, vmGasLoop' T pos ids acc = Ok r) \/
  vmGasLoop' T pos ids acc = Panic IndexOutOfRange.
Proof.
  induction ids as [|inpID ids IH]; intros pos acc; simpl; [left; eauto|].
  destruct (spendsP2WSH' T inpID) eqn:E.
  - rewrite (inputGas_P2WSH _ _ _ _ E).
    destruct (SigningInstructions T !! pos); [apply IH | right; reflexivity].
  - rewrite (inputGas_other _ _ _ _ E). apply IH.
Qed.

Lemma vmGasLoop_fault T ids : forall pos acc i inpID,
  ids !! i = Some inpID ->
  spendsP2WSH' T inpID = true ->
  (length (SigningInstructions T) <= pos + i)%nat ->
  vmGasLoop' T pos ids acc = Panic IndexOutOfRange.
Proof.
  induction ids as [|x ids IH]; intros pos acc i inpID Hi Hs Hlen; [discriminate|].
  simpl. destruct i as [|i]; simpl in Hi.
  - injection Hi as ->. rewrite (inputGas_P2WSH _ _ _ _ Hs).
    rewrite (proj2 (lookup_ge_None (SigningInstructions T) pos)) by lia.
    reflexivity.
  - destruct (spendsP2WSH' T x) eqn:E.
    + rewrite (inputGas_P2WSH _ _ _ _ E).
      destruct (SigningInstructions T !! pos); [|reflexivity].
      apply (IH (S pos) _ i inpID Hi Hs). lia.
    + rewrite (inputGas_other _ _ _ _ E).
      apply (IH (S pos) _ i inpID Hi Hs). lia.
Qed.

Lemma vmGasLoop_total T ids : forall pos acc,
  (forall i inpID, ids !! i = Some inpID -> spendsP2WSH' T inpID = true ->
                   (pos + i < length (SigningInstructions T))%nat) ->
  exists r, vmGasLoop' T pos ids acc = Ok r.
Proof.
  induction ids as [|x ids IH]; intros pos acc H; simpl; [eauto|].
  assert (Hrest : forall i inpID, ids !! i = Some inpID -> spendsP2WSH' T inpID = true ->
                    (S pos + i < length (SigningInstructions T))%nat).
  { intros i inpID Hi Hs. specialize (H (S i) inpID Hi Hs). lia. }
  destruct (spendsP2WSH' T x) eqn:E.
  - rewrite (inputGas_P2WSH _ _ _ _ E).
    specialize (H 0%nat x eq_refl E).
    destruct (lookup_lt_is_Some_2 (SigningInstructions T) pos) as [si ->]; [lia|].
    apply IH, Hrest.
  - rewrite (inputGas_other _ _ _ _ E). apply IH, Hrest.
Qed.

(** The P2WPKH total does not look at the signing instructions. *)
Lemma vmGasLoop_P2WPKH T T' ids : forall pos acc acc' r r',
  Transaction T' = Transaction T ->
  fst acc' = fst acc ->
  vmGasLoop' T pos ids acc = Ok r ->
  vmGasLoop' T' pos ids acc' = Ok r' ->
  fst r' = fst r.
Proof.
  induction ids as [|x ids IH]; intros pos acc acc' r r' HT Hacc; simpl.
  - intros [= <-] [= <-]. exact Hacc.
  - assert (Hs : spendsP2WSH' T' x = spendsP2WSH' T x) by (unfold spendsP2WSH; now rewrite HT).
    assert (Hp : spendsP2WPKH' T' x = spendsP2WPKH' T x) by (unfold spendsP2WPKH; now rewrite HT).
    destruct (spendsP2WSH' T x) eqn:E.
    + rewrite (inputGas_P2WSH T _ _ _ E), (inputGas_P2WSH T' _ _ _ Hs).
      destruct (SigningInstructions T !! pos); [|discriminate].
      destruct (SigningInstructions T' !! pos); [|discriminate].
      apply IH; [exact HT | exact Hacc].
    + rewrite (inputGas_other T _ _ _ E), (inputGas_other T' _ _ _ Hs), Hp.
      apply IH; [exact HT | simpl; now rewrite Hacc].
Qed.

(** How [estimateGasTotals'] comes to a result. *)
Lemma estimateGasTotals_Ok T g :
  estimateGasTotals' T = Ok g ->
  exists data,
    MarshalText (Transaction T) = inr data /\
    let size := Int64.add (Z.of_nat (String.length data))
                          (estimateSignSize (SigningInstructions T)) in
    totalTxSizeGas g = size * StorageGasRate /\
    Int64.in_range (size * StorageGasRate) /\
    vmGasLoop' T 0 (InputIDs (Transaction T)) (0, 0)
      = Ok (totalP2WPKHGas g, totalP2WSHGas g).
Proof.
  unfold estimateGasTotals.
  destruct (MarshalText (Transaction T)) as [e|data]; [discriminate|].
  destruct (MulInt64 _ _) as [p [|]] eqn:Hm; [|discriminate].
  apply Int64Facts.MulInt64_true in Hm as [-> Hr].
  destruct (vmGasLoop' _ _ _ _) as [[x y]| |] eqn:Hl; try discriminate.
  intros [= <-]. exists data. simpl. auto.
Qed.

End EstimatorFacts.

(* ===================================================================== *)
(** * Facts on the 64-bit floating point operations *)
(* ===================================================================== *)

(** The number of binary digits of a positive number. *)
Lemma digits_bounds p :
  2 ^ (Zpos (digits2_pos p) - 1) <= Zpos p < 2 ^ Zpos (digits2_pos p).
Proof.
  induction p as [p IH|p IH|]; cbn [digits2_pos].
  - rewrite Pos2Z.inj_succ. replace (Z.succ (Zpos (digits2_pos p)) - 1) with (Z.succ (Zpos (digits2_pos p) - 1)) by lia.
    rewrite !Z.pow_succ_r by lia. lia.
  - rewrite Pos2Z.inj_succ. replace (Z.succ (Zpos (digits2_pos p)) - 1) with (Z.succ (Zpos (digits2_pos p) - 1)) by lia.
    rewrite !Z.pow_succ_r by lia. lia.
  - simpl. lia.
Qed.

Lemma digits_unique p n :
  2 ^ (n - 1) <= Zpos p < 2 ^ n -> 1 <= n -> Zpos (digits2_pos p) = n.
Proof.
  intros [Hl Hu] Hn. pose proof (digits_bounds p) as [Dl Du].
  destruct (Z.lt_trichotomy (Zpos (digits2_pos p)) n) as [H|[H|H]]; [|exact H|].
  - assert (2 ^ Zpos (digits2_pos p) <= 2 ^ (n - 1)) by (apply Z.pow_le_mono_r; lia). lia.
  - assert (2 ^ n <= 2 ^ (Zpos (digits2_pos p) - 1)) by (apply Z.pow_le_mono_r; lia). lia.
Qed.

(** Appending [n] zero bits multiplies by [2^n]. *)
Lemma iter_xO p n : Zpos (Pos.iter xO p n) = Zpos p * 2 ^ Zpos n.
Proof.
  revert p. induction n using Pos.peano_ind; intros p.
  - simpl. lia.
  - rewrite Pos.iter_succ, Pos2Z.inj_succ, Z.pow_succ_r by lia.
    rewrite Pos2Z.inj_xO, IHn. ring.
Qed.

Lemma loc_roundtrip m loc :
  shr_m (shr_record_of_loc m loc) = m /\
  loc_of_shr_record (shr_record_of_loc m loc) = loc.
Proof. destruct loc as [|[]]; split; reflexivity. Qed.

Lemma fexp_digits d e :
  53 <= d -> -1074 <= e -> fexp 53 1024 (d + e) - e = d - 53.
Proof. intros. unfold fexp, emin. lia. Qed.

(** The second half of [binary_round_aux]: a mantissa of 53 bits is kept, the
    mantissa [2^53], which a rounding up can give, is shifted by one bit. *)
Lemma renormalize s p e1 :
  2 ^ 52 <= Zpos p <= 2 ^ 53 -> -1074 <= e1 <= 900 ->
  exists m' e'',
    (let '(mrs'', e'') := shr_fexp 53 1024 (Zpos p) e1 loc_Exact in
     match shr_m mrs'' with
     | Z0 => S754_zero s
     | Zpos m => if Z.leb e'' (1024 - 53) then S754_finite s m e'' else S754_infinity s
     | _ => S754_nan
     end) = S754_finite s m' e''
    /\ e1 <= e'' <= e1 + 1 /\ Zpos m' * 2 ^ (e'' - e1) = Zpos p
    /\ 2 ^ 52 <= Zpos m' < 2 ^ 53.
Proof.
  intros Hp He. unfold shr_fexp. cbn [Zdigits2].
  change (1024 - 53) with 971.
  destruct (Z.eq_dec (Zpos p) (2 ^ 53)) as [E|NE].
  - assert (p = 9007199254740992%positive) as -> by lia.
    exists 4503599627370496%positive, (e1 + 1).
    change (Zpos (digits2_pos 9007199254740992)) with 54.
    rewrite fexp_digits by lia.
    change (54 - 53) with 1. cbn.
    destruct (e1 + 1 <=? 971) eqn:L; [|lia].
    split; [reflexivity|]. split; [lia|].
    replace (e1 + 1 - e1) with 1 by lia. split; [reflexivity | lia].
  - assert (Hd : Zpos (digits2_pos p) = 53) by (apply digits_unique; simpl; lia).
    rewrite fexp_digits by lia. rewrite Hd.
    change (53 - 53) with 0. cbn.
    exists p, e1. destruct (e1 <=? 971) eqn:L; [|lia].
    split; [reflexivity|]. split; [lia|]. rewrite Z.sub_diag.
    split; [simpl; lia | lia].
Qed.

Lemma round_nearest_even_bounds m loc : m <= round_nearest_even m loc <= m + 1.
Proof. destruct loc as [|[]]; simpl; try lia. destruct (Z.even m); lia. Qed.

Lemma shr_1_m q loc :
  shr_m (shr_1 (shr_record_of_loc (Zpos q) loc)) = Zpos q / 2.
Proof.
  rewrite <- Z.div2_div. destruct loc as [|[]], q; reflexivity.
Qed.

Lemma digits_53_54 q :
  2 ^ 52 <= Zpos q < 2 ^ 54 ->
  (Zpos (digits2_pos q) = 53 /\ Zpos q < 2 ^ 53) \/
  (Zpos (digits2_pos q) = 54 /\ 2 ^ 53 <= Zpos q).
Proof.
  intros H. destruct (Z_lt_le_dec (Zpos q) (2 ^ 53)).
  - left. split; [apply digits_unique; lia | lia].
  - right. split; [apply digits_unique; lia | lia].
Qed.

(** [binary_round_aux] on a mantissa of 53 or 54 bits, away from the bounds of
    the exponent: a finite float of 53 bits whose value is [round_value]. *)
Lemma binary_round_aux_spec s q e loc :
  2 ^ 52 <= Zpos q < 2 ^ 54 -> -1074 <= e <= 800 ->
  exists m' e'',
    binary_round_aux 53 1024 s (Zpos q) e loc = S754_finite s m' e''
    /\ e <= e'' <= e + 2
    /\ Zpos m' * 2 ^ (e'' - e) = round_value q loc
    /\ 2 ^ 52 <= Zpos m' < 2 ^ 53.
Proof.
  intros Hq He. unfold binary_round_aux, round_value.
  unfold shr_fexp at 1. cbn [Zdigits2].
  change (1024 - 53) with 971.
  destruct (digits_53_54 q Hq) as [[Hd Hlt]|[Hd Hge]].
  - rewrite fexp_digits by lia. rewrite Hd. change (53 - 53) with 0.
    change (53 =? 53) with true. cbn [shr].
    destruct (loc_roundtrip (Zpos q) loc) as [-> ->].
    pose proof (round_nearest_even_bounds (Zpos q) loc) as Hb.
    destruct (round_nearest_even (Zpos q) loc) as [|p1|p1] eqn:E1; try lia.
    destruct (renormalize s p1 e) as (m' & e'' & Hr & He'' & Hv & Hm); [lia|lia|].
    exists m', e''. repeat split; try lia. exact Hr.
  - rewrite fexp_digits by lia. rewrite Hd. change (54 - 53) with 1.
    change (54 =? 53) with false. cbn [shr SpecFloat.iter_pos].
    set (mrs := shr_1 (shr_record_of_loc (Zpos q) loc)).
    pose proof (shr_1_m q loc) as Hm1. fold mrs in Hm1.
    pose proof (round_nearest_even_bounds (shr_m mrs) (loc_of_shr_record mrs)) as Hb.
    assert (Hh : 2 ^ 52 <= shr_m mrs < 2 ^ 53).
    { rewrite Hm1. split.
      - apply Z.div_le_lower_bound; lia.
      - apply Z.div_lt_upper_bound; lia. }
    destruct (round_nearest_even (shr_m mrs) (loc_of_shr_record mrs)) as [|p1|p1] eqn:E1; try lia.
    destruct (renormalize s p1 (e + 1)) as (m' & e'' & Hr & He'' & Hv & Hm); [lia|lia|].
    exists m', e''. repeat split; try lia; [exact Hr|].
    replace (e'' - e) with (Z.succ (e'' - (e + 1))) by lia.
    rewrite Z.pow_succ_r by lia. lia.
Qed.

Lemma round_value_exact q :
  Z.even (Zpos q) = true -> round_value q loc_Exact = Zpos q.
Proof.
  unfold round_value. destruct (_ =? _); [reflexivity|].
  destruct q; try discriminate. intros _. reflexivity.
Qed.

(** The rounded mantissa is the truncated one or the next, unless an odd
    54-bit mantissa is exact, a tie that may go down. *)
Lemma round_value_cases q loc :
  Zpos q <= round_value q loc <= Zpos q + 1 \/
  (loc = loc_Exact /\ Z.odd (Zpos q) = true).
Proof.
  unfold round_value. destruct (_ =? _).
  - left. apply round_nearest_even_bounds.
  - destruct q as [p|p|].
    + destruct loc as [|[]]; [right; split; reflexivity| | |]; left;
        cbv [shr_1 shr_record_of_loc loc_of_shr_record round_nearest_even shr_m orb];
        lia.
    + left. destruct loc as [|[]];
        cbv [shr_1 shr_record_of_loc loc_of_shr_record round_nearest_even shr_m orb];
        lia.
    + destruct loc as [|[]]; [right; split; reflexivity| | |]; left;
        cbv [shr_1 shr_record_of_loc loc_of_shr_record round_nearest_even shr_m orb]; lia.
Qed.

Lemma round_value_53 q :
  Zpos (digits2_pos q) = 53 -> round_value q loc_Exact = Zpos q.
Proof. unfold round_value. intros ->. reflexivity. Qed.

Lemma same_binade m m' e e' :
  2 ^ 52 <= Zpos m < 2 ^ 53 -> 2 ^ 52 <= Zpos m' < 2 ^ 53 ->
  e <= e' <= e + 2 -> Zpos m' * 2 ^ (e' - e) = Zpos m -> e' = e /\ m' = m.
Proof.
  intros Hm Hm' He Hv.
  assert (C : e' - e = 0 \/ e' - e = 1 \/ e' - e = 2) by lia.
  destruct C as [C|[C|C]]; rewrite C in Hv; simpl in Hv; try lia.
Qed.

(** An integer below [2^53] is converted exactly, to a mantissa of 53 bits. *)
Lemma binary_round_small s p :
  Zpos p < 2 ^ 53 ->
  exists m e,
    binary_round 53 1024 s p 0 = S754_finite s m e
    /\ -52 <= e <= 0 /\ Zpos m = Zpos p * 2 ^ (- e)
    /\ 2 ^ 52 <= Zpos m < 2 ^ 53.
Proof.
  intros Hp. unfold binary_round.
  pose proof (digits_bounds p) as [Dl Du].
  remember (Zpos (digits2_pos p)) as d eqn:Ed.
  assert (Hd : 1 <= d <= 53).
  { split; [lia|].
    destruct (Z_le_gt_dec d 53) as [|G]; [assumption|].
    assert (2 ^ 53 <= 2 ^ (d - 1)) by (apply Z.pow_le_mono_r; lia). lia. }
  replace (fexp 53 1024 (d + 0)) with (d - 53) by (unfold fexp, emin; lia).
  unfold shl_align.
  destruct (d - 53 - 0) as [|n|n] eqn:En; try lia.
  - assert (H : d = 53) by lia. rewrite H in Dl, Du.
    change (2 ^ (53 - 1)) with (2 ^ 52) in Dl.
    destruct (binary_round_aux_spec s p 0 loc_Exact) as (m' & e'' & Hr & He & Hv & Hm);
      [lia | lia |].
    rewrite round_value_53 in Hv by lia.
    destruct (same_binade p m' 0 e'') as [-> ->]; [lia | lia | lia | exact Hv |].
    exists p, 0. repeat split; try lia. exact Hr.
  - assert (Hn : Zpos n = 53 - d) by lia.
    assert (Hmz : Zpos (Pos.iter xO p n) = Zpos p * 2 ^ (53 - d)) by (rewrite iter_xO, Hn; reflexivity).
    assert (Hpow : 2 ^ (d - 1) * 2 ^ (53 - d) = 2 ^ 52 /\ 2 ^ d * 2 ^ (53 - d) = 2 ^ 53).
    { rewrite <- !Z.pow_add_r by lia. split; f_equal; lia. }
    assert (Hb : 2 ^ 52 <= Zpos (Pos.iter xO p n) < 2 ^ 53).
    { rewrite Hmz. assert (0 < 2 ^ (53 - d)) by (apply Z.pow_pos_nonneg; lia). nia. }
    destruct (binary_round_aux_spec s (Pos.iter xO p n) (d - 53) loc_Exact)
      as (m' & e'' & Hr & He & Hv & Hm); [lia | lia |].
    rewrite round_value_53 in Hv by (apply digits_unique; lia).
    destruct (same_binade (Pos.iter xO p n) m' (d - 53) e'') as [-> ->];
      [exact Hb | lia | lia | exact Hv |].
    exists (Pos.iter xO p n), (d - 53). repeat split; try lia; [exact Hr|].
    rewrite Hmz. f_equal. f_equal. lia.
Qed.

Lemma defaultBaseRate_eq : defaultBaseRate = S754_finite false 6871947673600000 (-36).
Proof. vm_compute. reflexivity. Qed.

(** The quotient of a positive integer [x] below [2^53] by [defaultBaseRate]:
    the exact quotient when 100000 divides [x], otherwise a float strictly
    between the two integers around [x / 100000].  The neighbouring
    integers are at least [1 / 100000] away, more than half a unit in the
    last place of the quotient. *)
Lemma div_base_rate s mx j x :
  0 < x -> 0 <= j <= 52 -> Zpos mx = x * 2 ^ j -> 2 ^ 52 <= Zpos mx < 2 ^ 53 ->
  exists m' e'',
    Float64.div (S754_finite s mx (- j)) defaultBaseRate = S754_finite s m' e''
    /\ e'' < 0
    /\ (x mod 100000 = 0 -> Zpos m' = (x / 100000) * 2 ^ (- e''))
    /\ (x mod 100000 <> 0 ->
        (x / 100000) * 2 ^ (- e'') < Zpos m' < (x / 100000 + 1) * 2 ^ (- e'')).
Proof.
  intros Hx Hj Hmx Hb.
  rewrite defaultBaseRate_eq. unfold Float64.div, SFdiv, SFdiv_core_binary.
  cbn [Zdigits2].
  rewrite (digits_unique mx 53) by (change (2 ^ (53 - 1)) with (2 ^ 52); lia).
  change (Zpos (digits2_pos 6871947673600000)) with 53.
  unfold Float64.prec, Float64.emax.
  replace (Z.min (fexp 53 1024 (53 + - j - (53 + -36))) (- j - -36)) with (- j - 17)
    by (unfold fexp, emin; lia).
  replace (- j - -36 - (- j - 17)) with 53 by lia.
  cbv beta iota.
  rewrite xorb_false_r.
  pose proof (Z_div_mod (Z.shiftl (Zpos mx) 53) 6871947673600000 eq_refl) as Hdiv.
  destruct (Z.div_eucl (Z.shiftl (Zpos mx) 53) 6871947673600000) as [q r].
  rewrite Z.shiftl_mul_pow2 in Hdiv by lia.
  destruct Hdiv as [Hqr Hr].
  unfold new_location. change (Z.even 6871947673600000) with true.
  cbv beta iota. unfold new_location_even.
  assert (Hq : 2 ^ 52 <= q < 2 ^ 54) by lia.
  destruct q as [|q|q]; try lia.
  set (loc := if r =? 0 then loc_Exact else loc_Inexact (2 * r ?= 6871947673600000)).
  destruct (binary_round_aux_spec s q (- j - 17) loc) as (m' & e'' & Hres & He & Hv & Hm);
    [lia | lia |].
  exists m', e''. split; [exact Hres|]. split; [lia|].
  (* arithmetic *)
  set (A := 2 ^ (j + 17)).
  assert (HA : A = 2 ^ j * 131072) by (unfold A; rewrite Z.pow_add_r by lia; reflexivity).
  assert (HJ : 1 <= 2 ^ j) by (assert (0 < 2 ^ j) by (apply Z.pow_pos_nonneg; lia); lia).
  set (B := 2 ^ (e'' - (- j - 17))) in *.
  assert (HB : 0 < B) by (apply Z.pow_pos_nonneg; lia).
  assert (HK : 2 ^ (- e'') * B = A).
  { unfold B, A. rewrite <- Z.pow_add_r by lia. f_equal. lia. }
  assert (HK0 : 0 < 2 ^ (- e'')) by (apply Z.pow_pos_nonneg; lia).
  pose proof (Z.div_mod x 100000 ltac:(lia)) as Hx1.
  pose proof (Z.mod_pos_bound x 100000 ltac:(lia)) as Hx2.
  set (N := x / 100000) in *. set (rho := x mod 100000) in *.
  clearbody N rho.
  set (K := 2 ^ (- e'')) in *. clearbody K B.
  assert (E1 : Zpos mx * 2 ^ 53 = (x * A) * 68719476736) by (rewrite Hmx, HA; ring).
  assert (E2 : x * A = 100000 * (N * A) + rho * A) by (rewrite Hx1 at 1; ring).
  assert (E3 : N * A = N * K * B) by (rewrite <- HK; ring).
  assert (HA1 : 131072 <= A) by lia.
  clearbody A.
  set (XA := x * A) in *. set (NA := N * A) in *. set (NK := N * K) in *.
  split.
  - intros Hrho. rewrite Hrho in E2. rewrite Z.mul_0_l, Z.add_0_r in E2.
    assert (Hr0 : r = 0) by lia.
    assert (Hq1 : Zpos q = NA) by lia.
    assert (Hloc : loc = loc_Exact) by (unfold loc; rewrite Hr0; reflexivity).
    assert (Hev : Z.even (Zpos q) = true).
    { rewrite Hq1. unfold NA. rewrite HA, Z.even_mul, Z.even_mul.
      rewrite !orb_true_r. reflexivity. }
    rewrite Hloc, (round_value_exact q Hev), Hq1, E3 in Hv.
    apply Z.mul_reg_r in Hv; [exact Hv | lia].
  - intros Hrho.
    assert (Hra : A <= rho * A <= 99999 * A) by nia.
    set (rhoA := rho * A) in *.
    assert (Ht : NA + 1 <= Zpos q <= NA + A - 2) by lia.
    destruct (round_value_cases q loc) as [Hrv | [Hloc Hodd]].
    + rewrite <- Hv in Hrv.
      assert (NK * B < Zpos m' * B < (NK + K) * B) by (rewrite Z.mul_add_distr_r; lia).
      replace ((N + 1) * K) with (NK + K) by (unfold NK; ring).
      split; apply (Z.mul_lt_mono_pos_r B); lia.
    + exfalso.
      assert (Hr0 : r = 0).
      { unfold loc in Hloc. destruct (r =? 0) eqn:Er; [lia | discriminate]. }
      apply Z.odd_spec in Hodd. destruct Hodd as [a Ha].
      rewrite Ha, Hr0 in Hqr. lia.
Qed.

(** An integer below [2^53] in magnitude survives the conversion to [float64]
    and back. *)
Lemma to_int64_normalize T s :
  - 2 ^ 53 < T < 2 ^ 53 ->
  Float64.to_int64 (binary_normalize 53 1024 T 0 s) = T.
Proof.
  intros HT. unfold binary_normalize.
  destruct T as [|p|p]; [reflexivity| |].
  - destruct (binary_round_small false p) as (m & e & -> & He & Hm & Hb); [lia|].
    unfold Float64.to_int64, Float64.truncZ. cbn [cond_Zopp].
    assert (Hv : (if 0 <=? e then Zpos m * 2 ^ e else Zpos m / 2 ^ (- e)) = Zpos p).
    { destruct (0 <=? e) eqn:E.
      - assert (e = 0) by lia. subst e. simpl in Hm. simpl. lia.
      - rewrite Hm. apply Z.div_mul. apply Z.pow_nonzero; lia. }
    rewrite Hv.
    destruct (Int64.in_rangeb (Zpos p)) eqn:R; [reflexivity|].
    exfalso. apply not_true_iff_false in R. apply R, Int64Facts.in_rangeb_spec.
    unfold Int64.in_range, Int64.min_int, Int64.max_int. lia.
  - destruct (binary_round_small true p) as (m & e & -> & He & Hm & Hb); [lia|].
    unfold Float64.to_int64, Float64.truncZ.
    assert (Hv : (if 0 <=? e then cond_Zopp true (Zpos m * 2 ^ e)
                  else cond_Zopp true (Zpos m / 2 ^ (- e))) = Zneg p).
    { destruct (0 <=? e) eqn:E.
      - assert (e = 0) by lia. subst e. simpl in Hm. simpl. lia.
      - rewrite Hm, Z.div_mul by (apply Z.pow_nonzero; lia). reflexivity. }
    rewrite Hv.
    destruct (Int64.in_rangeb (Zneg p)) eqn:R; [reflexivity|].
    exfalso. apply not_true_iff_false in R. apply R, Int64Facts.in_rangeb_spec.
    unfold Int64.in_range, Int64.min_int, Int64.max_int. lia.
Qed.

(** The ceiling of the float quotient is the ceiling of the exact one. *)
Lemma ceilZ_quotient s mx j p :
  0 <= j <= 52 -> Zpos mx = Zpos p * 2 ^ j -> 2 ^ 52 <= Zpos mx < 2 ^ 53 ->
  exists m' e'',
    Float64.div (S754_finite s mx (- j)) defaultBaseRate = S754_finite s m' e''
    /\ Float64.ceilZ s m' e'' = ceilDiv (cond_Zopp s (Zpos p)) 100000.
Proof.
  intros Hj Hmx Hb.
  destruct (div_base_rate s mx j (Zpos p)) as (m' & e'' & Hd & He & H0 & H1);
    [lia | exact Hj | exact Hmx | exact Hb |].
  exists m', e''. split; [exact Hd|].
  unfold Float64.ceilZ, ceilDiv.
  destruct (0 <=? e'') eqn:E; [lia|]. clear E.
  assert (HK : 0 < 2 ^ (- e'')) by (apply Z.pow_pos_nonneg; lia).
  set (K := 2 ^ (- e'')) in *. clearbody K.
  pose proof (Z.div_mod (Zpos p) 100000 ltac:(lia)) as Hx1.
  pose proof (Z.mod_pos_bound (Zpos p) 100000 ltac:(lia)) as Hx2.
  set (N := Zpos p / 100000) in *. set (rho := Zpos p mod 100000) in *.
  clearbody N rho.
  f_equal.
  destruct (Z.eq_dec rho 0) as [Hz|Hnz].
  - specialize (H0 Hz). destruct s; cbn [cond_Zopp]; rewrite ?Z.opp_involutive.
    + transitivity N; [symmetry|]; apply Z.div_unique with 0; lia.
    + transitivity (- N); [symmetry|]; apply Z.div_unique with 0; lia.
  - specialize (H1 Hnz). destruct s; cbn [cond_Zopp]; rewrite ?Z.opp_involutive.
    + transitivity N; [symmetry|].
      * apply Z.div_unique with (Zpos m' - N * K); lia.
      * apply Z.div_unique with rho; lia.
    + transitivity (- (N + 1)); [symmetry|].
      * apply Z.div_unique with ((N + 1) * K - Zpos m'); lia.
      * apply Z.div_unique with (100000 - rho); lia.
Qed.

Lemma ceilDiv_bound X : - 2 ^ 53 < X < 2 ^ 53 -> - 2 ^ 53 < ceilDiv X 100000 < 2 ^ 53.
Proof.
  intros H. unfold ceilDiv.
  pose proof (Z.div_mod (- X) 100000 ltac:(lia)).
  pose proof (Z.mod_pos_bound (- X) 100000 ltac:(lia)). lia.
Qed.

(** Lines 208-210, for a product [X] below [2^53] in magnitude. *)
Lemma ceil_of_quotient X :
  - 2 ^ 53 < X < 2 ^ 53 ->
  Float64.to_int64 (Float64.Ceil (Float64.div (Float64.of_int64 X) defaultBaseRate))
  = ceilDiv X 100000.
Proof.
  intros HX. unfold Float64.of_int64, Float64.prec, Float64.emax.
  destruct X as [|p|p].
  - vm_compute. reflexivity.
  - change (binary_normalize 53 1024 (Zpos p) 0 false) with (binary_round 53 1024 false p 0).
    destruct (binary_round_small false p) as (m & e & Hr & He & Hm & Hb); [lia|].
    rewrite Hr. replace e with (- (- e)) by lia.
    destruct (ceilZ_quotient false m (- e) p) as (m' & e'' & Hd & Hc); [lia|exact Hm|exact Hb|].
    rewrite Hd. unfold Float64.Ceil, Float64.prec, Float64.emax. rewrite Hc.
    apply to_int64_normalize. apply (ceilDiv_bound (Zpos p)). lia.
  - change (binary_normalize 53 1024 (Zneg p) 0 false) with (binary_round 53 1024 true p 0).
    destruct (binary_round_small true p) as (m & e & Hr & He & Hm & Hb); [lia|].
    rewrite Hr. replace e with (- (- e)) by lia.
    destruct (ceilZ_quotient true m (- e) p) as (m' & e'' & Hd & Hc); [lia|exact Hm|exact Hb|].
    rewrite Hd. unfold Float64.Ceil, Float64.prec, Float64.emax. rewrite Hc.
    apply to_int64_normalize. apply (ceilDiv_bound (Zneg p)). lia.
Qed.

Lemma ceilDiv_spec X : X <= ceilDiv X 100000 * 100000 < X + 100000.
Proof.
  unfold ceilDiv.
  pose proof (Z.div_mod (- X) 100000 ltac:(lia)).
  pose proof (Z.mod_pos_bound (- X) 100000 ltac:(lia)). lia.
Qed.

(** The conversion chain of lines 208-210 is exact up to [2^53]. *)
Lemma ceil_of_quotient_le X :
  - 2 ^ 53 <= X <= 2 ^ 53 ->
  Float64.to_int64 (Float64.Ceil (Float64.div (Float64.of_int64 X) defaultBaseRate))
  = ceilDiv X 100000.
Proof.
  intros HX.
  destruct (Z.eq_dec X (2 ^ 53)) as [->|Hu]; [vm_compute; reflexivity|].
  destruct (Z.eq_dec X (- 2 ^ 53)) as [->|Hl]; [vm_compute; reflexivity|].
  apply ceil_of_quotient. lia.
Qed.

Lemma to_int64_defaultBaseRate : Float64.to_int64 defaultBaseRate = 100000.
Proof. vm_compute. reflexivity. Qed.

(* ===================================================================== *)
(** * The gas estimator: settled claims *)
(* ===================================================================== *)

(** C6, as amended.  Inside the P2WSH gas of a signing instruction, every
    witness component of either multi-signature kind, with [k] keys and
    quorum [q], adds exactly [738 + (984 * k - 72 * q - 63)] units, the
    addition being the 64-bit one of the code; a component with three keys
    and quorum two adds 3483 units. *)
Theorem estimateP2WSHGas_component :
  forall (pos : Z) (pre post : list WitnessComponent) (q : Z) (keys : list string),
    let k := Z.of_nat (length keys) in
    let rest := estimateP2WSHGas {| Position := pos; WitnessComponents := pre ++ post |} in
    estimateP2WSHGas
      {| Position := pos; WitnessComponents := pre ++ SignatureWitness q keys :: post |}
    = Int64.wrap (rest + (738 + (984 * k - 72 * q - 63)))
    /\ estimateP2WSHGas
         {| Position := pos; WitnessComponents := pre ++ RawTxSigWitness q keys :: post |}
       = Int64.wrap (rest + (738 + (984 * k - 72 * q - 63)))
    /\ (forall k1 k2 k3 : string,
          estimateP2WSHGas
            {| Position := pos; WitnessComponents := [SignatureWitness 2 [k1; k2; k3]] |}
          = 3483
          /\ estimateP2WSHGas
               {| Position := pos; WitnessComponents := [RawTxSigWitness 2 [k1; k2; k3]] |}
             = 3483).
Proof.
  intros pos pre post q keys k rest. repeat split.
  - apply (estimateP2WSHGas_insert pos pre post (SignatureWitness q keys)).
  - apply (estimateP2WSHGas_insert pos pre post (RawTxSigWitness q keys)).
Qed.

(** C6, the figure of the claim: three keys and quorum two give 3483, which
    is what the formula gives, and not 3393. *)
Lemma estimateP2WSHGas_three_keys_not_3393 :
  estimateP2WSHGas
    {| Position := 0;
       WitnessComponents := [SignatureWitness 2 ["k1"; "k2"; "k3"]%string] |} = 3483
  /\ 738 + (984 * 3 - 72 * 2 - 63) = 3483
  /\ estimateP2WSHGas
       {| Position := 0;
          WitnessComponents := [SignatureWitness 2 ["k1"; "k2"; "k3"]%string] |} <> 3393.
Proof. repeat split. vm_compute. discriminate. Qed.

Section EstimatorClaims.

Variable MarshalText : Tx -> error + string.
Variable IsP2WPKHScript : string -> bool.
Variable IsP2WSHScript : string -> bool.
Variable StorageGasRate : Z.
Variable VMGasRate : Z.

Local Abbreviation spendsP2WSH' := (spendsP2WSH IsP2WPKHScript IsP2WSHScript).
Local Abbreviation vmGasLoop' := (vmGasLoop IsP2WPKHScript IsP2WSHScript).
Local Abbreviation estimateGasTotals' :=
  (estimateGasTotals MarshalText IsP2WPKHScript IsP2WSHScript StorageGasRate).
Local Abbreviation EstimateTxGas' :=
  (EstimateTxGas MarshalText IsP2WPKHScript IsP2WSHScript StorageGasRate VMGasRate).

Lemma vmGasLoop_fault_inv T ids : forall pos acc,
  vmGasLoop' T pos ids acc = Panic IndexOutOfRange ->
  exists i inpID,
    ids !! i = Some inpID /\ spendsP2WSH' T inpID = true /\
    (length (SigningInstructions T) <= pos + i)%nat.
Proof.
  induction ids as [|x ids IH]; intros pos acc; simpl; [discriminate|].
  destruct (spendsP2WSH' T x) eqn:E.
  - rewrite (inputGas_P2WSH _ _ _ _ _ _ E).
    destruct (SigningInstructions T !! pos) eqn:L.
    + intros H. destruct (IH _ _ H) as (i & inpID & Hi & Hs & Hl).
      exists (S i), inpID. repeat split; [exact Hi | exact Hs | lia].
    + intros _. exists 0%nat, x. apply lookup_ge_None in L.
      repeat split; [exact E | lia].
  - rewrite (inputGas_other _ _ _ _ _ _ E).
    intros H. destruct (IH _ _ H) as (i & inpID & Hi & Hs & Hl).
    exists (S i), inpID. repeat split; [exact Hi | exact Hs | lia].
Qed.

(** C10.  On a template whose data is encoded and whose storage gas does not
    overflow, [EstimateTxGas] looks up the signing instruction at the
    position of every input that spends a P2WSH output, unguarded: it faults
    (index out of range) exactly when some such position has no entry, and in
    no other way.  Entries and transaction are taken non-nil. *)
Theorem EstimateTxGas_index_precondition (T : Template) (data : string) :
  MarshalText (Transaction T) = inr data ->
  snd (MulInt64 (Int64.add (Z.of_nat (String.length data))
                           (estimateSignSize (SigningInstructions T)))
                StorageGasRate) = true ->
  (EstimateTxGas' T = Panic IndexOutOfRange <->
   exists (pos : nat) (inpID : Hash),
     InputIDs (Transaction T) !! pos = Some inpID /\
     spendsP2WSH' T inpID = true /\
     (length (SigningInstructions T) <= pos)%nat)
  /\ (forall f, EstimateTxGas' T = Panic f -> f = IndexOutOfRange).
Proof.
  intros Hdata Hmul.
  unfold EstimateTxGas, estimateGasTotals. rewrite Hdata.
  destruct (MulInt64 _ _) as [p ok]. simpl in Hmul. subst ok.
  destruct (vmGasLoop_outcome IsP2WPKHScript IsP2WSHScript T
              (InputIDs (Transaction T)) 0%nat (0, 0)) as [[[x y] Hr] | Hp].
  - rewrite Hr. split; [split|].
    + discriminate.
    + intros (pos & inpID & Hi & Hs & Hl).
      rewrite (vmGasLoop_fault IsP2WPKHScript IsP2WSHScript T _ 0%nat (0, 0) pos inpID Hi Hs)
        in Hr by lia.
      discriminate.
    + discriminate.
  - rewrite Hp. split; [split|].
    + intros _. destruct (vmGasLoop_fault_inv _ _ _ _ Hp) as (i & inpID & Hi & Hs & Hl).
      exists i, inpID. repeat split; [exact Hi | exact Hs | lia].
    + reflexivity.
    + intros f [= <-]. reflexivity.
Qed.

(** C7, as amended.  The sign size is 300 times the sum of the quorums of
    the components of both multi-signature kinds, as a 64-bit integer.  When
    every quorum of a template is doubled, the sign size becomes twice
    itself as a 64-bit integer, and the storage gas, which is
    [(base size + sign size) * StorageGasRate], becomes
    [(base size + 2 * sign size) * StorageGasRate] with the same 64-bit
    sums: only its sign-size term doubles; the P2WPKH gas is unchanged.
    Where the quorums sum to a figure that is not negative and the base
    size plus the doubled sign size is at most [2^63 - 1], nothing wraps
    around: the sign size is exactly 300 times that sum, it doubles
    exactly, and the two storage figures are the exact ones. *)
Theorem doubling_quorums (T : Template) (data : string) (g g' : GasTotals) :
  MarshalText (Transaction T) = inr data ->
  estimateGasTotals' T = Ok g ->
  estimateGasTotals' (doubleQuorums T) = Ok g' ->
  let base := Z.of_nat (String.length data) in
  let sign := estimateSignSize (SigningInstructions T) in
  let quorums := totalQuorum (SigningInstructions T) in
  (sign = Int64.wrap (300 * quorums)
   /\ estimateSignSize (SigningInstructions (doubleQuorums T)) = Int64.wrap (2 * sign)
   /\ totalTxSizeGas g = Int64.add base sign * StorageGasRate
   /\ totalTxSizeGas g' = Int64.add base (Int64.wrap (2 * sign)) * StorageGasRate
   /\ totalP2WPKHGas g' = totalP2WPKHGas g)
  /\ (0 <= quorums ->
      base + 600 * quorums <= Int64.max_int ->
      sign = 300 * quorums
      /\ estimateSignSize (SigningInstructions (doubleQuorums T)) = 2 * sign
      /\ totalTxSizeGas g = (base + sign) * StorageGasRate
      /\ totalTxSizeGas g' = (base + 2 * sign) * StorageGasRate).
Proof.
  intros Hdata Hg Hg' base sign quorums.
  apply estimateGasTotals_Ok in Hg as (d & Hd & Hs & _ & Hl).
  apply estimateGasTotals_Ok in Hg' as (d' & Hd' & Hs' & _ & Hl').
  cbn [doubleQuorums Transaction SigningInstructions] in *.
  rewrite Hdata in Hd, Hd'. injection Hd as <-. injection Hd' as <-.
  rewrite estimateSignSize_double in Hs'.
  fold base sign in Hs, Hs'.
  assert (Hsign : sign = Int64.wrap (300 * quorums)).
  { unfold sign, quorums. rewrite estimateSignSize_sum, signSizeTotal_quorum. reflexivity. }
  split.
  - split; [exact Hsign|]. split; [apply estimateSignSize_double|].
    split; [exact Hs|]. split; [exact Hs'|].
    apply (vmGasLoop_P2WPKH IsP2WPKHScript IsP2WSHScript T (doubleQuorums T)
             (InputIDs (Transaction T)) 0%nat (0, 0) (0, 0) _ _ eq_refl eq_refl Hl Hl').
  - intros Hq Hmax.
    assert (Hbase : 0 <= base) by (unfold base; lia).
    assert (R : forall z, 0 <= z <= Int64.max_int -> Int64.wrap z = z).
    { intros z Hz. apply Int64Facts.wrap_small.
      unfold Int64.in_range, Int64.min_int, Int64.max_int in *. lia. }
    assert (Hexact : sign = 300 * quorums) by (rewrite Hsign; apply R; lia).
    split; [exact Hexact|].
    split; [rewrite estimateSignSize_double; fold sign; apply R; lia|].
    split.
    + rewrite Hs. unfold Int64.add. rewrite R by lia. reflexivity.
    + rewrite Hs'. unfold Int64.add. rewrite (R (2 * sign)) by lia.
      rewrite R by lia. reflexivity.
Qed.

(** C5, as amended.  When [EstimateTxGas] comes to the gas totals [g] and
    the product of the total gas and the vm-gas rate stays within
    [-2^53, 2^53], where the conversion to [float64] is exact, the total fee
    is [ceil(total gas * VMGasRate / 100000) * 100000]; the storage and vm
    sub-fees are the plain products, not rounded, when these fit in 64
    bits. *)
Theorem total_fee_rounding (T : Template) (g : GasTotals) :
  estimateGasTotals' T = Ok g ->
  - 2 ^ 53 <= totalGas g * VMGasRate <= 2 ^ 53 ->
  Int64.in_range (totalTxSizeGas g * VMGasRate) ->
  Int64.in_range (totalP2WPKHGas g + totalP2WSHGas g) ->
  Int64.in_range ((totalP2WPKHGas g + totalP2WSHGas g) * VMGasRate) ->
  exists resp,
    EstimateTxGas' T = Ok resp
    /\ TotalNeu resp = ceilDiv (totalGas g * VMGasRate) 100000 * 100000
    /\ StorageNeu resp = totalTxSizeGas g * VMGasRate
    /\ VMNeu resp = (totalP2WPKHGas g + totalP2WSHGas g) * VMGasRate.
Proof.
  intros Hg HX Hs Hv1 Hv2.
  unfold EstimateTxGas. rewrite Hg. eexists. split; [reflexivity|].
  unfold feeFigures. cbn [TotalNeu StorageNeu VMNeu].
  repeat split.
  - unfold Int64.mul at 2. rewrite (Int64Facts.wrap_small (totalGas g * VMGasRate))
      by (unfold Int64.in_range, Int64.min_int, Int64.max_int; lia).
    rewrite ceil_of_quotient_le by exact HX.
    rewrite to_int64_defaultBaseRate.
    unfold Int64.mul. apply Int64Facts.wrap_small.
    pose proof (ceilDiv_spec (totalGas g * VMGasRate)).
    unfold Int64.in_range, Int64.min_int, Int64.max_int. lia.
  - unfold Int64.mul. now apply Int64Facts.wrap_small.
  - unfold Int64.mul, Int64.add. rewrite (Int64Facts.wrap_small _ Hv1).
    now apply Int64Facts.wrap_small.
Qed.

(** The only errors of [EstimateTxGas]: the encoding of the transaction data
    fails, or the storage gas product leaves the 64-bit range.  No other
    product is looked at. *)
Lemma EstimateTxGas_errors (T : Template) (e : error) :
  EstimateTxGas' T = Err e ->
  MarshalText (Transaction T) = inl e \/
  (e = errors_New "calculate txsize gas got a math error" /\
   exists data,
     MarshalText (Transaction T) = inr data /\
     ~ Int64.in_range (Int64.add (Z.of_nat (String.length data))
                                 (estimateSignSize (SigningInstructions T))
                       * StorageGasRate)).
Proof.
  unfold EstimateTxGas, estimateGasTotals.
  destruct (MarshalText (Transaction T)) as [err|data]; [intros [= ->]; now left|].
  unfold MulInt64.
  destruct (Int64.in_rangeb _) eqn:R.
  - destruct (vmGasLoop_outcome IsP2WPKHScript IsP2WSHScript T
                (InputIDs (Transaction T)) 0%nat (0, 0)) as [[[x y] ->] | ->]; discriminate.
  - intros [= <-]. right. split; [reflexivity|]. exists data. split; [reflexivity|].
    intros H. apply Int64Facts.in_rangeb_spec in H. congruence.
Qed.

End EstimatorClaims.

(** ** Concrete runs, with the sample collaborators *)

(** C10 at a template with one P2WSH input and no signing instruction. *)
Lemma EstimateTxGas_index_precondition_witness :
  Sample.MarshalText (Transaction Sample.tplNoInstructions) = inr "7"%string
  /\ Sample.EstimateTxGas Sample.tplNoInstructions = Panic IndexOutOfRange.
Proof.
  split; [reflexivity|].
  destruct (EstimateTxGas_index_precondition
              Sample.MarshalText Sample.IsP2WPKHScript Sample.IsP2WSHScript
              Sample.StorageGasRate Sample.VMGasRate
              Sample.tplNoInstructions "7" eq_refl eq_refl) as [[_ H] _].
  apply H. exists 0%nat, 1%N. repeat split. simpl. lia.
Defined.

(** C7, the claim as stated fails: with a base size of one byte and one
    quorum of 1, the storage gas goes from 301 to 601, which is not twice
    301. *)
Lemma doubling_quorums_counterexample :
  exists g g',
    Sample.estimateGasTotals (Sample.tplQuorum 1) = Ok g
    /\ Sample.estimateGasTotals (doubleQuorums (Sample.tplQuorum 1)) = Ok g'
    /\ totalTxSizeGas g = 301
    /\ totalTxSizeGas g' = 601
    /\ totalTxSizeGas g' <> 2 * totalTxSizeGas g.
Proof.
  exists {| totalTxSizeGas := 301; totalP2WPKHGas := 0; totalP2WSHGas := 0 |},
         {| totalTxSizeGas := 601; totalP2WPKHGas := 0; totalP2WSHGas := 0 |}.
  repeat split. simpl. lia.
Qed.

(** C7 as amended, at a template with a P2WPKH input and the quorums 1 and
    2, one of each kind: the sign size goes from 900 to 1800, the storage
    gas from 901 to 1801, and the P2WPKH gas stays 1419. *)
Lemma doubling_quorums_witness :
  estimateSignSize (SigningInstructions Sample.tplPaid) = 900
  /\ estimateSignSize (SigningInstructions (doubleQuorums Sample.tplPaid)) = 1800
  /\ exists g g',
       Sample.estimateGasTotals Sample.tplPaid = Ok g
       /\ Sample.estimateGasTotals (doubleQuorums Sample.tplPaid) = Ok g'
       /\ totalTxSizeGas g = 901
       /\ totalTxSizeGas g' = 1801
       /\ totalP2WPKHGas g = 1419
       /\ totalP2WPKHGas g' = totalP2WPKHGas g.
Proof.
  pose (g := {| totalTxSizeGas := 901; totalP2WPKHGas := 1419; totalP2WSHGas := 0 |}).
  pose (g' := {| totalTxSizeGas := 1801; totalP2WPKHGas := 1419; totalP2WSHGas := 0 |}).
  destruct (doubling_quorums
              Sample.MarshalText Sample.IsP2WPKHScript Sample.IsP2WSHScript
              Sample.StorageGasRate Sample.tplPaid "7" g g'
              eq_refl eq_refl eq_refl) as [(_ & _ & _ & _ & H5) Hexact].
  destruct Hexact as (H1 & H2 & H3 & H4).
  - vm_compute. discriminate.
  - vm_compute. discriminate.
  - split; [exact H1|]. split; [exact H2|]. exists g, g'.
    split; [reflexivity|]. split; [reflexivity|].
    split; [exact H3|]. split; [exact H4|]. split; [reflexivity | exact H5].
Defined.

(** C7, beyond the range: at the quorum 15372286728091294 the sign size is
    4611686018427388200; with the quorum doubled it is
    -9223372036854775216, the 64-bit value of its double, and both
    estimates come to gas totals. *)
Lemma doubling_quorums_wraps :
  estimateSignSize (SigningInstructions (Sample.tplQuorum 15372286728091294))
  = 4611686018427388200
  /\ estimateSignSize
       (SigningInstructions (doubleQuorums (Sample.tplQuorum 15372286728091294)))
     = -9223372036854775216
  /\ (exists g, Sample.estimateGasTotals (Sample.tplQuorum 15372286728091294) = Ok g)
  /\ (exists g', Sample.estimateGasTotals
                   (doubleQuorums (Sample.tplQuorum 15372286728091294)) = Ok g').
Proof.
  split; [vm_compute; reflexivity|]. split; [vm_compute; reflexivity|].
  split; eexists; vm_compute; reflexivity.
Qed.

(** C5, the claim as stated fails beyond [2^53]: with a total gas of
    12000000000000001 and the rate 200, the product 2400000000000000200 is
    rounded to 2400000000000000000 when converted to [float64], and the
    total fee is 2400000000000000000, not 2400000000000100000. *)
Lemma total_fee_rounding_counterexample :
  exists g resp,
    Sample.estimateGasTotals (Sample.tplQuorum 40000000000000) = Ok g
    /\ Sample.EstimateTxGas (Sample.tplQuorum 40000000000000) = Ok resp
    /\ totalGas g * Sample.VMGasRate = 2400000000000000200
    /\ TotalNeu resp = 2400000000000000000
    /\ ceilDiv (totalGas g * Sample.VMGasRate) 100000 * 100000 = 2400000000000100000
    /\ TotalNeu resp <> ceilDiv (totalGas g * Sample.VMGasRate) 100000 * 100000.
Proof.
  exists {| totalTxSizeGas := 12000000000000001; totalP2WPKHGas := 0; totalP2WSHGas := 0 |},
         {| TotalNeu := 2400000000000000000; StorageNeu := 2400000000000000200; VMNeu := 0 |}.
  repeat split; try (vm_compute; reflexivity). vm_compute. discriminate.
Qed.

(** C5 as amended, at the template with one P2WSH input: the total fee is
    rounded up to 900000, the sub-fees 120200 and 696600 are not, and they do
    not sum to the total. *)
Lemma total_fee_rounding_witness :
  exists resp,
    Sample.EstimateTxGas Sample.tplP2WSH = Ok resp
    /\ TotalNeu resp = 900000
    /\ StorageNeu resp = 120200
    /\ VMNeu resp = 696600
    /\ StorageNeu resp + VMNeu resp <> TotalNeu resp.
Proof.
  pose (g := {| totalTxSizeGas := 601; totalP2WPKHGas := 0; totalP2WSHGas := 3483 |}).
  destruct (total_fee_rounding
              Sample.MarshalText Sample.IsP2WPKHScript Sample.IsP2WSHScript
              Sample.StorageGasRate Sample.VMGasRate Sample.tplP2WSH g)
    as (resp & Hr & Ht & Hs & Hv).
  - reflexivity.
  - vm_compute. split; discriminate.
  - vm_compute. split; discriminate.
  - vm_compute. split; discriminate.
  - vm_compute. split; discriminate.
  - exists resp. rewrite Ht, Hs, Hv. repeat split; [exact Hr|]. vm_compute. discriminate.
Defined.

(** C2, at a template the estimate interface can receive: one witness
    component of quorum 10^15.  The storage gas 300000000000000001 passes the
    checked multiplication by the storage rate 1; its product by the rate
    200 does not fit in 64 bits, yet [EstimateTxGas] returns figures, the
    storage fee being the wrapped product. *)
Lemma EstimateTxGas_silent_overflow :
  exists g resp,
    Sample.estimateGasTotals (Sample.tplQuorum (10 ^ 15)) = Ok g
    /\ Sample.EstimateTxGas (Sample.tplQuorum (10 ^ 15)) = Ok resp
    /\ totalTxSizeGas g = 300000000000000001
    /\ ~ Int64.in_range (totalTxSizeGas g * Sample.VMGasRate)
    /\ ~ Int64.in_range (totalGas g * Sample.VMGasRate)
    /\ StorageNeu resp = 4659767778871345352
    /\ StorageNeu resp <> totalTxSizeGas g * Sample.VMGasRate.
Proof.
  exists {| totalTxSizeGas := 300000000000000001; totalP2WPKHGas := 0; totalP2WSHGas := 0 |},
         {| TotalNeu := 4659767778871400000; StorageNeu := 4659767778871345352; VMNeu := 0 |}.
  repeat split; try (vm_compute; reflexivity).
  - vm_compute. intros [_ H]. apply H. reflexivity.
  - vm_compute. intros [_ H]. apply H. reflexivity.
  - vm_compute. discriminate.
Qed.

(* ===================================================================== *)
(** * The template builder and the peg-in claim *)
(* ===================================================================== *)

Section ApiFacts.

Variable W : Type.
Variable Action : Type.
Variable SignFn : Type.
Variable Error_text : error -> string.
Variable DecodeControlAddressAction : string -> error + Action.
Variable DecodeControlProgramAction : string -> error + Action.
Variable DecodeRetireAction : string -> error + Action.
Variable MergeSpendAction : list Action -> list Action.
Variable json_Marshal : gmap string Value -> error + string.
Variable time_Now : W -> Z.
Variable Build :
  option Tx -> list Action -> Z -> Z -> W -> (option Template * option error) * W.
Variable Sign : Template -> string -> SignFn -> W -> option error * W.
Variable FinalizeTx : Tx -> W -> (option error * Tx) * W.
Variable Sum256 : string -> string.
Variable ContractKey : string -> string.
Variable json_Unmarshal_CtrlProgram : string -> error + CtrlProgram.
Variable json_Marshal_Tx : Tx -> option string.
Variable ParentGenesisBlockHash : string.

Local Abbreviation buildSingle' :=
  (buildSingle W Action SignFn Error_text DecodeControlAddressAction
     DecodeControlProgramAction DecodeRetireAction MergeSpendAction json_Marshal
     time_Now Build).
Local Abbreviation finishClaim' :=
  (finishClaim W Action SignFn Sign FinalizeTx json_Marshal_Tx ParentGenesisBlockHash).
Local Abbreviation claimPeginTxBody' :=
  (claimPeginTxBody W Action SignFn Error_text DecodeControlAddressAction
     DecodeControlProgramAction DecodeRetireAction MergeSpendAction json_Marshal
     time_Now Build Sign FinalizeTx Sum256 ContractKey json_Unmarshal_CtrlProgram
     json_Marshal_Tx ParentGenesisBlockHash).
Local Abbreviation claimPeginTx' :=
  (claimPeginTx W Action SignFn Error_text DecodeControlAddressAction
     DecodeControlProgramAction DecodeRetireAction MergeSpendAction json_Marshal
     time_Now Build Sign FinalizeTx Sum256 ContractKey json_Unmarshal_CtrlProgram
     json_Marshal_Tx ParentGenesisBlockHash).

Ltac run_unfold :=
  unfold bind, ret, throw, panic, log, getHeap, getWorld, setHeap, setWorld;
  cbv beta iota zeta; cbn [fst snd heap world trace].

Ltac forall_events :=
  repeat (apply List.Forall_cons; [simpl; auto|]); apply List.Forall_nil.

Ltac stop_run :=
  split;
  [ rewrite ?app_nil_r, <- ?app_assoc; reflexivity
  | split; [forall_events | discriminate] ].

Lemma buildSingle_run (a : API W Action SignFn) (req : BuildRequest) (s : St W Action) :
  exists added,
    trace (snd (buildSingle' a req s))
    = trace s ++ EvBuildSingle req (deref (heap s) <$> Actions req) :: added
    /\ Forall isBuildCall added.
Proof.
  unfold buildSingle. run_unfold.
  destruct (completeMissingIDs a req (heap s) (world s)) as [[err h] w].
  run_unfold.
  destruct err as [e|]; run_unfold; [exists (@nil (event Action)); split; [reflexivity | forall_events]|].
  destruct (onlyHaveInputActions h req) as [e|[|]]; run_unfold;
    try (exists (@nil (event Action)); split; [reflexivity | forall_events]).
  destruct (decodeActions _ _ _ _ _ _ _ _ _ _ _ _ _) as [e|actions]; run_unfold;
    try (exists (@nil (event Action)); split; [reflexivity | forall_events]).
  destruct (Build _ _ _ _ _) as [[tpl err] w'].
  run_unfold.
  destruct (flattenBuildError err) as [[e'|]|e'|f]; run_unfold; try destruct tpl; run_unfold;
    (eexists [_]; split; [rewrite <- app_assoc; reflexivity | forall_events]).
Qed.

Lemma deref_insert (h : gmap loc (gmap string Value)) l m : deref (<[l := m]> h) l = m.
Proof. unfold deref. now rewrite lookup_insert_eq. Qed.

Lemma outputAmount_run (rawTx : Tx) (nOut : Z) (s : St W Action) :
  (exists output,
     Outputs rawTx !! Z.to_nat nOut = Some output /\
     outputAmount W Action rawTx nOut s = (Ok (Amount output), s)) \/
  outputAmount W Action rawTx nOut s = (Panic IndexOutOfRange, s).
Proof.
  unfold outputAmount. destruct (nOut <? 0); [right; reflexivity|].
  destruct (Outputs rawTx !! Z.to_nat nOut); [left; eauto | right; reflexivity].
Qed.

Lemma synthesizeBuildRequest_run (a : API W Action SignFn) (ins : ClaimRequest)
      (nOut : Z) (cp : CtrlProgram) (s : St W Action) :
  trace (snd (synthesizeBuildRequest a ins nOut cp s)) = trace s /\
  forall req, fst (synthesizeBuildRequest a ins nOut cp s) = Ok req ->
    exists l m,
      Actions req = [l; l; l]
      /\ heap (snd (synthesizeBuildRequest a ins nOut cp s)) !! l = Some m
      /\ typeTag m = Some "control_address"%string
      /\ m !! "account_id"%string = None
      /\ exists output,
           Outputs (RawTx ins) !! Z.to_nat nOut = Some output /\
           m !! "amount"%string = Some (VUint64 (Amount output)).
Proof.
  unfold synthesizeBuildRequest, newMap, store, remove.
  unfold bind, ret, throw, panic, log, getHeap, getWorld, setHeap, setWorld. cbn.
  set (l := freshLoc (heap s)).
  rewrite !deref_insert.
  match goal with |- context [outputAmount W Action ?tx ?n ?st] =>
    destruct (outputAmount_run tx n st) as [(o & Ho & ->) | ->] end;
    [|split; [reflexivity | discriminate]].
  cbn. rewrite !deref_insert.
  match goal with |- context [outputAmount W Action ?tx ?n ?st] =>
    destruct (outputAmount_run tx n st) as [(o' & Ho' & ->) | ->] end;
    [|split; [reflexivity | discriminate]].
  cbn. rewrite !deref_insert.
  destruct (CreateAddress a (AccountID cp) false (world s)) as [[err|program] w'];
    cbn; [split; [reflexivity | discriminate]|].
  rewrite !deref_insert.
  split; [reflexivity|].
  intros req [= <-]. eexists l, _. split; [reflexivity|].
  split; [apply lookup_insert_eq|].
  split; [|split; [|exists o'; split; [exact Ho'|]]].
  - unfold typeTag. now simplify_map_eq.
  - now simplify_map_eq.
  - now simplify_map_eq.
Qed.

Lemma finishClaim_run (a : API W Action SignFn) (ins : ClaimRequest) (nOut : Z)
      (tmpl : Template) (s : St W Action) :
  exists added,
    trace (snd (finishClaim' a ins nOut tmpl s)) = trace s ++ added
    /\ Forall (submitsOnly (RawTx ins)) added
    /\ forall resp, fst (finishClaim' a ins nOut tmpl s) = Ok resp ->
          In (EvFinalizeTx (RawTx ins)) added /\
          exists w w' rawTx',
            FinalizeTx (RawTx ins) w = (None, rawTx', w') /\ TxID resp = ID rawTx'.
Proof.
  unfold finishClaim. run_unfold.
  destruct (outputAmount_run (RawTx ins) nOut s) as [(o & Ho & ->) | ->]; run_unfold;
    [|exists (@nil (event Action)); stop_run].
  destruct (markPegin tmpl _) as [tmpl'|]; run_unfold; [|exists (@nil (event Action)); stop_run].
  destruct (Sign tmpl' (Password ins) (PseudohsmSignTemplate a) (world s)) as [[e|] w'];
    run_unfold; [eexists [_]; stop_run|].
  destruct (FinalizeTx (RawTx ins) w') as [[[e|] rawTx'] w''] eqn:EF; run_unfold;
    [eexists [_; _]; stop_run|].
  eexists [_; _]. rewrite <- app_assoc. split; [reflexivity|].
  split; [forall_events|].
  intros resp [= <-]. split; [right; left; reflexivity|].
  exists w', w'', rawTx'. split; [exact EF | reflexivity].
Qed.

Lemma resolveClaimTarget_state (a : API W Action SignFn) (ins : ClaimRequest)
      (s : St W Action) :
  snd (resolveClaimTarget a ins s) = s.
Proof.
  unfold resolveClaimTarget.
  destruct (String.eqb (ClaimScript ins) ""); run_unfold.
  - destruct (ListControlProgram a (world s)); reflexivity.
  - destruct (GetPeginControlPrograms a (Some (ClaimScript ins))). reflexivity.
Qed.

Lemma claimPeginTxBody_run (a : API W Action SignFn) (ins : ClaimRequest)
      (s : St W Action) :
  exists added,
    trace (snd (claimPeginTxBody' a ins s)) = trace s ++ added
    /\ Forall (claimEvent ins) added
    /\ forall resp, fst (claimPeginTxBody' a ins s) = Ok resp ->
          In (EvFinalizeTx (RawTx ins)) added /\
          exists w w' rawTx',
            FinalizeTx (RawTx ins) w = (None, rawTx', w') /\ TxID resp = ID rawTx'.
Proof.
  unfold claimPeginTxBody. run_unfold.
  pose proof (resolveClaimTarget_state a ins s) as Hs0.
  destruct (resolveClaimTarget a ins s) as [[[[address controlProg] nOut]|e|f] s0];
    simpl in Hs0; subst s0; run_unfold; [|exists (@nil (event Action)); stop_run..].
  destruct (nOut =? _); run_unfold; [exists (@nil (event Action)); stop_run|].
  destruct (DB_Get a _ (world s)) as [data|]; run_unfold;
    [|exists (@nil (event Action)); stop_run].
  destruct (json_Unmarshal_CtrlProgram data) as [e|cp]; run_unfold;
    [exists (@nil (event Action)); stop_run|].
  destruct (synthesizeBuildRequest_run a ins nOut cp s) as [Ht1 Hreq].
  destruct (synthesizeBuildRequest a ins nOut cp s) as [[req|e|f] s1];
    cbn [fst snd] in *; run_unfold;
    [|exists (@nil (event Action)); rewrite Ht1; stop_run..].
  destruct (Hreq req eq_refl) as (l & m & Hacts & Hl & Htag & Hacc & output & Hout & Hamt).
  destruct (buildSingle_run a req s1) as (added1 & Ht2 & Hb).
  assert (Hfirst : @claimEvent Action ins (EvBuildSingle req (deref (heap s1) <$> Actions req))).
  { exists l, m, output. rewrite Hacts. cbn. unfold deref. rewrite Hl. cbn.
    repeat split; try assumption. eapply list_elem_of_lookup_2, Hout. }
  assert (Hb' : Forall (claimEvent ins) added1).
  { eapply List.Forall_impl; [|exact Hb]. intros [] H; simpl in *; tauto. }
  destruct (buildSingle' a req s1) as [[tmpl|e|f] s2]; cbn [fst snd] in *; run_unfold.
  - destruct (finishClaim_run a ins nOut tmpl s2) as (added2 & Ht3 & Hf & Hok).
    exists (EvBuildSingle req (deref (heap s1) <$> Actions req) :: added1 ++ added2).
    split; [|split].
    + rewrite Ht3, Ht2, Ht1, <- app_assoc. reflexivity.
    + apply List.Forall_cons; [exact Hfirst|]. apply Forall_app. split; [exact Hb'|].
      eapply List.Forall_impl; [|exact Hf]. intros [] H; simpl in *; tauto.
    + intros resp Hr. destruct (Hok resp Hr) as [Hin Hw]. split; [|exact Hw].
      right. apply in_or_app. right. exact Hin.
  - exists (EvBuildSingle req (deref (heap s1) <$> Actions req) :: added1).
    split; [rewrite Ht2, Ht1; reflexivity|].
    split; [apply List.Forall_cons; assumption | discriminate].
  - exists (EvBuildSingle req (deref (heap s1) <$> Actions req) :: added1).
    split; [rewrite Ht2, Ht1; reflexivity|].
    split; [apply List.Forall_cons; assumption | discriminate].
Qed.

(** How the tail of a claim ends (lines 357-389): before the submission,
    with no result, having logged nothing or the signature; or past the
    signature, which was asked on the template of the builder with the
    witness stack on its first input, in the world the tail started in, and
    returned no error: then [txbuilder.FinalizeTx] was run on the raw parent
    transaction in the world the signer left, its error or the identifier
    the transaction holds after the call is the result, and the world it
    left is the final one. *)
Lemma finishClaim_path (a : API W Action SignFn) (ins : ClaimRequest) (nOut : Z)
      (tmpl : Template) (s : St W Action) :
  ((forall r, fst (finishClaim' a ins nOut tmpl s) <> Ok r)
   /\ (trace (snd (finishClaim' a ins nOut tmpl s)) = trace s
       \/ exists t, trace (snd (finishClaim' a ins nOut tmpl s))
                    = trace s ++ [EvSign t (Password ins)]))
  \/ exists output tmpl' w1 err rawTx' w2,
       Outputs (RawTx ins) !! Z.to_nat nOut = Some output
       /\ markPegin tmpl [ Some (pretty (Z.to_N (Amount output)));
                           Some ParentGenesisBlockHash;
                           Some (ClaimScript ins);
                           json_Marshal_Tx (RawTx ins);
                           Some (TxOutProof ins) ] = Some tmpl'
       /\ Sign tmpl' (Password ins) (PseudohsmSignTemplate a) (world s) = (None, w1)
       /\ FinalizeTx (RawTx ins) w1 = (err, rawTx', w2)
       /\ finishClaim' a ins nOut tmpl s
          = (match err with
             | Some e => Err e
             | None => Ok {| TxID := ID rawTx' |}
             end,
             {| heap := heap s; world := w2;
                trace := trace s ++ [EvSign tmpl' (Password ins);
                                     EvFinalizeTx (RawTx ins)] |}).
Proof.
  unfold finishClaim. run_unfold.
  destruct (outputAmount_run (RawTx ins) nOut s) as [(o & Ho & ->) | ->]; run_unfold;
    [|left; split; [discriminate | left; reflexivity]].
  destruct (markPegin tmpl _) as [tmpl'|] eqn:Hmark; run_unfold;
    [|left; split; [discriminate | left; reflexivity]].
  destruct (Sign tmpl' (Password ins) (PseudohsmSignTemplate a) (world s)) as [[e|] w1]
    eqn:HS; run_unfold.
  - left. split; [discriminate | right; exists tmpl'; reflexivity].
  - right. destruct (FinalizeTx (RawTx ins) w1) as [[err rawTx'] w2] eqn:HF.
    exists o, tmpl', w1, err, rawTx', w2.
    split; [exact Ho|]. split; [exact Hmark|]. split; [exact HS|].
    split; [exact HF|].
    destruct err as [e|]; run_unfold; rewrite <- app_assoc; reflexivity.
Qed.

(** A run of the claim that logs the submission went all the way: the
    template builder returned a template, the signer was asked on that
    template with the witness stack on its first input, in the world the
    builder left, and returned no error, and [txbuilder.FinalizeTx] was run
    on the raw parent transaction in the world the signer left. *)
Lemma claimPeginTxBody_path (a : API W Action SignFn) (ins : ClaimRequest)
      (s : St W Action) (added : list (event Action)) :
  trace (snd (claimPeginTxBody' a ins s)) = trace s ++ added ->
  In (EvFinalizeTx (RawTx ins)) added ->
  exists req s1 tmpl s2 output tmpl' w1 err rawTx',
    trace s1 = trace s
    /\ buildSingle' a req s1 = (Ok tmpl, s2)
    /\ output ∈ Outputs (RawTx ins)
    /\ markPegin tmpl [ Some (pretty (Z.to_N (Amount output)));
                        Some ParentGenesisBlockHash;
                        Some (ClaimScript ins);
                        json_Marshal_Tx (RawTx ins);
                        Some (TxOutProof ins) ] = Some tmpl'
    /\ Sign tmpl' (Password ins) (PseudohsmSignTemplate a) (world s2) = (None, w1)
    /\ FinalizeTx (RawTx ins) w1
       = (err, rawTx', world (snd (claimPeginTxBody' a ins s)))
    /\ heap (snd (claimPeginTxBody' a ins s)) = heap s2
    /\ trace (snd (claimPeginTxBody' a ins s))
       = trace s2 ++ [EvSign tmpl' (Password ins); EvFinalizeTx (RawTx ins)]
    /\ fst (claimPeginTxBody' a ins s)
       = match err with
         | Some e => Err e
         | None => Ok {| TxID := ID rawTx' |}
         end.
Proof.
  intros Ht Hin.
  assert (Hstop : trace (snd (claimPeginTxBody' a ins s)) = trace s -> False).
  { intros H. rewrite H in Ht. rewrite <- (app_nil_r (trace s)) in Ht at 1.
    apply app_inv_head in Ht. subst added. destruct Hin. }
  revert Ht Hstop. unfold claimPeginTxBody. run_unfold.
  pose proof (resolveClaimTarget_state a ins s) as Hs0.
  destruct (resolveClaimTarget a ins s) as [[[[address controlProg] nOut]|e|f] s0];
    simpl in Hs0; subst s0; run_unfold;
    [|intros _ Hstop; exfalso; apply Hstop; reflexivity..].
  destruct (nOut =? _); run_unfold; [intros _ Hstop; exfalso; apply Hstop; reflexivity|].
  destruct (DB_Get a _ (world s)) as [data|]; run_unfold;
    [|intros _ Hstop; exfalso; apply Hstop; reflexivity].
  destruct (json_Unmarshal_CtrlProgram data) as [e|cp]; run_unfold;
    [intros _ Hstop; exfalso; apply Hstop; reflexivity|].
  destruct (synthesizeBuildRequest_run a ins nOut cp s) as [Ht1 _].
  destruct (synthesizeBuildRequest a ins nOut cp s) as [[req|e|f] s1];
    cbn [fst snd] in *; run_unfold;
    [|intros _ Hstop; exfalso; apply Hstop; exact Ht1..].
  destruct (buildSingle_run a req s1) as (added1 & Ht2 & Hb).
  assert (Hnb : forall l, Forall (fun ev : event Action => isBuildCall ev \/ exists t p, ev = EvSign t p) l ->
                          ~ In (EvFinalizeTx (RawTx ins)) l).
  { intros l Hl Hi. rewrite List.Forall_forall in Hl. destruct (Hl _ Hi) as [H|(t & p & H)];
      [exact H | discriminate]. }
  assert (Hb' : Forall (fun ev : event Action => isBuildCall ev \/ exists t p, ev = EvSign t p)
                       added1).
  { eapply List.Forall_impl; [|exact Hb]. intros ev H. left. exact H. }
  destruct (buildSingle' a req s1) as [[tmpl|e|f] s2] eqn:Hbs; cbn [fst snd] in *;
    run_unfold.
  2,3: intros Ht _; rewrite Ht2, Ht1 in Ht; apply app_inv_head in Ht; subst added;
       destruct Hin as [Hin|Hin]; [discriminate | exfalso; exact (Hnb _ Hb' Hin)].
  destruct (finishClaim_path a ins nOut tmpl s2)
    as [[_ [Ht3 | [t Ht3]]] | (o & tmpl' & w1 & err & rawTx' & w2 & Ho & Hm & HS & HF & HR)].
  - intros Ht _. rewrite Ht3, Ht2, Ht1 in Ht. apply app_inv_head in Ht. subst added.
    destruct Hin as [Hin|Hin]; [discriminate | exfalso; exact (Hnb _ Hb' Hin)].
  - intros Ht _. rewrite Ht3, Ht2, Ht1, <- app_assoc in Ht. apply app_inv_head in Ht.
    subst added. destruct Hin as [Hin|Hin]; [discriminate|].
    apply in_app_or in Hin as [Hin|[Hin|[]]]; [exfalso; exact (Hnb _ Hb' Hin) | discriminate].
  - intros _ _. exists req, s1, tmpl, s2, o, tmpl', w1, err, rawTx'.
    rewrite HR. cbn [fst snd heap world trace].
    split; [exact Ht1|]. split; [exact Hbs|].
    split; [eapply list_elem_of_lookup_2, Ho|]. split; [exact Hm|].
    split; [exact HS|]. split; [exact HF|]. repeat split.
Qed.

(** C9.  In every run of [claimPeginTx], whatever is handed to
    [txbuilder.FinalizeTx] is the raw parent transaction of the request
    itself, never the transaction of the template just built and signed; and
    when the run answers with success, the finalize step was reached on that
    transaction and the hash returned is the identifier the same object
    holds after the call.  A run that reaches the finalize step went all the
    way: the template that [buildSingle] returned was signed, with the
    witness stack on its first input, in the world the builder left, and
    without error; [txbuilder.FinalizeTx] was then run on the raw parent
    transaction in the world the signer left; the world it left is the
    final one, and the answer is its error or, with none, the identifier the
    parent transaction holds after the call. *)
Theorem claimPeginTx_submits_parent (a : API W Action SignFn) (ins : ClaimRequest)
        (s : St W Action) :
  exists added,
    trace (snd (claimPeginTx' a ins s)) = trace s ++ added
    /\ (forall tx, In (EvFinalizeTx tx) added -> tx = RawTx ins)
    /\ (forall resp,
          fst (claimPeginTx' a ins s) = Ok (SuccessResponse resp) ->
          In (EvFinalizeTx (RawTx ins)) added /\
          exists w w' rawTx',
            FinalizeTx (RawTx ins) w = (None, rawTx', w') /\ TxID resp = ID rawTx')
    /\ (In (EvFinalizeTx (RawTx ins)) added ->
        exists req s1 tmpl s2 output tmpl' w1 err rawTx',
          trace s1 = trace s
          /\ buildSingle' a req s1 = (Ok tmpl, s2)
          /\ output ∈ Outputs (RawTx ins)
          /\ markPegin tmpl [ Some (pretty (Z.to_N (Amount output)));
                              Some ParentGenesisBlockHash;
                              Some (ClaimScript ins);
                              json_Marshal_Tx (RawTx ins);
                              Some (TxOutProof ins) ] = Some tmpl'
          /\ Sign tmpl' (Password ins) (PseudohsmSignTemplate a) (world s2) = (None, w1)
          /\ FinalizeTx (RawTx ins) w1
             = (err, rawTx', world (snd (claimPeginTx' a ins s)))
          /\ heap (snd (claimPeginTx' a ins s)) = heap s2
          /\ trace (snd (claimPeginTx' a ins s))
             = trace s2 ++ [EvSign tmpl' (Password ins); EvFinalizeTx (RawTx ins)]
          /\ fst (claimPeginTx' a ins s)
             = Ok (match err with
                   | Some e => ErrorResponse e
                   | None => SuccessResponse {| TxID := ID rawTx' |}
                   end)).
Proof.
  destruct (claimPeginTxBody_run a ins s) as (added & Ht & Hev & Hok).
  pose proof (claimPeginTxBody_path a ins s added Ht) as Hpath.
  exists added. unfold claimPeginTx.
  assert (Hfin : forall tx, In (EvFinalizeTx tx) added -> tx = RawTx ins).
  { intros tx Hin. rewrite List.Forall_forall in Hev. exact (Hev _ Hin). }
  destruct (claimPeginTxBody' a ins s) as [[r|e|f] s'] eqn:Hbody; cbn [fst snd] in *;
    (split; [exact Ht|]); (split; [exact Hfin|]); split.
  - intros resp [= <-]. apply Hok. reflexivity.
  - intros Hin.
    destruct (Hpath Hin) as (req & s1 & tmpl & s2 & o & tmpl' & w1 & err & rawTx' &
                             H1 & H2 & H3 & H4 & H5 & H6 & H7 & H8 & H9).
    exists req, s1, tmpl, s2, o, tmpl', w1, err, rawTx'.
    repeat (split; [assumption|]). destruct err; inversion H9; reflexivity.
  - discriminate.
  - intros Hin.
    destruct (Hpath Hin) as (req & s1 & tmpl & s2 & o & tmpl' & w1 & err & rawTx' &
                             H1 & H2 & H3 & H4 & H5 & H6 & H7 & H8 & H9).
    exists req, s1, tmpl, s2, o, tmpl', w1, err, rawTx'.
    repeat (split; [assumption|]). destruct err; inversion H9; reflexivity.
  - discriminate.
  - intros Hin.
    destruct (Hpath Hin) as (req & s1 & tmpl & s2 & o & tmpl' & w1 & err & rawTx' &
                             H1 & H2 & H3 & H4 & H5 & H6 & H7 & H8 & H9).
    exists req, s1, tmpl, s2, o, tmpl', w1, err, rawTx'.
    repeat (split; [assumption|]). destruct err; inversion H9; reflexivity.
Qed.

(** The build request of a claim, in general (C3): whenever [claimPeginTx]
    reaches the template builder, the three actions of the request are one
    location, and the map read there is tagged [control_address], holds the
    amount of an output of the parent transaction, and has no account. *)
Lemma claimPeginTx_build_request (a : API W Action SignFn) (ins : ClaimRequest)
      (s : St W Action) :
  exists added,
    trace (snd (claimPeginTx' a ins s)) = trace s ++ added
    /\ forall req acts, In (EvBuildSingle req acts) added ->
         exists l m output,
           Actions req = [l; l; l] /\ acts = [m; m; m]
           /\ typeTag m = Some "control_address"%string
           /\ m !! "account_id"%string = None
           /\ output ∈ Outputs (RawTx ins)
           /\ m !! "amount"%string = Some (VUint64 (Amount output)).
Proof.
  destruct (claimPeginTxBody_run a ins s) as (added & Ht & Hev & _).
  exists added. unfold claimPeginTx.
  assert (H : forall req acts, In (EvBuildSingle req acts) added ->
                            @claimEvent Action ins (EvBuildSingle req acts)).
  { intros req acts Hin. rewrite List.Forall_forall in Hev. exact (Hev _ Hin). }
  destruct (claimPeginTxBody' a ins s) as [[r|e|f] s']; cbn [fst snd] in *;
    (split; [exact Ht | exact H]).
Qed.

Lemma countInputActions_all (h : gmap loc (gmap string Value)) (acts : list loc) :
  Forall (fun l => exists t, typeTag (deref h l) = Some t /\
                     (String.prefix "spend" t || String.eqb t "issue") = true) acts ->
  forall i count, countInputActions h i acts count = inr (count + Z.of_nat (length acts)).
Proof.
  induction 1 as [|l acts (t & Ht & Hin) _ IH]; intros i count; simpl.
  - f_equal. lia.
  - rewrite Ht, Hin, IH. f_equal. lia.
Qed.

(** C8, as amended.  Once the aliases of a request are resolved without
    error (step 1, which gates the rest: when it fails, its error is what
    [buildSingle] returns), if every action carries a type tag that starts
    with ["spend"] or
    is ["issue"] (so none is an output action; the recognized tags
    [spend_account], [spend_account_unspent_output] and [issue] are of that
    kind), [buildSingle] fails with the error [ErrBadActionConstruction] and
    logs nothing after its own call: the external builder is not invoked. *)
Theorem buildSingle_rejects_input_only (a : API W Action SignFn) (req : BuildRequest)
        (s : St W Action) (h : gmap loc (gmap string Value)) (w : W) :
  completeMissingIDs a req (heap s) (world s) = (None, h, w) ->
  Forall (fun l => exists t, typeTag (deref h l) = Some t /\
                     (String.prefix "spend" t || String.eqb t "issue") = true)
         (Actions req) ->
  fst (buildSingle' a req s)
  = Err (errors_WithDetail (rootError ErrBadActionConstruction)
           "transaction contains only input actions and no output actions")
  /\ trace (snd (buildSingle' a req s))
     = trace s ++ [EvBuildSingle req (deref (heap s) <$> Actions req)].
Proof.
  intros Hc Hall. unfold buildSingle. run_unfold. rewrite Hc. run_unfold.
  unfold onlyHaveInputActions. rewrite (countInputActions_all h _ Hall).
  rewrite Z.add_0_l, Z.eqb_refl. split; reflexivity.
Qed.

(** ** The scan for the claim target *)


Lemma outputIndexFrom_none (outputs : list TxOutput) (prog : option string) :
  Forall (fun o => bytes_Equal (ControlProgram o) prog = false) outputs ->
  forall start, outputIndexFrom start outputs prog = 0.
Proof.
  induction 1 as [|o outputs Ho _ IH]; intros start; simpl; [reflexivity|].
  rewrite Ho. apply IH.
Qed.

Lemma scan_skips (a : API W Action SignFn) (rawTx : Tx) (post : list CtrlProgram) :
  Forall (fun c => snd (GetPeginControlPrograms a (CP_ControlProgram c)) = None) post ->
  forall acc, snd (fold_left (scanStep a rawTx) post acc) = snd acc.
Proof.
  induction 1 as [|c post Hc _ IH]; intros acc; simpl; [reflexivity|].
  rewrite IH. unfold scanStep.
  destruct (GetPeginControlPrograms a (CP_ControlProgram c)) as [address prog].
  simpl in Hc. subst prog. reflexivity.
Qed.


(** The guard of line 312 with an explicit claim script (C1): when the peg
    control program of the script matches no output of a parent transaction
    that has outputs, the guard does not fire; the run goes on to the
    contract lookup, and where that finds nothing the answer is the
    contract error, not the output one. *)
Lemma claimPeginTx_unmatched_passes_guard (a : API W Action SignFn)
      (ins : ClaimRequest) (s : St W Action) (address : string)
      (controlProg : option string) :
  ClaimScript ins <> ""%string ->
  GetPeginControlPrograms a (Some (ClaimScript ins)) = (address, controlProg) ->
  Forall (fun o => bytes_Equal (ControlProgram o) controlProg = false)
         (Outputs (RawTx ins)) ->
  Outputs (RawTx ins) <> [] ->
  DB_Get a (ContractKey (Sum256 (ClaimScript ins))) (world s) = None ->
  claimPeginTx' a ins s
  = (Ok (ErrorResponse
           (errors_New "Failed to find control program through claim script")), s).
Proof.
  intros Hscript Hpeg Hnone Hout Hdb.
  unfold claimPeginTx, claimPeginTxBody, resolveClaimTarget.
  apply String.eqb_neq in Hscript. rewrite Hscript, Hpeg. run_unfold.
  unfold getPeginTxnOutputIndex. rewrite (outputIndexFrom_none _ _ Hnone).
  destruct (Outputs (RawTx ins)) as [|o outputs]; [congruence|].
  change (0 =? Z.of_nat (length (o :: outputs))) with false. run_unfold.
  rewrite Hdb. reflexivity.
Qed.

End ApiFacts.

(** ** Concrete runs, with the sample wallet service *)

(** C1, at a request the interface can receive: claim script ["C"], whose
    peg control program matches none of the three outputs of the parent
    transaction.  [getPeginTxnOutputIndex] answers 0, which is not the
    number of outputs, so the test of line 312 passes: the claim is built,
    signed and submitted, and the answer is a success. *)
Lemma claimPeginTx_unmatched_script_proceeds :
  Forall (fun o => bytes_Equal (ControlProgram o) (Some "peg:C"%string) = false)
         (Outputs Sample.parentTx)
  /\ fst (resolveClaimTarget (Sample.api None []) (Sample.claimRequest "C") Sample.initial)
     = Ok ("pegaddr"%string, Some "peg:C"%string, 0)
  /\ fst (Sample.claimPeginTx (Sample.api None []) (Sample.claimRequest "C") Sample.initial)
     = Ok (SuccessResponse {| TxID := 42%N |})
  /\ exists req acts actions maxTime tmpl,
       trace (snd (Sample.claimPeginTx (Sample.api None []) (Sample.claimRequest "C")
                     Sample.initial))
       = [ EvBuildSingle req acts; EvBuild None actions maxTime 0;
           EvSign tmpl "pw"; EvFinalizeTx Sample.parentTx ].
Proof.
  split; [repeat (apply List.Forall_cons; [reflexivity|]); apply List.Forall_nil|].
  split; [vm_compute; reflexivity|].
  split; [vm_compute; reflexivity|].
  vm_compute. do 5 eexists. reflexivity.
Qed.

(** An output that no program matches resolves to index 0. *)
Lemma getPeginTxnOutputIndex_unmatched (rawTx : Tx) (controlProg : option string) :
  Forall (fun o => bytes_Equal (ControlProgram o) controlProg = false) (Outputs rawTx) ->
  getPeginTxnOutputIndex rawTx controlProg = 0.
Proof. intros H. apply outputIndexFrom_none, H. Qed.

(** C3, at a request whose claim script ["A"] matches the output of amount
    7: the request handed to the template builder holds three times the
    location 0, and the map read there is the [control_address] action of
    amount 7.  No action is a [spend_account] one, none has amount 0. *)
Lemma claimPeginTx_request_is_one_action :
  (exists rest,
     trace (snd (Sample.claimPeginTx (Sample.api None []) (Sample.claimRequest "A")
                   Sample.initial))
     = EvBuildSingle {| BuildTx := None; Actions := [0%N; 0%N; 0%N];
                        TTL := 0; TimeRange := 0 |}
         [Sample.claimAction 7; Sample.claimAction 7; Sample.claimAction 7] :: rest)
  /\ typeTag (Sample.claimAction 7) = Some "control_address"%string
  /\ Sample.claimAction 7 !! "amount"%string = Some (VUint64 7)
  /\ Sample.claimAction 7 !! "account_id"%string = None.
Proof.
  split; [|repeat split].
  vm_compute. eexists. reflexivity.
Qed.



(** C8, the claim as stated fails: on a request of one [spend_account]
    action, when the resolution of the aliases fails, [buildSingle] returns
    the error of the resolution, not [ErrBadActionConstruction]; the test on
    the actions is not reached.  The external builder is not invoked. *)
Lemma buildSingle_input_only_alias_failure :
  let h : gmap loc (gmap string Value) :=
    {[ 0%N := {[ "type"%string := VString "spend_account" ]} ]} in
  let s : St unit string := {| heap := h; world := tt; trace := [] |} in
  let req := {| BuildTx := None; Actions := [0%N]; TTL := 0; TimeRange := 0 |} in
  let aliasError := errors_New "alias not found" in
  Forall (fun l => exists t, typeTag (deref h l) = Some t /\
                     (String.prefix "spend" t || String.eqb t "issue") = true)
         (Actions req)
  /\ fst (Sample.buildSingle (Sample.api (Some aliasError) []) req s) = Err aliasError
  /\ fst (Sample.buildSingle (Sample.api (Some aliasError) []) req s)
     <> Err (errors_WithDetail (rootError ErrBadActionConstruction)
               "transaction contains only input actions and no output actions")
  /\ trace (snd (Sample.buildSingle (Sample.api (Some aliasError) []) req s))
     = [EvBuildSingle req [ {[ "type"%string := VString "spend_account" ]} ]].
Proof.
  intros h s req aliasError. split; [|split; [|split]].
  - apply List.Forall_cons; [|apply List.Forall_nil].
    exists "spend_account"%string. split; reflexivity.
  - reflexivity.
  - vm_compute. discriminate.
  - reflexivity.
Qed.

(** C8 as amended, at a request of one [spend_account] action whose
    aliases are resolved. *)
Lemma buildSingle_rejects_input_only_witness :
  let h : gmap loc (gmap string Value) :=
    {[ 0%N := {[ "type"%string := VString "spend_account" ]} ]} in
  let s : St unit string := {| heap := h; world := tt; trace := [] |} in
  let req := {| BuildTx := None; Actions := [0%N]; TTL := 0; TimeRange := 0 |} in
  fst (Sample.buildSingle (Sample.api None []) req s)
  = Err (errors_WithDetail (rootError ErrBadActionConstruction)
           "transaction contains only input actions and no output actions")
  /\ trace (snd (Sample.buildSingle (Sample.api None []) req s))
     = [EvBuildSingle req [ {[ "type"%string := VString "spend_account" ]} ]].
Proof.
  intros h s req.
  destruct (buildSingle_rejects_input_only unit string unit
              Sample.Error_text Sample.Decode Sample.Decode Sample.Decode
              Sample.MergeSpendAction Sample.json_Marshal Sample.time_Now Sample.Build
              (Sample.api None []) req s h tt eq_refl) as [Hr Ht].
  - apply List.Forall_cons; [|apply List.Forall_nil].
    exists "spend_account"%string. split; reflexivity.
  - split; [exact Hr|]. unfold Sample.buildSingle. rewrite Ht. reflexivity.
Defined.

(** C9, at the request of claim script ["A"]: the run succeeds, the parent
    transaction is what is finalized, after the signature of the template of
    the builder, and its identifier 42 comes back. *)
Lemma claimPeginTx_submits_parent_witness :
  fst (Sample.claimPeginTx (Sample.api None []) (Sample.claimRequest "A") Sample.initial)
  = Ok (SuccessResponse {| TxID := ID Sample.parentTx |})
  /\ exists added,
       trace (snd (Sample.claimPeginTx (Sample.api None []) (Sample.claimRequest "A")
                     Sample.initial)) = added
       /\ In (EvFinalizeTx Sample.parentTx) added
       /\ (forall tx, In (EvFinalizeTx tx) added -> tx = Sample.parentTx)
       /\ exists req s1 tmpl s2 tmpl' w1 err rawTx',
            Sample.buildSingle (Sample.api None []) req s1 = (Ok tmpl, s2)
            /\ Sample.Sign tmpl' "pw" tt (world s2) = (None, w1)
            /\ Sample.FinalizeTx Sample.parentTx w1
               = (err, rawTx',
                  world (snd (Sample.claimPeginTx (Sample.api None [])
                                (Sample.claimRequest "A") Sample.initial))).
Proof.
  unfold Sample.claimPeginTx, Sample.buildSingle.
  destruct (claimPeginTx_submits_parent unit string unit
              Sample.Error_text Sample.Decode Sample.Decode Sample.Decode
              Sample.MergeSpendAction Sample.json_Marshal Sample.time_Now Sample.Build
              Sample.Sign Sample.FinalizeTx Sample.Sum256 Sample.ContractKey
              Sample.json_Unmarshal_CtrlProgram Sample.json_Marshal_Tx
              Sample.ParentGenesisBlockHash
              (Sample.api None []) (Sample.claimRequest "A") Sample.initial)
    as (added & Ht & Hfin & Hok & Hpath).
  match goal with |- ?run = _ /\ _ =>
    assert (Hrun : run = Ok (SuccessResponse {| TxID := ID Sample.parentTx |}))
      by (vm_compute; reflexivity)
  end.
  split; [exact Hrun|].
  pose proof (proj1 (Hok {| TxID := ID Sample.parentTx |} Hrun)) as Hin.
  exists added. split; [exact Ht|]. split; [exact Hin|]. split; [exact Hfin|].
  destruct (Hpath Hin) as (req & s1 & tmpl & s2 & o & tmpl' & w1 & err & rawTx' &
                           _ & H2 & _ & _ & H5 & H6 & _).
  exists req, s1, tmpl, s2, tmpl', w1, err, rawTx'.
  split; [exact H2|]. split; [exact H5 | exact H6].
Defined.

(* ===================================================================== *)
(** * Further properties of the gas estimator *)
(* ===================================================================== *)

Lemma signSizeTotal_app l1 l2 :
  signSizeTotal (l1 ++ l2) = signSizeTotal l1 + signSizeTotal l2.
Proof. unfold signSizeTotal. rewrite fmap_app, sumZ_app. reflexivity. Qed.

(** X1.  The sign size of two lists of signing instructions put end to end
    is the 64-bit sum of their sign sizes. *)
Theorem estimateSignSize_app (l1 l2 : list SigningInstruction) :
  estimateSignSize (l1 ++ l2) = Int64.add (estimateSignSize l1) (estimateSignSize l2).
Proof. rewrite !estimateSignSize_sum, signSizeTotal_app. unwrap. Qed.

(** X2.  The sign size is 300 bytes for every signature asked for: 300 times
    the sum of the quorums of the multi-signature components, whatever their
    keys, their kind and the positions of their instructions, as long as
    that figure fits in 64 bits. *)
Theorem estimateSignSize_closed_form (sis : list SigningInstruction) :
  Int64.in_range (300 * totalQuorum sis) ->
  estimateSignSize sis = 300 * totalQuorum sis.
Proof.
  intros H. rewrite estimateSignSize_sum, signSizeTotal_quorum.
  now apply Int64Facts.wrap_small.
Qed.

Lemma p2wshGasOf_within_keys w : quorumWithinKeys w -> 0 <= p2wshGasOf w.
Proof. destruct w; simpl; lia. Qed.

Lemma sumZ_nonneg l : Forall (fun x => 0 <= x) l -> 0 <= sumZ l.
Proof. induction 1; simpl; lia. Qed.

(** X3.  The P2WSH gas of a signing instruction is not negative when every
    multi-signature component asks for a quorum between zero and the number
    of its keys, and the exact sum fits in 64 bits. *)
Theorem estimateP2WSHGas_nonneg (sigInst : SigningInstruction) :
  Forall quorumWithinKeys (WitnessComponents sigInst) ->
  Int64.in_range (sumZ (p2wshGasOf <$> WitnessComponents sigInst)) ->
  0 <= estimateP2WSHGas sigInst.
Proof.
  intros Hq Hr. rewrite (estimateP2WSHGas_exact _ Hr).
  apply sumZ_nonneg. apply Forall_fmap.
  eapply List.Forall_impl; [|exact Hq]. intros w. apply p2wshGasOf_within_keys.
Qed.

Section EstimatorMore.

Variable MarshalText : Tx -> error + string.
Variable IsP2WPKHScript : string -> bool.
Variable IsP2WSHScript : string -> bool.
Variable StorageGasRate : Z.
Variable VMGasRate : Z.

Local Abbreviation spendsP2WSH' := (spendsP2WSH IsP2WPKHScript IsP2WSHScript).
Local Abbreviation spendsP2WPKH' := (spendsP2WPKH IsP2WPKHScript).
Local Abbreviation p2wshGasAt' := (p2wshGasAt IsP2WPKHScript IsP2WSHScript).
Local Abbreviation countP2WPKH' := (countP2WPKH IsP2WPKHScript).
Local Abbreviation inputGas' := (inputGas IsP2WPKHScript IsP2WSHScript).
Local Abbreviation vmGasLoop' := (vmGasLoop IsP2WPKHScript IsP2WSHScript).
Local Abbreviation estimateGasTotals' :=
  (estimateGasTotals MarshalText IsP2WPKHScript IsP2WSHScript StorageGasRate).
Local Abbreviation EstimateTxGas' :=
  (EstimateTxGas MarshalText IsP2WPKHScript IsP2WSHScript StorageGasRate VMGasRate).
Local Abbreviation estimateTxGas' :=
  (estimateTxGas MarshalText IsP2WPKHScript IsP2WSHScript StorageGasRate VMGasRate).

Lemma spendsP2WSH_not_P2WPKH T inpID :
  spendsP2WSH' T inpID = true -> spendsP2WPKH' T inpID = false.
Proof.
  unfold spendsP2WSH, spendsP2WPKH.
  destruct (Spend _ _); [|reflexivity]. destruct (Output _ _); [|reflexivity].
  destruct (IsP2WPKHScript _); [discriminate | reflexivity].
Qed.

(** The two running totals of the loop, as 64-bit sums. *)
Lemma vmGasLoop_sums T ids : forall pos acc r,
  Int64.in_range (fst acc) -> Int64.in_range (snd acc) ->
  vmGasLoop' T pos ids acc = Ok r ->
  (Int64.in_range (fst r) /\ Int64.in_range (snd r))
  /\ fst r = Int64.wrap (fst acc + 1419 * Z.of_nat (length (List.filter (spendsP2WPKH' T) ids)))
  /\ snd r = Int64.wrap (snd acc + sumZ (imap (fun i => p2wshGasAt' T (pos + i)) ids)).
Proof.
  induction ids as [|x ids IH]; intros pos acc r Hf Hs.
  - simpl. intros [= <-]. split; [split; assumption|].
    rewrite !Z.add_0_r, !Int64Facts.wrap_small by assumption. split; reflexivity.
  - cbn [vmGasLoop]. rewrite imap_cons, sumZ_cons. cbn [List.filter].
    unfold p2wshGasAt at 1. rewrite Nat.add_0_r.
    destruct (spendsP2WSH' T x) eqn:E.
    + rewrite (inputGas_P2WSH _ _ _ _ _ _ E), (spendsP2WSH_not_P2WPKH _ _ E).
      destruct (SigningInstructions T !! pos) as [si|]; [|discriminate].
      intros H. apply IH in H; cbn [fst snd] in *;
        [|assumption|apply Int64Facts.wrap_in_range].
      destruct H as (Hr & H1 & H2). split; [exact Hr|]. split; [exact H1|].
      rewrite H2. unfold Int64.add. rewrite Int64Facts.wrap_add_l.
      apply (f_equal Int64.wrap).
      rewrite (imap_ext (λ i, p2wshGasAt' T (S pos + i)) ((λ i, p2wshGasAt' T (pos + i)) ∘ S)).
      * ring.
      * intros i y _. simpl. f_equal. lia.
    + rewrite (inputGas_other _ _ _ _ _ _ E).
      intros H. apply IH in H; cbn [fst snd] in *.
      * destruct H as (Hr & H1 & H2). split; [exact Hr|].
        split.
        -- rewrite H1. destruct (spendsP2WPKH' T x).
           ++ unfold Int64.add. rewrite Int64Facts.wrap_add_l.
              apply (f_equal Int64.wrap). cbn [length]. lia.
           ++ reflexivity.
        -- rewrite H2. apply (f_equal Int64.wrap).
           rewrite (imap_ext (λ i, p2wshGasAt' T (S pos + i)) ((λ i, p2wshGasAt' T (pos + i)) ∘ S)).
           ++ ring.
           ++ intros i y _. simpl. f_equal. lia.
      * destruct (spendsP2WPKH' T x); [apply Int64Facts.wrap_in_range | assumption].
      * assumption.
Qed.

(** X4.  When [EstimateTxGas] comes to its gas totals, the P2WPKH gas is
    1419 for every input that spends a P2WPKH output, and the P2WSH gas is
    the sum, over the inputs that spend a P2WSH output, of the P2WSH gas of
    the signing instruction found at the position of the input in the input
    list (inputs that are passed over count in that position; the field
    [Position] of the instruction is not read); both sums are 64-bit. *)
Theorem vm_gas_by_position (T : Template) (g : GasTotals) :
  estimateGasTotals' T = Ok g ->
  totalP2WPKHGas g = Int64.wrap (1419 * countP2WPKH' T)
  /\ totalP2WSHGas g
     = Int64.wrap (sumZ (imap (p2wshGasAt' T) (InputIDs (Transaction T)))).
Proof.
  intros Hg. apply estimateGasTotals_Ok in Hg as (data & _ & _ & _ & Hl).
  apply vmGasLoop_sums in Hl as (_ & H1 & H2); try apply zero_in_range.
  cbn [fst snd] in *. rewrite H1, H2. split; reflexivity.
Qed.

Lemma sumZ_imap_zero (A : Type) (P : A -> Prop) (l : list A) :
  Forall P l ->
  forall f : nat -> A -> Z, (forall i x, P x -> f i x = 0) -> sumZ (imap f l) = 0.
Proof.
  induction 1 as [|x l Hx _ IH]; intros f Hf; [reflexivity|].
  rewrite imap_cons, sumZ_cons, (Hf _ _ Hx), IH; [reflexivity|].
  intros i y Hy. apply Hf, Hy.
Qed.

Lemma p2wshGasAt_none T ids :
  Forall (fun inpID => spendsP2WSH' T inpID = false) ids ->
  forall pos, sumZ (imap (fun i => p2wshGasAt' T (pos + i)) ids) = 0.
Proof.
  intros H pos. apply (sumZ_imap_zero _ _ _ H).
  intros i x Hx. unfold p2wshGasAt. now rewrite Hx.
Qed.

(** X5.  On a template none of whose inputs spends a P2WSH output, the loop
    over the inputs reads no signing instruction: there is no index fault
    however few signing instructions the template has, none at all
    included.  The entries of the instruction list being non-nil, as the
    conventions of this file have it (a nil entry, which line 246
    dereferences, is outside the model), once the data is encoded and the
    storage gas fits in 64 bits, figures come back, and the vm fee is 1419
    times the number of P2WPKH inputs times the vm-gas rate, as a 64-bit
    product. *)
Theorem EstimateTxGas_without_P2WSH (T : Template) (data : string) :
  MarshalText (Transaction T) = inr data ->
  Int64.in_range (Int64.add (Z.of_nat (String.length data))
                            (estimateSignSize (SigningInstructions T))
                  * StorageGasRate) ->
  Forall (fun inpID => spendsP2WSH' T inpID = false) (InputIDs (Transaction T)) ->
  exists resp,
    EstimateTxGas' T = Ok resp
    /\ VMNeu resp = Int64.wrap (1419 * countP2WPKH' T * VMGasRate).
Proof.
  intros Hdata Hr Hno.
  destruct (vmGasLoop_total IsP2WPKHScript IsP2WSHScript T (InputIDs (Transaction T))
              0%nat (0, 0)) as [[x y] Hl].
  { intros i inpID Hi Hs. rewrite Forall_forall in Hno.
    rewrite (Hno inpID) in Hs; [discriminate|]. eapply list_elem_of_lookup_2, Hi. }
  pose proof (vmGasLoop_sums T _ 0%nat (0, 0) (x, y) zero_in_range zero_in_range Hl)
    as (_ & H1 & H2).
  cbn [fst snd] in H1, H2.
  rewrite (p2wshGasAt_none T _ Hno 0%nat) in H2.
  unfold EstimateTxGas, estimateGasTotals. rewrite Hdata. unfold MulInt64.
  rewrite (proj2 (Int64Facts.in_rangeb_spec _) Hr), Hl.
  eexists. split; [reflexivity|].
  cbn [feeFigures VMNeu totalP2WPKHGas totalP2WSHGas]. rewrite H1, H2.
  unfold countP2WPKH. unwrap.
Qed.

(** X6.  When the three gas totals are not negative, the vm-gas rate is
    positive and the product of the total gas and the rate is at most
    [2^53], the total fee is a multiple of 100000 that is at least the sum
    of the storage fee and the vm fee and exceeds it by less than 100000. *)
Theorem total_fee_brackets_sub_fees (T : Template) (g : GasTotals) :
  estimateGasTotals' T = Ok g ->
  0 <= totalTxSizeGas g -> 0 <= totalP2WPKHGas g -> 0 <= totalP2WSHGas g ->
  0 < VMGasRate ->
  (totalTxSizeGas g + totalP2WPKHGas g + totalP2WSHGas g) * VMGasRate <= 2 ^ 53 ->
  exists resp,
    EstimateTxGas' T = Ok resp
    /\ TotalNeu resp mod 100000 = 0
    /\ StorageNeu resp + VMNeu resp <= TotalNeu resp
    /\ TotalNeu resp < StorageNeu resp + VMNeu resp + 100000.
Proof.
  intros Hg Hs Hp Hw Hrate HX.
  unfold EstimateTxGas. rewrite Hg. eexists. split; [reflexivity|].
  set (a := totalTxSizeGas g) in *. set (b := totalP2WPKHGas g) in *.
  set (c := totalP2WSHGas g) in *.
  assert (Hsum : a + b + c <= 2 ^ 53) by nia.
  assert (Hab : (a + b) * VMGasRate <= 2 ^ 53) by nia.
  assert (Hbc : (b + c) * VMGasRate <= 2 ^ 53) by nia.
  assert (Ha : a * VMGasRate <= 2 ^ 53) by nia.
  assert (R : forall z, 0 <= z <= 2 ^ 54 -> Int64.wrap z = z).
  { intros z Hz. apply Int64Facts.wrap_small.
    unfold Int64.in_range, Int64.min_int, Int64.max_int. lia. }
  assert (Htot : totalGas g = a + b + c).
  { unfold totalGas, Int64.add. fold a b c. rewrite (R (a + b)) by lia. apply R. lia. }
  unfold feeFigures. cbn [TotalNeu StorageNeu VMNeu]. fold a b c.
  rewrite Htot. unfold Int64.mul, Int64.add.
  assert (H0 : 0 <= (a + b + c) * VMGasRate) by nia.
  rewrite (R ((a + b + c) * VMGasRate)) by lia.
  rewrite ceil_of_quotient_le by lia.
  rewrite to_int64_defaultBaseRate.
  pose proof (ceilDiv_spec ((a + b + c) * VMGasRate)) as Hc.
  rewrite (R (b + c)) by lia. rewrite (R (a * VMGasRate)), (R ((b + c) * VMGasRate)) by nia.
  rewrite (R (_ * 100000)) by lia.
  split; [apply Z_mod_mult|]. lia.
Qed.

(** X7.  The estimate endpoint answers with an error in two cases only, and
    in them always: the encoding of the transaction data fails, with the
    error of the encoder; or the storage gas product leaves the 64-bit
    range, with the math error, which is answered before any input is
    looked at and so before a missing signing instruction can fault. *)
Theorem estimateTxGas_error_replies (T : Template) (e : error) :
  estimateTxGas' T = Ok (ErrorReply e) <->
  MarshalText (Transaction T) = inl e \/
  (e = errors_New "calculate txsize gas got a math error" /\
   exists data,
     MarshalText (Transaction T) = inr data /\
     ~ Int64.in_range (Int64.add (Z.of_nat (String.length data))
                                 (estimateSignSize (SigningInstructions T))
                       * StorageGasRate)).
Proof.
  unfold estimateTxGas, EstimateTxGas, estimateGasTotals, MulInt64.
  destruct (MarshalText (Transaction T)) as [err|data].
  - split.
    + intros [= ->]. now left.
    + intros [[= ->] | (_ & data & [=] & _)]. reflexivity.
  - destruct (Int64.in_rangeb _) eqn:R.
    + split.
      * destruct (vmGasLoop_outcome IsP2WPKHScript IsP2WSHScript T
                    (InputIDs (Transaction T)) 0%nat (0, 0)) as [[[x y] ->] | ->];
          cbv beta iota; discriminate.
      * intros [[=] | (_ & d & [= <-] & Hn)].
        exfalso. apply Hn. now apply Int64Facts.in_rangeb_spec.
    + split.
      * intros [= <-]. right. split; [reflexivity|]. exists data. split; [reflexivity|].
        intros H. apply Int64Facts.in_rangeb_spec in H. congruence.
      * intros [[=] | (-> & _)]. reflexivity.
Qed.

End EstimatorMore.

(* ===================================================================== *)
(** * Further properties of the template builder *)
(* ===================================================================== *)

Lemma filter_length_forallb {A : Type} (f : A -> bool) (l : list A) :
  (length (List.filter f l) <= length l)%nat
  /\ (Z.of_nat (length (List.filter f l)) =? Z.of_nat (length l)) = forallb f l.
Proof.
  induction l as [|x l [IHle IHeq]]; [split; reflexivity|].
  cbn [List.filter forallb length]. destruct (f x); cbn [length andb].
  - split; [lia|]. rewrite <- IHeq.
    destruct (Z.eqb_spec (Z.of_nat (length (List.filter f l))) (Z.of_nat (length l)));
      [apply Z.eqb_eq | apply Z.eqb_neq]; lia.
  - split; [lia|]. apply Z.eqb_neq. lia.
Qed.

Lemma countInputActions_typed (h : gmap loc (gmap string Value)) (acts : list loc) :
  forall (tags : list string) (i : nat) (count : Z),
    (fun l => typeTag (deref h l)) <$> acts = Some <$> tags ->
    countInputActions h i acts count
    = inr (count + Z.of_nat (length (List.filter isInputAction tags))).
Proof.
  induction acts as [|l acts IH]; intros tags i count Htags.
  - destruct tags; [|discriminate]. simpl. f_equal. lia.
  - destruct tags as [|t tags]; [discriminate|].
    rewrite !fmap_cons in Htags. injection Htags as Ht Htags.
    cbn [countInputActions List.filter]. rewrite Ht.
    change (String.prefix "spend" t || String.eqb t "issue") with (isInputAction t).
    destruct (isInputAction t); rewrite (IH tags _ _ Htags); f_equal; cbn [length]; lia.
Qed.

(** X8.  On a request whose actions all carry a type tag,
    [onlyHaveInputActions] answers without error, and with [true] exactly
    when every tag starts with ["spend"] or is ["issue"]; so it does for a
    request without actions. *)
Theorem onlyHaveInputActions_typed (h : gmap loc (gmap string Value))
        (req : BuildRequest) (tags : list string) :
  (fun l => typeTag (deref h l)) <$> Actions req = Some <$> tags ->
  onlyHaveInputActions h req = inr (forallb isInputAction tags).
Proof.
  intros Htags. unfold onlyHaveInputActions.
  rewrite (countInputActions_typed h _ tags 0%nat 0 Htags), Z.add_0_l.
  assert (Hlen : length (Actions req) = length tags).
  { rewrite <- (length_fmap (fun l => typeTag (deref h l))), Htags. apply length_fmap. }
  rewrite Hlen. f_equal. apply filter_length_forallb.
Qed.

Lemma countInputActions_untyped (h : gmap loc (gmap string Value)) (pre : list loc) :
  forall (l : loc) (post : list loc) (i : nat) (count : Z),
    Forall (fun l' => is_Some (typeTag (deref h l'))) pre ->
    typeTag (deref h l) = None ->
    countInputActions h i (pre ++ l :: post) count
    = inl (errors_WithDetail (rootError ErrBadActionType)
             ("no action type provided on action " ++ pretty (i + length pre)%nat)).
Proof.
  induction pre as [|p pre IH]; intros l post i count Hpre Hl.
  - simpl. rewrite Hl, Nat.add_0_r. reflexivity.
  - apply Forall_cons in Hpre as [[t Ht] Hpre].
    cbn [app countInputActions]. rewrite Ht.
    replace (i + length (p :: pre))%nat with (S i + length pre)%nat by (cbn [length]; lia).
    destruct (_ || _); apply (IH l post _ _ Hpre Hl).
Qed.

Section BuilderMore.

Variable W : Type.
Variable Action : Type.
Variable SignFn : Type.
Variable Error_text : error -> string.
Variable DecodeControlAddressAction : string -> error + Action.
Variable DecodeControlProgramAction : string -> error + Action.
Variable DecodeRetireAction : string -> error + Action.
Variable MergeSpendAction : list Action -> list Action.
Variable json_Marshal : gmap string Value -> error + string.
Variable time_Now : W -> Z.
Variable Build :
  option Tx -> list Action -> Z -> Z -> W -> (option Template * option error) * W.

Local Abbreviation actionDecoder' :=
  (actionDecoder W Action SignFn DecodeControlAddressAction DecodeControlProgramAction
     DecodeRetireAction).
Local Abbreviation decodeActions' :=
  (decodeActions W Action SignFn Error_text DecodeControlAddressAction
     DecodeControlProgramAction DecodeRetireAction json_Marshal).
Local Abbreviation buildSingle' :=
  (buildSingle W Action SignFn Error_text DecodeControlAddressAction
     DecodeControlProgramAction DecodeRetireAction MergeSpendAction json_Marshal
     time_Now Build).
Local Abbreviation build' :=
  (build W Action SignFn Error_text DecodeControlAddressAction
     DecodeControlProgramAction DecodeRetireAction MergeSpendAction json_Marshal
     time_Now Build).

Ltac run_unfold :=
  unfold bind, ret, throw, panic, log, getHeap, getWorld, setHeap, setWorld;
  cbv beta iota zeta; cbn [fst snd heap world trace].

(** The decoders of lines 33-40: six tags and no other. *)
Lemma actionDecoder_unknown (a : API W Action SignFn) (t : string) :
  t ∉ [ "control_address"; "control_program"; "issue"; "retire"; "spend_account";
        "spend_account_unspent_output" ]%string ->
  actionDecoder' a t = None.
Proof.
  intros Hn. unfold actionDecoder.
  repeat match goal with
         | |- context [String.eqb t ?x] =>
             destruct (String.eqb_spec t x) as [->|_];
             [exfalso; apply Hn; set_solver|]
         end.
  reflexivity.
Qed.

Lemma decodeActions_app (a : API W Action SignFn) (h : gmap loc (gmap string Value))
      (pre : list loc) :
  forall (rest : list loc) (i : nat) (actions : list Action),
    decodeActions' a h i (pre ++ rest) actions
    = match decodeActions' a h i pre actions with
      | inl e => inl e
      | inr actions' => decodeActions' a h (i + length pre) rest actions'
      end.
Proof.
  induction pre as [|l pre IH]; intros rest i actions.
  - simpl. rewrite Nat.add_0_r. reflexivity.
  - cbn [app decodeActions].
    destruct (typeTag (deref h l)) as [typ|]; [|reflexivity].
    destruct (actionDecoder' a typ) as [decoder|]; [|reflexivity].
    destruct (json_Marshal (deref h l)) as [e|b]; [reflexivity|].
    destruct (decoder b) as [e|action]; [reflexivity|].
    rewrite IH. cbn [length]. replace (S i + length pre)%nat with (i + S (length pre))%nat by lia.
    reflexivity.
Qed.

(** What [buildSingle] does up to the decoding loop, when the loop fails. *)
Lemma buildSingle_decode_error (a : API W Action SignFn) (req : BuildRequest)
      (s : St W Action) (h : gmap loc (gmap string Value)) (w : W) (e : error) :
  completeMissingIDs a req (heap s) (world s) = (None, h, w) ->
  onlyHaveInputActions h req = inr false ->
  decodeActions' a h 0 (Actions req) [] = inl e ->
  buildSingle' a req s
  = (Err e, {| heap := h; world := w;
               trace := trace s ++ [EvBuildSingle req (deref (heap s) <$> Actions req)] |}).
Proof.
  intros Hc Ho Hd. unfold buildSingle. run_unfold. rewrite Hc. run_unfold.
  rewrite Ho, Hd. reflexivity.
Qed.

(** What [buildSingle] does once the actions are decoded. *)
Lemma buildSingle_after_decoding (a : API W Action SignFn) (req : BuildRequest)
      (s : St W Action) (h : gmap loc (gmap string Value)) (w : W)
      (decoded : list Action) :
  completeMissingIDs a req (heap s) (world s) = (None, h, w) ->
  onlyHaveInputActions h req = inr false ->
  decodeActions' a h 0 (Actions req) [] = inr decoded ->
  let actions := MergeSpendAction decoded in
  let maxTime := time_Now w + (if TTL req =? 0 then defaultTxTTL else TTL req) in
  let r := Build (BuildTx req) actions maxTime (TimeRange req) w in
  buildSingle' a req s
  = (match flattenBuildError (snd (fst r)) with
     | Panic f => Panic f
     | Err e => Err e
     | Ok (Some e) => Err e
     | Ok None =>
         match fst (fst r) with
         | None => Panic NilDereference
         | Some tpl => Ok tpl
         end
     end,
     {| heap := h; world := snd r;
        trace := trace s ++ [ EvBuildSingle req (deref (heap s) <$> Actions req);
                              EvBuild (BuildTx req) actions maxTime (TimeRange req) ] |}).
Proof.
  intros Hc Ho Hd actions maxTime r. subst r maxTime actions.
  unfold buildSingle. run_unfold. rewrite Hc. run_unfold. rewrite Ho, Hd. run_unfold.
  destruct (Build _ _ _ _ _) as [[tpl err] w']. run_unfold.
  rewrite <- app_assoc. cbn [app].
  destruct (flattenBuildError err) as [[e'|]|e'|f]; run_unfold; try reflexivity.
  destruct tpl; reflexivity.
Qed.

(** X9.  After alias resolution, the build endpoint answers a request
    whose action number [i] is the first without a string under ["type"]
    with the error [ErrBadActionType], detail
    ["no action type provided on action i"]; the external builder is not
    invoked, whatever the other actions are. *)
Theorem build_untyped_action (a : API W Action SignFn) (req : BuildRequest)
        (s : St W Action) (h : gmap loc (gmap string Value)) (w : W)
        (pre : list loc) (l : loc) (post : list loc) :
  completeMissingIDs a req (heap s) (world s) = (None, h, w) ->
  Actions req = pre ++ l :: post ->
  Forall (fun l' => is_Some (typeTag (deref h l'))) pre ->
  typeTag (deref h l) = None ->
  build' a req s
  = (Ok (ErrorReply
           (errors_WithDetail (rootError ErrBadActionType)
              ("no action type provided on action " ++ pretty (length pre)))),
     {| heap := h; world := w;
        trace := trace s ++ [EvBuildSingle req (deref (heap s) <$> Actions req)] |}).
Proof.
  intros Hc Hacts Hpre Hl.
  assert (Ho : onlyHaveInputActions h req
               = inl (errors_WithDetail (rootError ErrBadActionType)
                        ("no action type provided on action " ++ pretty (length pre)))).
  { unfold onlyHaveInputActions. rewrite Hacts.
    rewrite (countInputActions_untyped h pre l post 0%nat 0 Hpre Hl). reflexivity. }
  unfold build, buildSingle. run_unfold. rewrite Hc. run_unfold. rewrite Ho. reflexivity.
Qed.

(** X10.  After alias resolution, on a request that is not made of input
    actions only, when the actions before number [i] are decoded and the
    tag of action [i] is none of the six tags [control_address],
    [control_program], [issue], [retire], [spend_account] and
    [spend_account_unspent_output], the build endpoint answers with the
    error [ErrBadActionType], whose detail quotes the tag and names [i]; the
    external builder is not invoked.  The tag is one that [%q] quotes
    without escapes. *)
Theorem build_unknown_action_type (a : API W Action SignFn) (req : BuildRequest)
        (s : St W Action) (h : gmap loc (gmap string Value)) (w : W)
        (pre : list loc) (l : loc) (post : list loc) (decoded : list Action)
        (t : string) :
  completeMissingIDs a req (heap s) (world s) = (None, h, w) ->
  onlyHaveInputActions h req = inr false ->
  Actions req = pre ++ l :: post ->
  decodeActions' a h 0 pre [] = inr decoded ->
  typeTag (deref h l) = Some t ->
  quotedAsIs t = true ->
  t ∉ [ "control_address"; "control_program"; "issue"; "retire"; "spend_account";
        "spend_account_unspent_output" ]%string ->
  build' a req s
  = (Ok (ErrorReply
           (errors_WithDetail (rootError ErrBadActionType)
              ("unknown action type " ++ dquote ++ t ++ dquote ++ " on action "
                 ++ pretty (length pre)))),
     {| heap := h; world := w;
        trace := trace s ++ [EvBuildSingle req (deref (heap s) <$> Actions req)] |}).
Proof.
  intros Hc Ho Hacts Hpre Ht _ Hunknown. unfold build.
  rewrite (buildSingle_decode_error a req s h w
             (errors_WithDetail (rootError ErrBadActionType)
                ("unknown action type " ++ dquote ++ t ++ dquote ++ " on action "
                   ++ pretty (length pre))) Hc Ho); [reflexivity|].
  rewrite Hacts, decodeActions_app, Hpre. cbn [decodeActions Nat.add].
  rewrite Ht, (actionDecoder_unknown a t Hunknown). reflexivity.
Qed.

(** X11.  In the same situation, when the tag of action [i] has a decoder,
    the action is encoded and its decoder fails, the build endpoint answers
    with the error [ErrBadAction], whose detail is the text of the error of
    the decoder followed by the number [i]; the external builder is not
    invoked. *)
Theorem build_bad_action (a : API W Action SignFn) (req : BuildRequest)
        (s : St W Action) (h : gmap loc (gmap string Value)) (w : W)
        (pre : list loc) (l : loc) (post : list loc) (decoded : list Action)
        (t : string) (decoder : string -> error + Action) (b : string) (err : error) :
  completeMissingIDs a req (heap s) (world s) = (None, h, w) ->
  onlyHaveInputActions h req = inr false ->
  Actions req = pre ++ l :: post ->
  decodeActions' a h 0 pre [] = inr decoded ->
  typeTag (deref h l) = Some t ->
  actionDecoder' a t = Some decoder ->
  json_Marshal (deref h l) = inr b ->
  decoder b = inl err ->
  build' a req s
  = (Ok (ErrorReply
           (errors_WithDetail (rootError ErrBadAction)
              (Error_text err ++ " on action " ++ pretty (length pre)))),
     {| heap := h; world := w;
        trace := trace s ++ [EvBuildSingle req (deref (heap s) <$> Actions req)] |}).
Proof.
  intros Hc Ho Hacts Hpre Ht Hdec Hb Herr. unfold build.
  rewrite (buildSingle_decode_error a req s h w
             (errors_WithDetail (rootError ErrBadAction)
                (Error_text err ++ " on action " ++ pretty (length pre))) Hc Ho);
    [reflexivity|].
  rewrite Hacts, decodeActions_app, Hpre. cbn [decodeActions Nat.add].
  rewrite Ht, Hdec, Hb, Herr. reflexivity.
Qed.

(** X12.  Once the aliases are resolved, the request is not made of input
    actions only and every action is decoded, the build endpoint hands to
    the external builder the merged actions, the skeleton and the time range
    of the request, and as deadline the current time plus the TTL of the
    request, or plus five minutes (300000000000 ns) when that TTL is zero;
    when the builder returns a template and no error, the endpoint answers
    with that template. *)
Theorem build_success (a : API W Action SignFn) (req : BuildRequest)
        (s : St W Action) (h : gmap loc (gmap string Value)) (w w' : W)
        (decoded : list Action) (tpl : Template) :
  completeMissingIDs a req (heap s) (world s) = (None, h, w) ->
  onlyHaveInputActions h req = inr false ->
  decodeActions' a h 0 (Actions req) [] = inr decoded ->
  let maxTime := time_Now w + (if TTL req =? 0 then 300000000000 else TTL req) in
  Build (BuildTx req) (MergeSpendAction decoded) maxTime (TimeRange req) w
  = (Some tpl, None, w') ->
  build' a req s
  = (Ok (SuccessReply tpl),
     {| heap := h; world := w';
        trace := trace s ++ [ EvBuildSingle req (deref (heap s) <$> Actions req);
                              EvBuild (BuildTx req) (MergeSpendAction decoded) maxTime
                                (TimeRange req) ] |}).
Proof.
  intros Hc Ho Hd maxTime HB. unfold build.
  rewrite (buildSingle_after_decoding a req s h w decoded Hc Ho Hd).
  change defaultTxTTL with 300000000000. fold maxTime. rewrite HB. reflexivity.
Qed.

(** X13.  [buildSingle] invokes the external builder only when the aliases
    were resolved without error, the request is not made of input actions
    only and every one of its actions was decoded; what it hands over is
    then the skeleton and the time range of the request and the decoded
    actions once merged. *)
Theorem buildSingle_build_gate (a : API W Action SignFn) (req : BuildRequest)
        (s : St W Action) (added : list (event Action))
        (tx : option Tx) (actions : list Action) (maxTime timeRange : Z) :
  trace (snd (buildSingle' a req s)) = trace s ++ added ->
  In (EvBuild tx actions maxTime timeRange) added ->
  exists h w decoded,
    completeMissingIDs a req (heap s) (world s) = (None, h, w)
    /\ onlyHaveInputActions h req = inr false
    /\ decodeActions' a h 0 (Actions req) [] = inr decoded
    /\ tx = BuildTx req
    /\ actions = MergeSpendAction decoded
    /\ timeRange = TimeRange req.
Proof.
  intros Ht Hin.
  destruct (completeMissingIDs a req (heap s) (world s)) as [[err h] w] eqn:Hc.
  assert (Hstop : forall r : res Template * St W Action,
             buildSingle' a req s = r ->
             trace (snd r) = trace s ++ [EvBuildSingle req (deref (heap s) <$> Actions req)] ->
             False).
  { intros r Hr Hs. rewrite Hr, Hs in Ht. apply app_inv_head in Ht. subst added.
    destruct Hin as [[=]|[]]. }
  destruct err as [e|].
  { exfalso. eapply Hstop;
      [unfold buildSingle; run_unfold; rewrite Hc; run_unfold; reflexivity | reflexivity]. }
  destruct (onlyHaveInputActions h req) as [e|[|]] eqn:Ho.
  { exfalso. eapply Hstop;
      [unfold buildSingle; run_unfold; rewrite Hc; run_unfold; rewrite Ho; reflexivity
      | reflexivity]. }
  { exfalso. eapply Hstop;
      [unfold buildSingle; run_unfold; rewrite Hc; run_unfold; rewrite Ho; reflexivity
      | reflexivity]. }
  destruct (decodeActions' a h 0 (Actions req) []) as [e|decoded] eqn:Hd.
  { exfalso. eapply Hstop;
      [apply (buildSingle_decode_error a req s h w e Hc Ho Hd) | reflexivity]. }
  exists h, w, decoded. repeat (split; [reflexivity|]).
  rewrite (buildSingle_after_decoding a req s h w decoded Hc Ho Hd) in Ht.
  cbn [snd trace] in Ht. apply app_inv_head in Ht. subst added.
  destruct Hin as [[=]|[[= <- <- _ <-]|[]]]. repeat split; assumption.
Qed.

Lemma string_app_nil_r (s : string) : (s ++ "")%string = s.
Proof.
  induction s as [|c s IH]; [reflexivity|].
  change (String c (s ++ "")%string = String c s). now rewrite IH.
Qed.

Lemma string_app_assoc (a b c : string) : ((a ++ b) ++ c)%string = (a ++ (b ++ c))%string.
Proof.
  induction a as [|x a IH]; [reflexivity|].
  change (String x ((a ++ b) ++ c)%string = String x (a ++ (b ++ c))%string). now rewrite IH.
Qed.

Lemma fold_left_append (inner : list (errRoot * string)) : forall acc : string,
  fold_left (fun Errs ie => (Errs ++ snd ie)%string) inner acc
  = (acc ++ fold_right String.append "" (snd <$> inner))%string.
Proof.
  induction inner as [|ie inner IH]; intros acc.
  - simpl. symmetry. apply string_app_nil_r.
  - cbn [fold_left]. rewrite IH, fmap_cons. cbn [fold_right]. apply string_app_assoc.
Qed.

(** X14.  When the external builder fails with a per-action aggregate
    ([txbuilder.ErrAction]) that holds at least one inner error,
    [buildSingle] fails with a new error: its root is the root of the first
    inner error and its detail is the texts of all the inner errors, in
    their order, in one string; the aggregate itself is not returned, nor is
    the template. *)
Theorem buildSingle_flattens_action_errors (a : API W Action SignFn)
        (req : BuildRequest) (s : St W Action) (h : gmap loc (gmap string Value))
        (w w' : W) (decoded : list Action) (tpl : option Template) (e : error)
        (first : errRoot * string) (others : list (errRoot * string)) :
  completeMissingIDs a req (heap s) (world s) = (None, h, w) ->
  onlyHaveInputActions h req = inr false ->
  decodeActions' a h 0 (Actions req) [] = inr decoded ->
  Build (BuildTx req) (MergeSpendAction decoded)
        (time_Now w + (if TTL req =? 0 then defaultTxTTL else TTL req))
        (TimeRange req) w = (tpl, Some e, w') ->
  Root e = ErrAction ->
  DataActions e = Some (first :: others) ->
  fst (buildSingle' a req s)
  = Err {| Root := fst first;
           Detail := fold_right String.append "" (snd <$> first :: others);
           DataActions := None |}.
Proof.
  intros Hc Ho Hd HB Hroot Hdata.
  rewrite (buildSingle_after_decoding a req s h w decoded Hc Ho Hd).
  cbv zeta. rewrite HB. cbn [fst snd]. unfold flattenBuildError.
  rewrite Hroot, Hdata, fold_left_append. reflexivity.
Qed.

(** X15.  Any other error of the external builder is returned by
    [buildSingle] as it is, and so is answered by the build endpoint; a
    template that came with it is dropped. *)
Theorem build_passes_builder_error (a : API W Action SignFn)
        (req : BuildRequest) (s : St W Action) (h : gmap loc (gmap string Value))
        (w w' : W) (decoded : list Action) (tpl : option Template) (e : error) :
  completeMissingIDs a req (heap s) (world s) = (None, h, w) ->
  onlyHaveInputActions h req = inr false ->
  decodeActions' a h 0 (Actions req) [] = inr decoded ->
  Build (BuildTx req) (MergeSpendAction decoded)
        (time_Now w + (if TTL req =? 0 then defaultTxTTL else TTL req))
        (TimeRange req) w = (tpl, Some e, w') ->
  Root e <> ErrAction ->
  fst (build' a req s) = Ok (ErrorReply e).
Proof.
  intros Hc Ho Hd HB Hroot. unfold build.
  rewrite (buildSingle_after_decoding a req s h w decoded Hc Ho Hd).
  cbv zeta. rewrite HB. cbn [fst snd]. unfold flattenBuildError.
  destruct (Root e); try reflexivity. congruence.
Qed.

End BuilderMore.

(* ===================================================================== *)
(** * Further properties of the peg-in claim *)
(* ===================================================================== *)

Lemma outputIndexFrom_cases (outputs : list TxOutput) (prog : option string) :
  forall start : Z,
    (exists (i : nat) (output : TxOutput),
        outputs !! i = Some output
        /\ bytes_Equal (ControlProgram output) prog = true
        /\ (forall j o, (j < i)%nat -> outputs !! j = Some o ->
                        bytes_Equal (ControlProgram o) prog = false)
        /\ outputIndexFrom start outputs prog = start + Z.of_nat i)
    \/ (Forall (fun o => bytes_Equal (ControlProgram o) prog = false) outputs
        /\ outputIndexFrom start outputs prog = 0).
Proof.
  induction outputs as [|o outputs IH]; intros start.
  - right. split; [apply List.Forall_nil | reflexivity].
  - cbn [outputIndexFrom]. destruct (bytes_Equal (ControlProgram o) prog) eqn:E.
    + left. exists 0%nat, o. repeat split; [exact E | intros j o' Hj; lia | lia].
    + destruct (IH (start + 1)) as [(i & output & Hi & Hm & Hfirst & Hr) | [Hnone Hr]].
      * left. exists (S i), output. repeat split; [exact Hi | exact Hm | | lia].
        intros [|j] o' Hj Ho'; [injection Ho' as <-; exact E|].
        apply (Hfirst j o'); [lia | exact Ho'].
      * right. split; [apply List.Forall_cons; assumption | exact Hr].
Qed.

(** X16.  [getPeginTxnOutputIndex] answers the index of the first output
    whose control program equals the given one (a nil program being equal
    to an empty one), and 0 when there is none: the two cases give the same
    answer when the first output matches. *)
Theorem getPeginTxnOutputIndex_first_match (rawTx : Tx) (controlProg : option string) :
  (exists (i : nat) (output : TxOutput),
      Outputs rawTx !! i = Some output
      /\ bytes_Equal (ControlProgram output) controlProg = true
      /\ (forall j o, (j < i)%nat -> Outputs rawTx !! j = Some o ->
                      bytes_Equal (ControlProgram o) controlProg = false)
      /\ getPeginTxnOutputIndex rawTx controlProg = Z.of_nat i)
  \/ (Forall (fun o => bytes_Equal (ControlProgram o) controlProg = false) (Outputs rawTx)
      /\ getPeginTxnOutputIndex rawTx controlProg = 0).
Proof.
  unfold getPeginTxnOutputIndex.
  destruct (outputIndexFrom_cases (Outputs rawTx) controlProg 0)
    as [(i & output & Hi & Hm & Hfirst & Hr) | H]; [left|right; exact H].
  exists i, output. repeat split; [exact Hi | exact Hm | exact Hfirst | lia].
Qed.

Lemma getPeginTxnOutputIndex_bounds (rawTx : Tx) (controlProg : option string) :
  0 <= getPeginTxnOutputIndex rawTx controlProg
  /\ (getPeginTxnOutputIndex rawTx controlProg < Z.of_nat (length (Outputs rawTx))
      \/ Outputs rawTx = []).
Proof.
  unfold getPeginTxnOutputIndex.
  destruct (outputIndexFrom_cases (Outputs rawTx) controlProg 0)
    as [(i & output & Hi & _ & _ & ->) | [_ ->]].
  - apply lookup_lt_Some in Hi. split; [lia | left; lia].
  - split; [lia|]. destruct (Outputs rawTx); [right; reflexivity | left; cbn [length]; lia].
Qed.

(** X17.  The index that [getPeginTxnOutputIndex] answers is the number of
    outputs only for a transaction without outputs: on any other
    transaction it is the index of an output, not negative and below the
    number of outputs, whether or not that output matches. *)
Theorem getPeginTxnOutputIndex_never_length (rawTx : Tx) (controlProg : option string) :
  (getPeginTxnOutputIndex rawTx controlProg = Z.of_nat (length (Outputs rawTx))
   <-> Outputs rawTx = [])
  /\ 0 <= getPeginTxnOutputIndex rawTx controlProg
  /\ (Outputs rawTx = []
      \/ (getPeginTxnOutputIndex rawTx controlProg < Z.of_nat (length (Outputs rawTx))
          /\ exists output,
               Outputs rawTx !! Z.to_nat (getPeginTxnOutputIndex rawTx controlProg)
               = Some output)).
Proof.
  destruct (getPeginTxnOutputIndex_bounds rawTx controlProg) as [H0 [Hlt | Hnil]].
  - split; [|split; [exact H0|]].
    + split; [lia|]. intros Hnil. rewrite Hnil in Hlt. cbn [length] in Hlt. lia.
    + right. split; [exact Hlt|]. apply lookup_lt_is_Some_2. lia.
  - split; [|split; [exact H0 | left; exact Hnil]].
    split; [intros _; exact Hnil|]. intros _.
    unfold getPeginTxnOutputIndex. rewrite Hnil. reflexivity.
Qed.

Section ClaimMore.

Variable W : Type.
Variable Action : Type.
Variable SignFn : Type.
Variable Error_text : error -> string.
Variable DecodeControlAddressAction : string -> error + Action.
Variable DecodeControlProgramAction : string -> error + Action.
Variable DecodeRetireAction : string -> error + Action.
Variable MergeSpendAction : list Action -> list Action.
Variable json_Marshal : gmap string Value -> error + string.
Variable time_Now : W -> Z.
Variable Build :
  option Tx -> list Action -> Z -> Z -> W -> (option Template * option error) * W.
Variable Sign : Template -> string -> SignFn -> W -> option error * W.
Variable FinalizeTx : Tx -> W -> (option error * Tx) * W.
Variable Sum256 : string -> string.
Variable ContractKey : string -> string.
Variable json_Unmarshal_CtrlProgram : string -> error + CtrlProgram.
Variable json_Marshal_Tx : Tx -> option string.
Variable ParentGenesisBlockHash : string.
Variable FindByAlias : string -> W -> error + Account.
Variable CreatePeginAddress : string -> bool -> W -> (error + string * string) * W.

Local Abbreviation buildSingle' :=
  (buildSingle W Action SignFn Error_text DecodeControlAddressAction
     DecodeControlProgramAction DecodeRetireAction MergeSpendAction json_Marshal
     time_Now Build).
Local Abbreviation finishClaim' :=
  (finishClaim W Action SignFn Sign FinalizeTx json_Marshal_Tx ParentGenesisBlockHash).
Local Abbreviation claimPeginTxBody' :=
  (claimPeginTxBody W Action SignFn Error_text DecodeControlAddressAction
     DecodeControlProgramAction DecodeRetireAction MergeSpendAction json_Marshal
     time_Now Build Sign FinalizeTx Sum256 ContractKey json_Unmarshal_CtrlProgram
     json_Marshal_Tx ParentGenesisBlockHash).
Local Abbreviation claimPeginTx' :=
  (claimPeginTx W Action SignFn Error_text DecodeControlAddressAction
     DecodeControlProgramAction DecodeRetireAction MergeSpendAction json_Marshal
     time_Now Build Sign FinalizeTx Sum256 ContractKey json_Unmarshal_CtrlProgram
     json_Marshal_Tx ParentGenesisBlockHash).
Local Abbreviation submit' := (submit W Action FinalizeTx).
Local Abbreviation createAccountReceiver' :=
  (createAccountReceiver W Action SignFn FindByAlias).
Local Abbreviation getPeginAddress' :=
  (getPeginAddress W Action SignFn FindByAlias CreatePeginAddress).

(** The witness stack of lines 358-371, for the output [output]. *)
Local Abbreviation claimStack ins output :=
  [ Some (pretty (Z.to_N (Amount output)));
    Some ParentGenesisBlockHash;
    Some (ClaimScript ins);
    json_Marshal_Tx (RawTx ins);
    Some (TxOutProof ins) ].

Ltac run_unfold :=
  unfold bind, ret, throw, panic, log, getHeap, getWorld, setHeap, setWorld;
  cbv beta iota zeta; cbn [fst snd heap world trace].

Ltac pin_added s Ht Ht' :=
  rewrite Ht' in Ht;
  first [ apply app_inv_head in Ht
        | rewrite <- (app_nil_r (trace s)) in Ht at 1; apply app_inv_head in Ht ].

Lemma scan_bounds (a : API W Action SignFn) (rawTx : Tx) (cps : list CtrlProgram) :
  forall acc : string * option string * Z,
    0 <= snd acc <= Z.of_nat (length (Outputs rawTx)) ->
    0 <= snd (fold_left (scanStep a rawTx) cps acc) <= Z.of_nat (length (Outputs rawTx)).
Proof.
  induction cps as [|c cps IH]; intros acc Hacc; [exact Hacc|].
  cbn [fold_left]. apply IH. unfold scanStep.
  destruct (GetPeginControlPrograms a (CP_ControlProgram c)) as [address [prog|]];
    cbn [snd]; [|exact Hacc].
  destruct (getPeginTxnOutputIndex_bounds rawTx (Some prog)) as [H0 [Hlt | Hnil]]; [lia|].
  unfold getPeginTxnOutputIndex. rewrite Hnil. cbn. lia.
Qed.

Lemma resolveClaimTarget_bounds (a : API W Action SignFn) (ins : ClaimRequest)
      (s : St W Action) (address : string) (controlProg : option string) (nOut : Z) :
  fst (resolveClaimTarget a ins s) = Ok (address, controlProg, nOut) ->
  0 <= nOut <= Z.of_nat (length (Outputs (RawTx ins))).
Proof.
  unfold resolveClaimTarget.
  destruct (String.eqb (ClaimScript ins) ""); run_unfold.
  - destruct (ListControlProgram a (world s)) as [e|cps]; [discriminate|].
    cbn [fst]. intros [= H].
    pose proof (scan_bounds a (RawTx ins) cps
                  (""%string, None, Z.of_nat (length (Outputs (RawTx ins))))
                  ltac:(cbn [snd]; lia)) as Hb.
    rewrite H in Hb. exact Hb.
  - destruct (GetPeginControlPrograms a (Some (ClaimScript ins))) as [addr prog].
    cbn [fst]. intros [= _ _ <-].
    destruct (getPeginTxnOutputIndex_bounds (RawTx ins) prog) as [H0 [Hlt | Hnil]]; [lia|].
    unfold getPeginTxnOutputIndex. rewrite Hnil. cbn. lia.
Qed.

Lemma resolveClaimTarget_no_fault (a : API W Action SignFn) (ins : ClaimRequest)
      (s : St W Action) (f : fault) :
  fst (resolveClaimTarget a ins s) <> Panic f.
Proof.
  unfold resolveClaimTarget.
  destruct (String.eqb (ClaimScript ins) ""); run_unfold.
  - destruct (ListControlProgram a (world s)); discriminate.
  - destruct (GetPeginControlPrograms a (Some (ClaimScript ins))). discriminate.
Qed.

Lemma outputAmount_in_range (rawTx : Tx) (nOut : Z) (output : TxOutput) (s : St W Action) :
  0 <= nOut ->
  Outputs rawTx !! Z.to_nat nOut = Some output ->
  outputAmount W Action rawTx nOut s = (Ok (Amount output), s).
Proof.
  intros H0 Ho. unfold outputAmount.
  destruct (Z.ltb_spec nOut 0); [lia|]. rewrite Ho. reflexivity.
Qed.

(** With an index inside the outputs, the build request is made or the
    creation of the address fails; nothing is logged and nothing faults. *)
Lemma synthesizeBuildRequest_in_range (a : API W Action SignFn) (ins : ClaimRequest)
      (nOut : Z) (cp : CtrlProgram) (s : St W Action) (output : TxOutput) :
  0 <= nOut ->
  Outputs (RawTx ins) !! Z.to_nat nOut = Some output ->
  trace (snd (synthesizeBuildRequest a ins nOut cp s)) = trace s
  /\ forall f, fst (synthesizeBuildRequest a ins nOut cp s) <> Panic f.
Proof.
  intros H0 Ho.
  unfold synthesizeBuildRequest, newMap, store, remove.
  unfold bind, ret, throw, panic, log, getHeap, getWorld, setHeap, setWorld. cbn.
  rewrite !(outputAmount_in_range _ _ _ _ H0 Ho). cbn.
  destruct (CreateAddress a (AccountID cp) false (world s)) as [[err|program] w'];
    cbn; split; try reflexivity; discriminate.
Qed.

(** How a run of [buildSingle] ends: after its own call, or after the call
    of the external builder; a template comes back in the second case
    only. *)
Lemma buildSingle_cases (a : API W Action SignFn) (req : BuildRequest) (s : St W Action) :
  (trace (snd (buildSingle' a req s))
   = trace s ++ [EvBuildSingle req (deref (heap s) <$> Actions req)]
   /\ forall tpl, fst (buildSingle' a req s) <> Ok tpl)
  \/ exists tx actions maxTime timeRange,
       trace (snd (buildSingle' a req s))
       = trace s ++ [ EvBuildSingle req (deref (heap s) <$> Actions req);
                      EvBuild tx actions maxTime timeRange ].
Proof.
  unfold buildSingle. run_unfold.
  destruct (completeMissingIDs a req (heap s) (world s)) as [[err h] w].
  run_unfold.
  destruct err as [e|]; run_unfold; [left; split; [reflexivity | discriminate]|].
  destruct (onlyHaveInputActions h req) as [e|[|]]; run_unfold;
    try (left; split; [reflexivity | discriminate]).
  destruct (decodeActions _ _ _ _ _ _ _ _ _ _ _ _ _) as [e|actions]; run_unfold;
    try (left; split; [reflexivity | discriminate]).
  destruct (Build _ _ _ _ _) as [[tpl err] w'].
  run_unfold. right.
  destruct (flattenBuildError err) as [[e'|]|e'|f]; run_unfold; try destruct tpl; run_unfold;
    (do 4 eexists; rewrite <- app_assoc; reflexivity).
Qed.

(** How the tail of a claim ends (lines 357-389): with a fault before the
    signature; with the error of a failed signature; or, the signature
    made, as the submit endpoint does on the parent transaction. *)
Lemma finishClaim_cases (a : API W Action SignFn) (ins : ClaimRequest) (nOut : Z)
      (tmpl : Template) (s : St W Action) :
  (snd (finishClaim' a ins nOut tmpl s) = s
   /\ exists f, fst (finishClaim' a ins nOut tmpl s) = Panic f)
  \/ exists tmpl' output rest,
       Outputs (RawTx ins) !! Z.to_nat nOut = Some output
       /\ Inputs (Transaction tmpl')
          = {| Peginwitness := claimStack ins output; IsPegin := true |} :: rest
       /\ ((exists e w',
              Sign tmpl' (Password ins) (PseudohsmSignTemplate a) (world s) = (Some e, w')
              /\ finishClaim' a ins nOut tmpl s
                 = (Err e, {| heap := heap s; world := w';
                              trace := trace s ++ [EvSign tmpl' (Password ins)] |}))
           \/ (exists w',
                 Sign tmpl' (Password ins) (PseudohsmSignTemplate a) (world s) = (None, w')
                 /\ match finishClaim' a ins nOut tmpl s with
                    | (Ok r, s') => (Ok (SuccessResponse r), s')
                    | (Err e, s') => (Ok (ErrorResponse e), s')
                    | (Panic f, s') => (Panic f, s')
                    end
                    = submit' (RawTx ins)
                        {| heap := heap s; world := w';
                           trace := trace s ++ [EvSign tmpl' (Password ins)] |}
                 /\ trace (snd (finishClaim' a ins nOut tmpl s))
                    = trace s ++ [EvSign tmpl' (Password ins); EvFinalizeTx (RawTx ins)])).
Proof.
  unfold finishClaim. run_unfold.
  destruct (outputAmount_run W Action (RawTx ins) nOut s) as [(o & Ho & ->) | ->]; run_unfold;
    [|left; split; [reflexivity | eauto]].
  unfold markPegin.
  destruct (Inputs (Transaction tmpl)) as [|i0 rest] eqn:Hin; run_unfold;
    [left; split; [reflexivity | eauto]|].
  match goal with |- context [Sign ?t _ _ _] => set (tmpl' := t) end.
  right. exists tmpl', o, rest. split; [exact Ho|]. split; [reflexivity|].
  destruct (Sign tmpl' (Password ins) (PseudohsmSignTemplate a) (world s)) as [[e|] w'];
    run_unfold.
  - left. exists e, w'. split; reflexivity.
  - right. exists w'. split; [reflexivity|].
    unfold submit. cbn [heap world trace].
    destruct (FinalizeTx (RawTx ins) w') as [[[e|] rawTx'] w'']; run_unfold;
      rewrite <- app_assoc; split; reflexivity.
Qed.

(** The stages of a claim.  A run stops before the template builder, with
    an error and nothing logged; or in the builder, or with a fault on the
    template it returned; or on a failed signature; or it goes through the
    submission, and then ends as the submit endpoint does. *)
Lemma claimPeginTxBody_cases (a : API W Action SignFn) (ins : ClaimRequest)
      (s : St W Action) :
  (trace (snd (claimPeginTxBody' a ins s)) = trace s
   /\ exists e, fst (claimPeginTxBody' a ins s) = Err e)
  \/ (exists req acts,
        (trace (snd (claimPeginTxBody' a ins s)) = trace s ++ [EvBuildSingle req acts]
         \/ exists tx actions maxTime timeRange,
              trace (snd (claimPeginTxBody' a ins s))
              = trace s ++ [EvBuildSingle req acts; EvBuild tx actions maxTime timeRange])
        /\ forall r, fst (claimPeginTxBody' a ins s) <> Ok r)
  \/ exists req acts tx actions maxTime timeRange tmpl' output rest,
       output ∈ Outputs (RawTx ins)
       /\ Inputs (Transaction tmpl')
          = {| Peginwitness := claimStack ins output; IsPegin := true |} :: rest
       /\ ((trace (snd (claimPeginTxBody' a ins s))
            = trace s ++ [ EvBuildSingle req acts; EvBuild tx actions maxTime timeRange;
                           EvSign tmpl' (Password ins) ]
            /\ exists e w w',
                 Sign tmpl' (Password ins) (PseudohsmSignTemplate a) w = (Some e, w')
                 /\ fst (claimPeginTxBody' a ins s) = Err e)
           \/ (trace (snd (claimPeginTxBody' a ins s))
               = trace s ++ [ EvBuildSingle req acts; EvBuild tx actions maxTime timeRange;
                              EvSign tmpl' (Password ins); EvFinalizeTx (RawTx ins) ]
               /\ (exists w w',
                     Sign tmpl' (Password ins) (PseudohsmSignTemplate a) w = (None, w'))
               /\ exists s0,
                    trace s0
                    = trace s ++ [ EvBuildSingle req acts;
                                   EvBuild tx actions maxTime timeRange;
                                   EvSign tmpl' (Password ins) ]
                    /\ claimPeginTx' a ins s = submit' (RawTx ins) s0)).
Proof.
  unfold claimPeginTx, claimPeginTxBody. run_unfold.
  pose proof (resolveClaimTarget_state W Action SignFn a ins s) as Hs0.
  pose proof (resolveClaimTarget_bounds a ins s) as Hbound.
  pose proof (resolveClaimTarget_no_fault a ins s) as Hnf.
  destruct (resolveClaimTarget a ins s) as [[[[address controlProg] nOut]|e|f] s0];
    simpl in Hs0; subst s0; run_unfold.
  2: { left. split; [reflexivity | eauto]. }
  2: { exfalso. exact (Hnf f eq_refl). }
  specialize (Hbound address controlProg nOut eq_refl).
  destruct (Z.eqb_spec nOut (Z.of_nat (length (Outputs (RawTx ins))))) as [Heq|Hne];
    run_unfold; [left; split; [reflexivity | eauto]|].
  destruct (DB_Get a _ (world s)) as [data|]; run_unfold;
    [|left; split; [reflexivity | eauto]].
  destruct (json_Unmarshal_CtrlProgram data) as [e|cp]; run_unfold;
    [left; split; [reflexivity | eauto]|].
  destruct (lookup_lt_is_Some_2 (Outputs (RawTx ins)) (Z.to_nat nOut)) as [output Hout];
    [lia|].
  destruct (synthesizeBuildRequest_in_range a ins nOut cp s output ltac:(lia) Hout)
    as [Ht1 Hnp].
  destruct (synthesizeBuildRequest a ins nOut cp s) as [[req|e|f] s1];
    cbn [fst snd] in *; run_unfold.
  2: { left. split; [exact Ht1 | eauto]. }
  2: { exfalso. exact (Hnp f eq_refl). }
  right.
  destruct (buildSingle_cases a req s1) as [[Ht2 Hnok] | (tx & actions & mt & tr & Ht2)].
  { left. exists req, (deref (heap s1) <$> Actions req).
    destruct (buildSingle' a req s1) as [[tmpl|e|f] s2]; cbn [fst snd] in *; run_unfold.
    - exfalso. exact (Hnok tmpl eq_refl).
    - split; [left; rewrite Ht2, Ht1; reflexivity | discriminate].
    - split; [left; rewrite Ht2, Ht1; reflexivity | discriminate]. }
  destruct (buildSingle' a req s1) as [[tmpl|e|f] s2]; cbn [fst snd] in *; run_unfold.
  2: { left. exists req, (deref (heap s1) <$> Actions req).
       split; [right; exists tx, actions, mt, tr; rewrite Ht2, Ht1; reflexivity
              | discriminate]. }
  2: { left. exists req, (deref (heap s1) <$> Actions req).
       split; [right; exists tx, actions, mt, tr; rewrite Ht2, Ht1; reflexivity
              | discriminate]. }
  destruct (finishClaim_cases a ins nOut tmpl s2)
    as [[Hs2 [f Hf]] | (tmpl' & o & rest & Ho & Hstack &
                        [(e & w' & HS & HR) | (w' & HS & HR & HT)])].
  - left. exists req, (deref (heap s1) <$> Actions req).
    destruct (finishClaim' a ins nOut tmpl s2) as [r s3]; cbn [fst snd] in *. subst s3 r.
    split; [right; exists tx, actions, mt, tr; rewrite Ht2, Ht1; reflexivity
           | discriminate].
  - right. exists req, (deref (heap s1) <$> Actions req), tx, actions, mt, tr, tmpl', o, rest.
    split; [eapply list_elem_of_lookup_2, Ho|]. split; [exact Hstack|].
    left. rewrite HR. cbn [fst snd trace]. split.
    + rewrite Ht2, Ht1, <- app_assoc. reflexivity.
    + exists e, (world s2), w'. split; [exact HS | reflexivity].
  - right. exists req, (deref (heap s1) <$> Actions req), tx, actions, mt, tr, tmpl', o, rest.
    split; [eapply list_elem_of_lookup_2, Ho|]. split; [exact Hstack|].
    right. split; [|split].
    + rewrite HT, Ht2, Ht1, <- app_assoc. reflexivity.
    + exists (world s2), w'. exact HS.
    + eexists. split; [|exact HR]. cbn [trace]. rewrite Ht2, Ht1, <- app_assoc. reflexivity.
Qed.

Lemma claimPeginTx_body (a : API W Action SignFn) (ins : ClaimRequest) (s : St W Action) :
  snd (claimPeginTx' a ins s) = snd (claimPeginTxBody' a ins s)
  /\ fst (claimPeginTx' a ins s)
     = match fst (claimPeginTxBody' a ins s) with
       | Ok r => Ok (SuccessResponse r)
       | Err e => Ok (ErrorResponse e)
       | Panic f => Panic f
       end.
Proof.
  unfold claimPeginTx. destruct (claimPeginTxBody' a ins s) as [[r|e|f] s']; split; reflexivity.
Qed.

(** X18.  With no claim script, when none of the control programs the
    wallet knows maps to a peg control program (so when it knows none), the
    claim is answered with the output error; nothing is built, signed or
    submitted, and the state is left as it was. *)
Theorem claimPeginTx_no_peg_program (a : API W Action SignFn) (ins : ClaimRequest)
        (s : St W Action) (cps : list CtrlProgram) :
  ClaimScript ins = ""%string ->
  ListControlProgram a (world s) = inr cps ->
  Forall (fun c => snd (GetPeginControlPrograms a (CP_ControlProgram c)) = None) cps ->
  claimPeginTx' a ins s
  = (Ok (ErrorResponse
           (errors_New
              "Failed to find output in bytom to the mainchain_address from getpeginaddress")),
     s).
Proof.
  intros Hscript Hcps Hnone.
  unfold claimPeginTx, claimPeginTxBody, resolveClaimTarget.
  rewrite Hscript, String.eqb_refl. run_unfold. rewrite Hcps. run_unfold.
  pose proof (scan_skips W Action SignFn a (RawTx ins) cps Hnone
                (""%string, None, Z.of_nat (length (Outputs (RawTx ins))))) as Hscan.
  destruct (fold_left _ cps _) as [[address controlProg] nOut].
  cbn [snd] in Hscan. subst nOut. rewrite Z.eqb_refl. reflexivity.
Qed.

(** X19.  A claim on a parent transaction without outputs is answered with
    an error and leaves the state as it was: the output error, or, with no
    claim script, the error of the listing of the control programs. *)
Theorem claimPeginTx_no_outputs (a : API W Action SignFn) (ins : ClaimRequest)
        (s : St W Action) :
  Outputs (RawTx ins) = [] ->
  exists e,
    claimPeginTx' a ins s = (Ok (ErrorResponse e), s)
    /\ (e = errors_New
              "Failed to find output in bytom to the mainchain_address from getpeginaddress"
        \/ (ClaimScript ins = ""%string /\ ListControlProgram a (world s) = inl e)).
Proof.
  intros Hnil.
  pose proof (resolveClaimTarget_state W Action SignFn a ins s) as Hs0.
  pose proof (resolveClaimTarget_bounds a ins s) as Hbound.
  pose proof (resolveClaimTarget_no_fault a ins s) as Hnf.
  assert (Herr : forall e, fst (resolveClaimTarget a ins s) = Err e ->
                           ClaimScript ins = ""%string /\ ListControlProgram a (world s) = inl e).
  { unfold resolveClaimTarget. destruct (String.eqb_spec (ClaimScript ins) ""); run_unfold.
    - destruct (ListControlProgram a (world s)) as [err|cps]; [|discriminate].
      intros e0 [= <-]. split; [assumption | reflexivity].
    - destruct (GetPeginControlPrograms a (Some (ClaimScript ins))). discriminate. }
  unfold claimPeginTx, claimPeginTxBody. run_unfold.
  destruct (resolveClaimTarget a ins s) as [[[[address controlProg] nOut]|e|f] s0];
    simpl in Hs0; subst s0; run_unfold.
  - specialize (Hbound address controlProg nOut eq_refl). rewrite Hnil in *.
    cbn [length] in *. replace nOut with 0 by lia. cbn.
    eexists. split; [reflexivity | left; reflexivity].
  - exists e. split; [reflexivity | right; apply Herr; reflexivity].
  - exfalso. exact (Hnf f eq_refl).
Qed.

(** X20.  The contract of a claim is looked up under the hash of the claim
    script of the request, the empty script included, whatever program the
    target was resolved from.  Once the guard on the output index is
    passed, a missing record ends the claim with the contract error, and a
    record that does not decode ends it with the decoding error of the
    endpoint, the error of the decoder being dropped; in both cases nothing
    is built and the state is left as it was. *)
Theorem claimPeginTx_contract_lookup (a : API W Action SignFn) (ins : ClaimRequest)
        (s : St W Action) (address : string) (controlProg : option string) (nOut : Z) :
  fst (resolveClaimTarget a ins s) = Ok (address, controlProg, nOut) ->
  nOut <> Z.of_nat (length (Outputs (RawTx ins))) ->
  (DB_Get a (ContractKey (Sum256 (ClaimScript ins))) (world s) = None ->
   claimPeginTx' a ins s
   = (Ok (ErrorResponse
            (errors_New "Failed to find control program through claim script")), s))
  /\ (forall data err,
        DB_Get a (ContractKey (Sum256 (ClaimScript ins))) (world s) = Some data ->
        json_Unmarshal_CtrlProgram data = inl err ->
        claimPeginTx' a ins s
        = (Ok (ErrorResponse (errors_New "Failed on unmarshal control program")), s)).
Proof.
  intros Hres Hne.
  pose proof (resolveClaimTarget_state W Action SignFn a ins s) as Hs0.
  unfold claimPeginTx, claimPeginTxBody. run_unfold.
  destruct (resolveClaimTarget a ins s) as [r s0]. cbn [fst snd] in *. subst s0 r.
  run_unfold. apply Z.eqb_neq in Hne. rewrite Hne. run_unfold.
  split.
  - intros ->. reflexivity.
  - intros data err -> ->. reflexivity.
Qed.

(** X21.  In every run, a claim calls the template builder, the external
    builder, the signer and the submission at most once each and in that
    order, stopping after any of them: no stage is tried again.  The
    signature is asked with the password of the request and the submission
    is the one of its parent transaction. *)
Theorem claimPeginTx_pipeline (a : API W Action SignFn) (ins : ClaimRequest)
        (s : St W Action) :
  exists added,
    trace (snd (claimPeginTx' a ins s)) = trace s ++ added
    /\ claimPipeline ins added.
Proof.
  destruct (claimPeginTx_body a ins s) as [-> _].
  destruct (claimPeginTxBody_cases a ins s)
    as [[Ht _] | [(req & acts & [Ht | (tx & actions & mt & tr & Ht)] & _)
                 | (req & acts & tx & actions & mt & tr & tmpl' & o & rest & _ & _ &
                    [[Ht _] | [Ht _]])]].
  - exists (@nil (event Action)). rewrite app_nil_r. split; [exact Ht | exact I].
  - eexists. split; [exact Ht | exact I].
  - eexists. split; [exact Ht | exact I].
  - eexists. split; [exact Ht | reflexivity].
  - eexists. split; [exact Ht | split; reflexivity].
Qed.

(** X22.  A claim submits the parent transaction only after the template
    it built was signed without error: in every run, where the submission
    is reached, the signature was asked before it and the signer returned
    no error. *)
Theorem claimPeginTx_submits_after_signature (a : API W Action SignFn)
        (ins : ClaimRequest) (s : St W Action) (added : list (event Action)) (tx : Tx) :
  trace (snd (claimPeginTx' a ins s)) = trace s ++ added ->
  In (EvFinalizeTx tx) added ->
  exists pre post tmpl w w',
    added = pre ++ EvSign tmpl (Password ins) :: post
    /\ In (EvFinalizeTx tx) post
    /\ Sign tmpl (Password ins) (PseudohsmSignTemplate a) w = (None, w').
Proof.
  destruct (claimPeginTx_body a ins s) as [-> _]. intros Ht Hin.
  destruct (claimPeginTxBody_cases a ins s)
    as [[Ht' _] | [(req & acts & [Ht' | (tx' & actions & mt & tr & Ht')] & _)
                 | (req & acts & tx' & actions & mt & tr & tmpl' & o & rest & _ & _ &
                    [[Ht' _] | (Ht' & (w & w' & HS) & _)])]];
    pin_added s Ht Ht'; subst added; simpl in Hin;
    repeat (destruct Hin as [Hin|Hin]; [try discriminate|]); try contradiction.
  injection Hin as <-.
  exists [EvBuildSingle req acts; EvBuild tx' actions mt tr], [EvFinalizeTx (RawTx ins)],
         tmpl', w, w'.
  split; [reflexivity|]. split; [left; reflexivity | exact HS].
Qed.

(** X23.  Whatever template a claim hands to the signer carries the claim
    on its first input: that input is marked as a peg-in and its witness
    stack is, in this order, the decimal text of the amount of an output of
    the parent transaction, the hash of the genesis block of the parent
    chain, the claim script of the request, the encoding of the parent
    transaction and the proof of the request; and the password is the one
    of the request. *)
Theorem claimPeginTx_signs_pegged_input (a : API W Action SignFn)
        (ins : ClaimRequest) (s : St W Action) (added : list (event Action))
        (tmpl : Template) (password : string) :
  trace (snd (claimPeginTx' a ins s)) = trace s ++ added ->
  In (EvSign tmpl password) added ->
  password = Password ins
  /\ exists output rest,
       output ∈ Outputs (RawTx ins)
       /\ Inputs (Transaction tmpl)
          = {| Peginwitness := claimStack ins output; IsPegin := true |} :: rest.
Proof.
  destruct (claimPeginTx_body a ins s) as [-> _]. intros Ht Hin.
  destruct (claimPeginTxBody_cases a ins s)
    as [[Ht' _] | [(req & acts & [Ht' | (tx' & actions & mt & tr & Ht')] & _)
                 | (req & acts & tx' & actions & mt & tr & tmpl' & o & rest & Ho & Hst &
                    [[Ht' _] | [Ht' _]])]];
    pin_added s Ht Ht'; subst added; simpl in Hin;
    repeat (destruct Hin as [Hin|Hin]; [try discriminate|]); try contradiction;
    injection Hin as <- <-; (split; [reflexivity | exists o, rest; split; assumption]).
Qed.

(** X24.  A claim does not fault before it calls the template builder: the
    index it reads the parent outputs at is, past the guard, the index of
    an output.  A run that ends with a fault has called the builder. *)
Theorem claimPeginTx_faults_after_builder_call (a : API W Action SignFn)
        (ins : ClaimRequest) (s : St W Action) (f : fault) :
  fst (claimPeginTx' a ins s) = Panic f ->
  exists req acts rest,
    trace (snd (claimPeginTx' a ins s)) = trace s ++ EvBuildSingle req acts :: rest.
Proof.
  destruct (claimPeginTx_body a ins s) as [-> ->]. intros Hf.
  destruct (claimPeginTxBody_cases a ins s)
    as [[_ [e He]] | [(req & acts & [Ht' | (tx' & actions & mt & tr & Ht')] & _)
                 | (req & acts & tx' & actions & mt & tr & tmpl' & o & rest & _ & _ &
                    [[Ht' _] | [Ht' _]])]].
  - rewrite He in Hf. discriminate.
  - exists req, acts, (@nil (event Action)). exact Ht'.
  - eexists req, acts, _. exact Ht'.
  - eexists req, acts, _. exact Ht'.
  - eexists req, acts, _. exact Ht'.
Qed.


End ClaimMore.

(* ===================================================================== *)
(** * The receiver endpoints *)
(* ===================================================================== *)

Section ReceiverFacts.

Variable W : Type.
Variable Action : Type.
Variable SignFn : Type.
Variable FindByAlias : string -> W -> error + Account.
Variable CreatePeginAddress : string -> bool -> W -> (error + string * string) * W.

Local Abbreviation createAccountReceiver' :=
  (createAccountReceiver W Action SignFn FindByAlias).
Local Abbreviation getPeginAddress' :=
  (getPeginAddress W Action SignFn FindByAlias CreatePeginAddress).

(** X26.  In both receiver endpoints an alias, when given, decides the
    account and the account identifier of the request is not read: the
    request is answered as the request for the identifier found under the
    alias; and when the alias is not found, both answer with the error of
    the lookup and create no address, the state being left as it was. *)
Theorem receivers_resolve_alias_first (a : API W Action SignFn) (ins : AccountRequest)
        (s : St W Action) :
  Req_AccountAlias ins <> ""%string ->
  match FindByAlias (Req_AccountAlias ins) (world s) with
  | inl err =>
      createAccountReceiver' a ins s = (Ok (ErrorReply err), s)
      /\ getPeginAddress' a ins s = (Ok (ErrorReply err), s)
  | inr account =>
      let byID := {| Req_AccountID := Acc_ID account; Req_AccountAlias := "" |} in
      createAccountReceiver' a ins s = createAccountReceiver' a byID s
      /\ getPeginAddress' a ins s = getPeginAddress' a byID s
  end.
Proof.
  intros Halias. apply String.eqb_neq in Halias.
  unfold createAccountReceiver, getPeginAddress. rewrite Halias. cbn [negb].
  destruct (FindByAlias (Req_AccountAlias ins) (world s)) as [err|account].
  - split; reflexivity.
  - split; reflexivity.
Qed.

End ReceiverFacts.

(* ===================================================================== *)
(** * Further properties: concrete runs *)
(* ===================================================================== *)

(** X2 at the instruction of quorum two: 600 bytes. *)
Lemma estimateSignSize_closed_form_witness :
  Int64.in_range (300 * totalQuorum (SigningInstructions Sample.tplP2WSH))
  /\ estimateSignSize (SigningInstructions Sample.tplP2WSH) = 600.
Proof.
  assert (H : Int64.in_range (300 * totalQuorum (SigningInstructions Sample.tplP2WSH)))
    by (vm_compute; split; discriminate).
  split; [exact H|].
  exact (estimateSignSize_closed_form (SigningInstructions Sample.tplP2WSH) H).
Defined.

(** X3 at the instruction with three keys and quorum two. *)
Lemma estimateP2WSHGas_nonneg_witness :
  quorumWithinKeys (SignatureWitness 2 ["k1"; "k2"; "k3"]%string)
  /\ 0 <= estimateP2WSHGas
            {| Position := 0;
               WitnessComponents := [SignatureWitness 2 ["k1"; "k2"; "k3"]%string] |}.
Proof.
  split; [simpl; lia|].
  apply estimateP2WSHGas_nonneg.
  - apply List.Forall_cons; [simpl; lia | apply List.Forall_nil].
  - vm_compute. split; discriminate.
Defined.

(** X4 at a template of two P2WPKH inputs and, at position 2, a P2WSH
    input: 2838 and 3483. *)
Lemma vm_gas_by_position_witness :
  Sample.estimateGasTotals Sample.tplMixed
  = Ok {| totalTxSizeGas := 601; totalP2WPKHGas := 2838; totalP2WSHGas := 3483 |}
  /\ Int64.wrap (1419 * countP2WPKH Sample.IsP2WPKHScript Sample.tplMixed) = 2838
  /\ Int64.wrap (sumZ (imap (p2wshGasAt Sample.IsP2WPKHScript Sample.IsP2WSHScript
                               Sample.tplMixed)
                         (InputIDs (Transaction Sample.tplMixed)))) = 3483.
Proof.
  assert (H : Sample.estimateGasTotals Sample.tplMixed
              = Ok {| totalTxSizeGas := 601; totalP2WPKHGas := 2838;
                      totalP2WSHGas := 3483 |}) by (vm_compute; reflexivity).
  split; [exact H|].
  destruct (vm_gas_by_position Sample.MarshalText Sample.IsP2WPKHScript
              Sample.IsP2WSHScript Sample.StorageGasRate Sample.tplMixed _ H) as [H1 H2].
  split; [symmetry; exact H1 | symmetry; exact H2].
Defined.

(** X5 at a template with one P2WPKH input and no signing instruction. *)
Lemma EstimateTxGas_without_P2WSH_witness :
  exists resp,
    Sample.EstimateTxGas Sample.tplP2WPKH = Ok resp /\ VMNeu resp = 283800.
Proof.
  apply (EstimateTxGas_without_P2WSH Sample.MarshalText Sample.IsP2WPKHScript
           Sample.IsP2WSHScript Sample.StorageGasRate Sample.VMGasRate
           Sample.tplP2WPKH "7").
  - reflexivity.
  - vm_compute. split; discriminate.
  - apply List.Forall_cons; [reflexivity | apply List.Forall_nil].
Defined.

(** X6 at the template with one P2WSH input: 900000 against 120200 and
    696600. *)
Lemma total_fee_brackets_sub_fees_witness :
  exists resp,
    Sample.EstimateTxGas Sample.tplP2WSH = Ok resp
    /\ TotalNeu resp mod 100000 = 0
    /\ StorageNeu resp + VMNeu resp <= TotalNeu resp
    /\ TotalNeu resp < StorageNeu resp + VMNeu resp + 100000.
Proof.
  apply (total_fee_brackets_sub_fees Sample.MarshalText Sample.IsP2WPKHScript
           Sample.IsP2WSHScript Sample.StorageGasRate Sample.VMGasRate Sample.tplP2WSH
           {| totalTxSizeGas := 601; totalP2WPKHGas := 0; totalP2WSHGas := 3483 |}).
  - reflexivity.
  - simpl. lia.
  - simpl. lia.
  - simpl. lia.
  - reflexivity.
  - vm_compute. discriminate.
Defined.

(** X7 with a storage rate of [2^62]: a size of 301 bytes is answered with
    the math error. *)
Lemma estimateTxGas_error_replies_witness :
  estimateTxGas Sample.MarshalText Sample.IsP2WPKHScript Sample.IsP2WSHScript
    (2 ^ 62) Sample.VMGasRate (Sample.tplQuorum 1)
  = Ok (ErrorReply (errors_New "calculate txsize gas got a math error")).
Proof.
  apply (estimateTxGas_error_replies Sample.MarshalText Sample.IsP2WPKHScript
           Sample.IsP2WSHScript (2 ^ 62) Sample.VMGasRate (Sample.tplQuorum 1)).
  right. split; [reflexivity|]. exists "7"%string. split; [reflexivity|].
  vm_compute. intros [_ H]. apply H. reflexivity.
Defined.

(** X8 at a request of a [spend_account] and a [control_address] action. *)
Lemma onlyHaveInputActions_typed_witness :
  onlyHaveInputActions Sample.actionHeap (Sample.request [0%N; 1%N] 0) = inr false.
Proof.
  exact (onlyHaveInputActions_typed Sample.actionHeap (Sample.request [0%N; 1%N] 0)
           ["spend_account"; "control_address"]%string eq_refl).
Defined.

(** X9 at a request whose action 1 holds an amount and no type. *)
Lemma build_untyped_action_witness :
  fst (Sample.build (Sample.api None []) (Sample.request [0%N; 3%N; 1%N] 0) Sample.onHeap)
  = Ok (ErrorReply
          (errors_WithDetail (rootError ErrBadActionType)
             "no action type provided on action 1")).
Proof.
  unfold Sample.build.
  assert (Hpre : Forall (fun l' => is_Some (typeTag (deref Sample.actionHeap l'))) [0%N])
    by (apply List.Forall_cons; [eexists; reflexivity | apply List.Forall_nil]).
  rewrite (build_untyped_action unit string unit Sample.Error_text Sample.Decode
             Sample.Decode Sample.Decode Sample.MergeSpendAction Sample.json_Marshal
             Sample.time_Now Sample.Build (Sample.api None [])
             (Sample.request [0%N; 3%N; 1%N] 0) Sample.onHeap Sample.actionHeap tt
             [0%N] 3%N [1%N] eq_refl eq_refl Hpre eq_refl).
  reflexivity.
Defined.

(** X10 at a request whose action 1 is tagged ["mint"]. *)
Lemma build_unknown_action_type_witness :
  fst (Sample.build (Sample.api None []) (Sample.request [1%N; 2%N] 0) Sample.onHeap)
  = Ok (ErrorReply
          (errors_WithDetail (rootError ErrBadActionType)
             ("unknown action type " ++ dquote ++ "mint" ++ dquote ++ " on action 1"))).
Proof.
  unfold Sample.build.
  assert (Hn : "mint"%string
               ∉ [ "control_address"; "control_program"; "issue"; "retire";
                   "spend_account"; "spend_account_unspent_output" ]%string).
  { intros H. repeat (apply elem_of_cons in H as [H|H]; [discriminate|]).
    apply elem_of_nil in H. exact H. }
  rewrite (build_unknown_action_type unit string unit Sample.Error_text Sample.Decode
             Sample.Decode Sample.Decode Sample.MergeSpendAction Sample.json_Marshal
             Sample.time_Now Sample.Build (Sample.api None [])
             (Sample.request [1%N; 2%N] 0) Sample.onHeap Sample.actionHeap tt
             [1%N] 2%N [] ["control_address"%string] "mint"
             eq_refl eq_refl eq_refl eq_refl eq_refl eq_refl Hn).
  reflexivity.
Defined.

(** X11 with a decoder of [control_address] that fails. *)
Lemma build_bad_action_witness :
  fst (build unit string unit Sample.Error_text Sample.DecodeFail Sample.Decode
         Sample.Decode Sample.MergeSpendAction Sample.json_Marshal Sample.time_Now
         Sample.Build (Sample.api None []) (Sample.request [0%N; 1%N] 0) Sample.onHeap)
  = Ok (ErrorReply
          (errors_WithDetail (rootError ErrBadAction) "bad payload on action 1")).
Proof.
  rewrite (build_bad_action unit string unit Sample.Error_text Sample.DecodeFail
             Sample.Decode Sample.Decode Sample.MergeSpendAction Sample.json_Marshal
             Sample.time_Now Sample.Build (Sample.api None [])
             (Sample.request [0%N; 1%N] 0) Sample.onHeap Sample.actionHeap tt
             [0%N] 1%N [] ["spend_account"%string] "control_address"
             Sample.DecodeFail "control_address"
             {| Root := ErrNew "decode"; Detail := "bad payload"; DataActions := None |}
             eq_refl eq_refl eq_refl eq_refl eq_refl eq_refl eq_refl eq_refl).
  reflexivity.
Defined.

(** X12 at a request without TTL: the deadline is five minutes from the
    time 0 of the sample clock. *)
Lemma build_success_witness :
  Sample.build (Sample.api None []) (Sample.request [0%N; 1%N] 0) Sample.onHeap
  = (Ok (SuccessReply Sample.builtTemplate),
     {| heap := Sample.actionHeap; world := tt;
        trace := [ EvBuildSingle (Sample.request [0%N; 1%N] 0)
                     [Sample.tagged "spend_account"; Sample.tagged "control_address"];
                   EvBuild None ["spend_account"; "control_address"]%string
                     300000000000 0 ] |}).
Proof.
  unfold Sample.build.
  rewrite (build_success unit string unit Sample.Error_text Sample.Decode
             Sample.Decode Sample.Decode Sample.MergeSpendAction Sample.json_Marshal
             Sample.time_Now Sample.Build (Sample.api None [])
             (Sample.request [0%N; 1%N] 0) Sample.onHeap Sample.actionHeap tt tt
             ["spend_account"; "control_address"]%string Sample.builtTemplate
             eq_refl eq_refl eq_refl eq_refl).
  reflexivity.
Defined.

(** X13 at the same run. *)
Lemma buildSingle_build_gate_witness :
  exists h w decoded,
    completeMissingIDs (Sample.api None []) (Sample.request [0%N; 1%N] 0)
      (heap Sample.onHeap) (world Sample.onHeap) = (None, h, w)
    /\ onlyHaveInputActions h (Sample.request [0%N; 1%N] 0) = inr false
    /\ decodeActions unit string unit Sample.Error_text Sample.Decode Sample.Decode
         Sample.Decode Sample.json_Marshal (Sample.api None []) h 0
         (Actions (Sample.request [0%N; 1%N] 0)) [] = inr decoded
    /\ None = BuildTx (Sample.request [0%N; 1%N] 0)
    /\ ["spend_account"; "control_address"]%string = Sample.MergeSpendAction decoded
    /\ 0 = TimeRange (Sample.request [0%N; 1%N] 0).
Proof.
  apply (buildSingle_build_gate unit string unit Sample.Error_text Sample.Decode
           Sample.Decode Sample.Decode Sample.MergeSpendAction Sample.json_Marshal
           Sample.time_Now Sample.Build (Sample.api None [])
           (Sample.request [0%N; 1%N] 0) Sample.onHeap
           [ EvBuildSingle (Sample.request [0%N; 1%N] 0)
               [Sample.tagged "spend_account"; Sample.tagged "control_address"];
             EvBuild None ["spend_account"; "control_address"]%string 300000000000 0 ]
           None ["spend_account"; "control_address"]%string 300000000000 0).
  - reflexivity.
  - right. left. reflexivity.
Defined.

(** X14 with a builder that reports two inner errors. *)
Lemma buildSingle_flattens_action_errors_witness :
  fst (buildSingle unit string unit Sample.Error_text Sample.Decode Sample.Decode
         Sample.Decode Sample.MergeSpendAction Sample.json_Marshal Sample.time_Now
         Sample.BuildFail (Sample.api None []) (Sample.request [0%N; 1%N] 0)
         Sample.onHeap)
  = Err {| Root := ErrNew "insufficient funds";
           Detail := "no funds; utxo reserved";
           DataActions := None |}.
Proof.
  exact (buildSingle_flattens_action_errors unit string unit Sample.Error_text
           Sample.Decode Sample.Decode Sample.Decode Sample.MergeSpendAction
           Sample.json_Marshal Sample.time_Now Sample.BuildFail (Sample.api None [])
           (Sample.request [0%N; 1%N] 0) Sample.onHeap Sample.actionHeap tt tt
           ["spend_account"; "control_address"]%string None Sample.actionErrors
           (ErrNew "insufficient funds", "no funds; "%string)
           [(ErrNew "reserved", "utxo reserved"%string)]
           eq_refl eq_refl eq_refl eq_refl eq_refl eq_refl).
Defined.

(** X15 with a builder that returns a template and an error. *)
Lemma build_passes_builder_error_witness :
  fst (build unit string unit Sample.Error_text Sample.Decode Sample.Decode
         Sample.Decode Sample.MergeSpendAction Sample.json_Marshal Sample.time_Now
         (fun _ _ _ _ w => (Some Sample.builtTemplate, Some Sample.sampleError, w))
         (Sample.api None []) (Sample.request [0%N; 1%N] 0) Sample.onHeap)
  = Ok (ErrorReply Sample.sampleError).
Proof.
  apply (build_passes_builder_error unit string unit Sample.Error_text
           Sample.Decode Sample.Decode Sample.Decode Sample.MergeSpendAction
           Sample.json_Marshal Sample.time_Now
           (fun _ _ _ _ w => (Some Sample.builtTemplate, Some Sample.sampleError, w))
           (Sample.api None []) (Sample.request [0%N; 1%N] 0) Sample.onHeap
           Sample.actionHeap tt tt
           ["spend_account"; "control_address"]%string (Some Sample.builtTemplate)
           Sample.sampleError eq_refl eq_refl eq_refl eq_refl).
  discriminate.
Defined.

(** X18 with a wallet whose one control program is empty and maps to no
    peg control program. *)
Lemma claimPeginTx_no_peg_program_witness :
  Sample.claimPeginTx (Sample.api None [Sample.program ""]) (Sample.claimRequest "")
    Sample.initial
  = (Ok (ErrorResponse
           (errors_New
              "Failed to find output in bytom to the mainchain_address from getpeginaddress")),
     Sample.initial).
Proof.
  unfold Sample.claimPeginTx.
  apply (claimPeginTx_no_peg_program unit string unit Sample.Error_text Sample.Decode
           Sample.Decode Sample.Decode Sample.MergeSpendAction Sample.json_Marshal
           Sample.time_Now Sample.Build Sample.Sign Sample.FinalizeTx Sample.Sum256
           Sample.ContractKey Sample.json_Unmarshal_CtrlProgram Sample.json_Marshal_Tx
           Sample.ParentGenesisBlockHash
           (Sample.api None [Sample.program ""]) (Sample.claimRequest "") Sample.initial
           [Sample.program ""]).
  - reflexivity.
  - reflexivity.
  - apply List.Forall_cons; [reflexivity | apply List.Forall_nil].
Defined.

(** X19 at a parent transaction without outputs, claim script ["A"]. *)
Lemma claimPeginTx_no_outputs_witness :
  exists e,
    Sample.claimPeginTx (Sample.api None [])
      {| Password := "pw"; RawTx := Sample.emptyTx 42%N; TxOutProof := "proof";
         ClaimScript := "A" |} Sample.initial
    = (Ok (ErrorResponse e), Sample.initial)
    /\ (e = errors_New
              "Failed to find output in bytom to the mainchain_address from getpeginaddress"
        \/ ("A"%string = ""%string
            /\ ListControlProgram (Sample.api None []) (world Sample.initial) = inl e)).
Proof.
  unfold Sample.claimPeginTx.
  apply (claimPeginTx_no_outputs unit string unit Sample.Error_text Sample.Decode
           Sample.Decode Sample.Decode Sample.MergeSpendAction Sample.json_Marshal
           Sample.time_Now Sample.Build Sample.Sign Sample.FinalizeTx Sample.Sum256
           Sample.ContractKey Sample.json_Unmarshal_CtrlProgram Sample.json_Marshal_Tx
           Sample.ParentGenesisBlockHash
           (Sample.api None [])
           {| Password := "pw"; RawTx := Sample.emptyTx 42%N; TxOutProof := "proof";
              ClaimScript := "A" |} Sample.initial).
  reflexivity.
Defined.

(** X20 with an empty contract store, claim script ["A"]. *)
Lemma claimPeginTx_contract_lookup_witness :
  Sample.claimPeginTx (Sample.apiNoContract []) (Sample.claimRequest "A") Sample.initial
  = (Ok (ErrorResponse
           (errors_New "Failed to find control program through claim script")),
     Sample.initial).
Proof.
  unfold Sample.claimPeginTx.
  apply (claimPeginTx_contract_lookup unit string unit Sample.Error_text Sample.Decode
           Sample.Decode Sample.Decode Sample.MergeSpendAction Sample.json_Marshal
           Sample.time_Now Sample.Build Sample.Sign Sample.FinalizeTx Sample.Sum256
           Sample.ContractKey Sample.json_Unmarshal_CtrlProgram Sample.json_Marshal_Tx
           Sample.ParentGenesisBlockHash
           (Sample.apiNoContract []) (Sample.claimRequest "A") Sample.initial
           "pegaddr" (Some "peg:A"%string) 1).
  - reflexivity.
  - discriminate.
  - reflexivity.
Defined.

(** X22 at the claim of script ["A"], which goes through. *)
Lemma claimPeginTx_submits_after_signature_witness :
  exists pre post tmpl w w',
    trace (snd (Sample.claimPeginTx (Sample.api None []) (Sample.claimRequest "A")
                  Sample.initial))
    = pre ++ EvSign tmpl "pw" :: post
    /\ In (EvFinalizeTx Sample.parentTx) post
    /\ Sample.Sign tmpl "pw" tt w = (None, w').
Proof.
  unfold Sample.claimPeginTx.
  match goal with |- exists pre post tmpl w w', trace (snd ?run) = _ /\ _ =>
    assert (Ht : exists added,
               trace (snd run) = trace Sample.initial ++ added
               /\ In (EvFinalizeTx Sample.parentTx) added)
      by (vm_compute; eexists; split; [reflexivity | do 3 right; left; reflexivity])
  end.
  destruct Ht as (added & Ht & Hin).
  destruct (claimPeginTx_submits_after_signature unit string unit Sample.Error_text
              Sample.Decode Sample.Decode Sample.Decode Sample.MergeSpendAction
              Sample.json_Marshal Sample.time_Now Sample.Build Sample.Sign
              Sample.FinalizeTx Sample.Sum256 Sample.ContractKey
              Sample.json_Unmarshal_CtrlProgram Sample.json_Marshal_Tx
              Sample.ParentGenesisBlockHash
              (Sample.api None []) (Sample.claimRequest "A") Sample.initial
              added Sample.parentTx Ht Hin)
    as (pre & post & tmpl & w & w' & Hadd & Hpost & HS).
  exists pre, post, tmpl, w, w'. rewrite Ht, Hadd.
  split; [reflexivity|]. split; [exact Hpost | exact HS].
Defined.

(** X23 at the same claim: the stack starts with the amount of an output of
    the parent transaction. *)
Lemma claimPeginTx_signs_pegged_input_witness :
  exists tmpl,
    In (EvSign tmpl "pw")
       (trace (snd (Sample.claimPeginTx (Sample.api None []) (Sample.claimRequest "A")
                      Sample.initial)))
    /\ exists output rest,
         output ∈ Outputs Sample.parentTx
         /\ Inputs (Transaction tmpl)
            = {| Peginwitness := [ Some (pretty (Z.to_N (Amount output)));
                                   Some "genesis"%string; Some "A"%string;
                                   Some "42"%string; Some "proof"%string ];
                 IsPegin := true |} :: rest.
Proof.
  unfold Sample.claimPeginTx.
  match goal with |- exists tmpl, In _ (trace (snd ?run)) /\ _ =>
    assert (Ht : exists added tmpl,
               trace (snd run) = trace Sample.initial ++ added
               /\ In (EvSign tmpl "pw"%string) added)
      by (vm_compute; do 2 eexists; split; [reflexivity | do 2 right; left; reflexivity])
  end.
  destruct Ht as (added & tmpl & Ht & Hin).
  exists tmpl. split; [rewrite Ht; apply in_or_app; right; exact Hin|].
  apply (claimPeginTx_signs_pegged_input unit string unit Sample.Error_text
           Sample.Decode Sample.Decode Sample.Decode Sample.MergeSpendAction
           Sample.json_Marshal Sample.time_Now Sample.Build Sample.Sign Sample.FinalizeTx
           Sample.Sum256 Sample.ContractKey Sample.json_Unmarshal_CtrlProgram
           Sample.json_Marshal_Tx Sample.ParentGenesisBlockHash
           (Sample.api None []) (Sample.claimRequest "A") Sample.initial
           added tmpl "pw" Ht Hin).
Defined.

(** X24 with a builder that returns neither template nor error: the fault
    comes after the call of the template builder. *)
Lemma claimPeginTx_faults_after_builder_call_witness :
  fst (claimPeginTx unit string unit Sample.Error_text Sample.Decode Sample.Decode
         Sample.Decode Sample.MergeSpendAction Sample.json_Marshal Sample.time_Now
         (fun _ _ _ _ w => (None, None, w)) Sample.Sign Sample.FinalizeTx Sample.Sum256
         Sample.ContractKey Sample.json_Unmarshal_CtrlProgram Sample.json_Marshal_Tx
         Sample.ParentGenesisBlockHash (Sample.api None []) (Sample.claimRequest "A")
         Sample.initial) = Panic NilDereference
  /\ exists req acts rest,
       trace (snd (claimPeginTx unit string unit Sample.Error_text Sample.Decode
                     Sample.Decode Sample.Decode Sample.MergeSpendAction
                     Sample.json_Marshal Sample.time_Now
                     (fun _ _ _ _ w => (None, None, w)) Sample.Sign Sample.FinalizeTx
                     Sample.Sum256 Sample.ContractKey Sample.json_Unmarshal_CtrlProgram
                     Sample.json_Marshal_Tx Sample.ParentGenesisBlockHash
                     (Sample.api None []) (Sample.claimRequest "A") Sample.initial))
       = trace Sample.initial ++ EvBuildSingle req acts :: rest.
Proof.
  match goal with |- ?run = _ /\ _ =>
    assert (Hf : run = Panic NilDereference) by (vm_compute; reflexivity)
  end.
  split; [exact Hf|].
  exact (claimPeginTx_faults_after_builder_call unit string unit Sample.Error_text
           Sample.Decode Sample.Decode Sample.Decode Sample.MergeSpendAction
           Sample.json_Marshal Sample.time_Now (fun _ _ _ _ w => (None, None, w))
           Sample.Sign Sample.FinalizeTx Sample.Sum256 Sample.ContractKey
           Sample.json_Unmarshal_CtrlProgram Sample.json_Marshal_Tx
           Sample.ParentGenesisBlockHash (Sample.api None []) (Sample.claimRequest "A")
           Sample.initial NilDereference Hf).
Defined.


(** X26 at the alias ["alice"], with an account identifier that is not the
    one of the alias, and at an alias the wallet does not know. *)
Lemma receivers_resolve_alias_first_witness :
  (Sample.createAccountReceiver (Sample.api None [])
     {| Req_AccountID := "bob"; Req_AccountAlias := "alice" |} Sample.initial
   = Sample.createAccountReceiver (Sample.api None [])
       {| Req_AccountID := "acct-alice"; Req_AccountAlias := "" |} Sample.initial
   /\ Sample.getPeginAddress (Sample.api None [])
        {| Req_AccountID := "bob"; Req_AccountAlias := "alice" |} Sample.initial
      = Sample.getPeginAddress (Sample.api None [])
          {| Req_AccountID := "acct-alice"; Req_AccountAlias := "" |} Sample.initial)
  /\ (Sample.createAccountReceiver (Sample.api None [])
        {| Req_AccountID := "bob"; Req_AccountAlias := "carol" |} Sample.initial
      = (Ok (ErrorReply (errors_New "alias not found")), Sample.initial)
      /\ Sample.getPeginAddress (Sample.api None [])
           {| Req_AccountID := "bob"; Req_AccountAlias := "carol" |} Sample.initial
         = (Ok (ErrorReply (errors_New "alias not found")), Sample.initial)).
Proof.
  split.
  - apply (receivers_resolve_alias_first unit string unit Sample.FindByAlias
             Sample.CreatePeginAddress (Sample.api None [])
             {| Req_AccountID := "bob"; Req_AccountAlias := "alice" |} Sample.initial).
    discriminate.
  - apply (receivers_resolve_alias_first unit string unit Sample.FindByAlias
             Sample.CreatePeginAddress (Sample.api None [])
             {| Req_AccountID := "bob"; Req_AccountAlias := "carol" |} Sample.initial).
    discriminate.
Defined.
